(** * The duel engine of flashcode: matchmaking, adjudication and cleanup

    A shallow embedding of [backend/services/duel_service.py] (class
    [DuelService]) and of [GamificationService.award_xp] from
    [backend/services/gamification_service.py], over the tables declared in
    [backend/models.py].

    Conventions of the embedding.
    - Python [int] is [Z]; [Optional[int]] is [option Z]; truthiness of an
      optional integer ([if x:]) is [truthy].
    - A [datetime] is its wall-clock reading in microseconds together with an
      optional UTC offset ([tzinfo]); a naive datetime has [tzinfo = None].
    - A table is the list of its rows in insertion order; [Query.first()]
      without [order_by] returns the first matching row of that list.
    - A SQLAlchemy session is a pair of stores: what is committed and what the
      session is working on.  [commit] publishes the working store,
      [rollback] discards it.
    - The wall clock, the execution judge and the random generator are inputs
      of the operations that consult them.
    - The session factory ([database.py]) is not part of the sources at hand:
      whether the session autoflushes, which [tzinfo] a server-generated
      timestamp carries when read back, and which database the session talks
      to ([config.py] defaults to SQLite, [config/production.py] names
      PostgreSQL) are parameters of the development.
    - Of the integers the engine writes, [users.xp] is the one it lets grow
      without bound; the range of its column is modelled.  The other integers
      written ([time_taken], keys) are taken to fit their columns. *)

From Stdlib Require Import ZArith List String Bool Lia QArith.
From Stdlib Require Import DecimalString Sorted.
Import ListNotations.
Local Open Scope string_scope.
Local Open Scope list_scope.
Local Open Scope Z_scope.

(** ** Python values *)

Inductive exn : Type :=
| ValueError (msg : string)
| TypeError (msg : string)
| AttributeError (msg : string)
| HTTPException (status_code : Z) (detail : string).

(** [if x:] for [x : Optional[int]]. *)
Definition truthy (x : option Z) : bool :=
  match x with
  | Some n => negb (n =? 0)
  | None => false
  end.

(** [x == y] for [x : Optional[int]] and [y : int]. *)
Definition opt_eqb (x : option Z) (y : Z) : bool :=
  match x with
  | Some n => n =? y
  | None => false
  end.

(** ** datetime *)

Record datetime : Type := mk_datetime {
  wall : Z;               (* microseconds shown by the clock fields *)
  tzinfo : option Z       (* UTC offset in microseconds, [None] when naive *)
}.

Definition seconds (n : Z) : Z := n * 1000000.
Definition minutes (n : Z) : Z := seconds (60 * n).
Arguments seconds : simpl never.
Arguments minutes : simpl never.

(** [datetime.now(timezone.utc)] when the clock reads [clock]. *)
Definition now_utc (clock : Z) : datetime :=
  {| wall := clock; tzinfo := Some 0 |}.

(** [d.replace(tzinfo=timezone.utc)] guarded by [d.tzinfo is None]. *)
Definition assume_utc (d : datetime) : datetime :=
  match tzinfo d with
  | None => {| wall := wall d; tzinfo := Some 0 |}
  | Some _ => d
  end.

(** The instant an aware datetime denotes (microseconds, UTC). *)
Definition instant (d : datetime) : Z :=
  wall d - match tzinfo d with Some off => off | None => 0 end.

(** [d - timedelta] *)
Definition minus_delta (d : datetime) (delta : Z) : datetime :=
  {| wall := wall d - delta; tzinfo := tzinfo d |}.

(** [(a - b)] in microseconds, and [a < b], on aware datetimes. *)
Definition dt_sub (a b : datetime) : Z := instant a - instant b.
Definition dt_ltb (a b : datetime) : bool := instant a <? instant b.

(** ** Tables ([models.py]) *)

Inductive DuelStatusEnum : Type := WAITING | ACTIVE | COMPLETED.

Definition status_eqb (a b : DuelStatusEnum) : bool :=
  match a, b with
  | WAITING, WAITING | ACTIVE, ACTIVE | COMPLETED, COMPLETED => true
  | _, _ => false
  end.

Inductive QuestionTypeEnum : Type := MCQ | FILL_BLANK | FLASHCARD | CODE.

Definition is_code (t : QuestionTypeEnum) : bool :=
  match t with CODE => true | _ => false end.

Module Duel.
Record t : Type := mk {
  id : Z;
  challenger_id : Z;
  opponent_id : option Z;
  question_id : Z;
  status : DuelStatusEnum;
  winner_id : option Z;
  created_at : datetime;
  completed_at : option datetime
}.
End Duel.

Module QuestionAttempt.
Record t : Type := mk {
  user_id : Z;
  question_id : Z;
  is_correct : bool;
  time_taken : Z;
  created_at : datetime
}.
End QuestionAttempt.

Module Question.
Record t : Type := mk {
  id : Z;
  type : QuestionTypeEnum;
  difficulty : Z;
  xp_reward : Z
}.
End Question.

Module User.
(** [xp = Column(Integer, default=0)] is nullable. *)
Record t : Type := mk {
  id : Z;
  xp : option Z
}.
End User.

Record Store : Type := mk_store {
  duels : list Duel.t;
  attempts : list QuestionAttempt.t;
  users : list User.t;
  questions : list Question.t
}.

Definition with_duels (st : Store) (ds : list Duel.t) : Store :=
  {| duels := ds; attempts := attempts st; users := users st;
     questions := questions st |}.

Definition with_attempts (st : Store) (l : list QuestionAttempt.t) : Store :=
  {| duels := duels st; attempts := l; users := users st;
     questions := questions st |}.

Definition with_users (st : Store) (l : list User.t) : Store :=
  {| duels := duels st; attempts := attempts st; users := l;
     questions := questions st |}.

(** ** The session *)

Record Session : Type := mk_session {
  committed : Store;
  working : Store
}.

Definition commit (s : Session) : Session :=
  {| committed := working s; working := working s |}.

Definition rollback (s : Session) : Session :=
  {| committed := committed s; working := committed s |}.

(** What a call leaves behind: the value it returns with the committed store,
    or the exception it raises with the store as committed at that point
    (the request's session is closed without a commit). *)
Inductive outcome (A : Type) : Type :=
| Returned (a : A) (st : Store)
| Raised (e : exn) (st : Store).
Arguments Returned {A} a st.
Arguments Raised {A} e st.

Definition store_after {A : Type} (r : outcome A) : Store :=
  match r with
  | Returned _ st => st
  | Raised _ st => st
  end.

(** ** The database

    [DATABASE_URL] selects it: SQLite by default, PostgreSQL in production. *)
Inductive Dialect : Type := SQLite | PostgreSQL.

(** The integers a column declared [Integer] holds: 64-bit signed in SQLite,
    32-bit signed in PostgreSQL.  Writing any other raises when the session
    flushes. *)
Definition storable (db : Dialect) (x : Z) : bool :=
  match db with
  | SQLite => (- 2 ^ 63 <=? x) && (x <? 2 ^ 63)
  | PostgreSQL => (- 2 ^ 31 <=? x) && (x <? 2 ^ 31)
  end.

(** [Query.limit(n)].  The count is sent as it is.  SQLite reads a negative
    count as no limit and PostgreSQL rejects it; neither takes a count outside
    its 64-bit integers.  [None] is the error the query then raises. *)
Definition sql_limit {A : Type} (db : Dialect) (n : Z) (rows : list A)
  : option (list A) :=
  if n <? 0 then
    match db with
    | SQLite => if - 2 ^ 63 <=? n then Some rows else None
    | PostgreSQL => None
    end
  else if n <? 2 ^ 63 then Some (firstn (Z.to_nat n) rows)
  else None.

(** ** Row access *)

Definition find_duel (duel_id : Z) (ds : list Duel.t) : option Duel.t :=
  find (fun d => Duel.id d =? duel_id) ds.

Definition find_question (question_id : Z) (qs : list Question.t)
  : option Question.t :=
  find (fun q => Question.id q =? question_id) qs.

Definition find_user (user_id : Z) (us : list User.t) : option User.t :=
  find (fun u => User.id u =? user_id) us.

(** UPDATE of the row with primary key [duel_id]. *)
Fixpoint db_update (duel_id : Z) (f : Duel.t -> Duel.t) (ds : list Duel.t)
  : list Duel.t :=
  match ds with
  | [] => []
  | d :: rest =>
      if Duel.id d =? duel_id then f d :: rest
      else d :: db_update duel_id f rest
  end.

(** DELETE of the row with primary key [duel_id]. *)
Fixpoint db_delete (duel_id : Z) (ds : list Duel.t) : list Duel.t :=
  match ds with
  | [] => []
  | d :: rest =>
      if Duel.id d =? duel_id then rest
      else d :: db_delete duel_id rest
  end.

(** The key an INSERT assigns: one more than the largest key in use. *)
Definition next_duel_id (ds : list Duel.t) : Z :=
  1 + fold_right (fun d m => Z.max (Duel.id d) m) 0 ds.

Fixpoint update_user (user_id : Z) (f : User.t -> User.t) (us : list User.t)
  : list User.t :=
  match us with
  | [] => []
  | u :: rest =>
      if User.id u =? user_id then f u :: rest
      else u :: update_user user_id f rest
  end.

(** ** Queries of [DuelService] *)

(** [Duel.status.in_([WAITING, ACTIVE])] *)
Definition open_status (s : DuelStatusEnum) : bool :=
  match s with
  | WAITING | ACTIVE => true
  | COMPLETED => false
  end.

(** The filter of the "already has an active duel" query. *)
Definition engaged (user_id : Z) (d : Duel.t) : bool :=
  ((Duel.challenger_id d =? user_id) || opt_eqb (Duel.opponent_id d) user_id)
  && open_status (Duel.status d).

Definition existing_duel (ds : list Duel.t) (user_id : Z) : option Duel.t :=
  find (engaged user_id) ds.

(** The filter of the peer search in [_attempt_matchmaking]. *)
Definition peer_filter (duel : Duel.t) (d : Duel.t) : bool :=
  status_eqb (Duel.status d) WAITING
  && (Duel.question_id d =? Duel.question_id duel)
  && negb (Duel.challenger_id d =? Duel.challenger_id duel)
  && negb (Duel.id d =? Duel.id duel)
  && match Duel.opponent_id d with None => true | Some _ => false end.

(** The filter of the attempt queries in [submit_solution].  The comparison of
    the two [created_at] columns happens in the database, on stored values;
    a stored value without offset is read as UTC. *)
Definition attempt_filter (user_id question_id : Z) (since : datetime)
  (a : QuestionAttempt.t) : bool :=
  (QuestionAttempt.user_id a =? user_id)
  && (QuestionAttempt.question_id a =? question_id)
  && (instant (assume_utc since)
        <=? instant (assume_utc (QuestionAttempt.created_at a))).

(** [order_by(created_at.desc()).first()]: the newest row; among rows of equal
    [created_at] the one stored first. *)
Fixpoint newest (l : list QuestionAttempt.t) : option QuestionAttempt.t :=
  match l with
  | [] => None
  | a :: rest =>
      match newest rest with
      | None => Some a
      | Some b =>
          if instant (assume_utc (QuestionAttempt.created_at a))
               <? instant (assume_utc (QuestionAttempt.created_at b))
          then Some b else Some a
      end
  end.

Definition latest_attempt (l : list QuestionAttempt.t)
  (user_id question_id : Z) (since : datetime) : option QuestionAttempt.t :=
  newest (filter (attempt_filter user_id question_id since) l).

(** ** Collaborators *)

(** [CodeExecutionResponse.is_correct : Optional[bool]], the judge's verdict. *)
Definition verdict : Type := option bool.

(** What [await self.code_execution_service.execute_code(...)] comes to.  The
    service is injected.  The tests and the demo inject one that returns a
    [CodeExecutionResponse]; the default, the repository's own
    [CodeExecutionService], returns a [dict], on which line 193
    ([execution_result.is_correct]) raises [AttributeError]; and the call
    itself can raise (an [HTTPException] when the execution fails). *)
Inductive execution : Type :=
| Response (is_correct : verdict)
| Dict
| Failure (e : exn).

(** [if execution_result.is_correct:] *)
Definition holds (v : verdict) : bool :=
  match v with
  | Some b => b
  | None => false
  end.

(** The state of the [random] module when a submission is adjudicated: the
    value the next [random.random()] returns and the entropy the next
    [random.randint] draws from. *)
Record Rng : Type := mk_rng {
  random : Q;
  entropy : Z
}.

(** [random.randint(lo, hi)]: an integer of the closed range. *)
Definition randint (g : Rng) (lo hi : Z) : Z :=
  lo + entropy g mod (hi - lo + 1).

Definition Qlt_bool (x y : Q) : bool := negb (Qle_bool y x).

Definition Qmin_bool (x y : Q) : Q := if Qle_bool x y then x else y.

Module DuelResultResponse.
Record t : Type := mk {
  duel_id : Z;
  winner_id : option Z;
  challenger_result : option verdict;
  opponent_result : option verdict;
  xp_awarded : Z;
  completed_at : datetime
}.
End DuelResultResponse.

Record BotResult : Type := mk_bot_result {
  bot_is_correct : bool;
  bot_time_taken : Z
}.

(** ** [GamificationService.award_xp]

    The service works on the session of its caller.  The body of the [try]
    raises when the user's [xp] is NULL ([user.xp += xp_amount] on [None]),
    and when the new total does not fit the column ([self.db.commit()] fails
    to write it); the handler rolls the session back and reports [False]. *)
Definition award_xp (db : Dialect) (s : Session) (user_id xp_amount : Z)
  : bool * Session :=
  match find_user user_id (users (working s)) with
  | None => (false, s)
  | Some user =>
      match User.xp user with
      | None => (false, rollback s)
      | Some old_xp =>
          if storable db (old_xp + xp_amount) then
            let credited :=
              update_user user_id
                (fun u => User.mk (User.id u) (Some (old_xp + xp_amount)))
                (users (working s)) in
            (true, commit {| committed := committed s;
                             working := with_users (working s) credited |})
          else (false, rollback s)
      end
  end.

(** ** [DuelService] *)

Section Engine.

(** The session factory's [autoflush] flag, the [tzinfo] of timestamps the
    database generates, and the database. *)
Variable autoflush : bool.
Variable server_tz : option Z.
Variable db : Dialect.

(** [server_default=func.now()] when the clock reads [clock]. *)
Definition server_now (clock : Z) : datetime :=
  {| wall := clock + match server_tz with Some off => off | None => 0 end;
     tzinfo := server_tz |}.

Definition assign_opponent (opponent : Z) (d : Duel.t) : Duel.t :=
  Duel.mk (Duel.id d) (Duel.challenger_id d) (Some opponent)
    (Duel.question_id d) ACTIVE (Duel.winner_id d) (Duel.created_at d)
    (Duel.completed_at d).

Definition complete (winner : option Z) (at_ : datetime) (d : Duel.t)
  : Duel.t :=
  Duel.mk (Duel.id d) (Duel.challenger_id d) (Duel.opponent_id d)
    (Duel.question_id d) COMPLETED winner (Duel.created_at d) (Some at_).

(** [_assign_bot_opponent]: bot ids are the negated difficulty. *)
Definition _assign_bot_opponent (st : Store) (duel : Duel.t) : option Z :=
  match find_question (Duel.question_id duel) (questions st) with
  | None => None
  | Some question => Some (- Question.difficulty question)
  end.

(** [_attempt_matchmaking] *)
Definition _attempt_matchmaking (st : Store) (clock : Z) (duel_id : Z)
  : bool * Store :=
  match find_duel duel_id (duels st) with
  | None => (false, st)
  | Some duel =>
      if negb (status_eqb (Duel.status duel) WAITING) then (false, st)
      else
        match find (peer_filter duel) (duels st) with
        | Some potential_opponent_duel =>
            let ds :=
              db_update (Duel.id duel)
                (assign_opponent (Duel.challenger_id potential_opponent_duel))
                (duels st) in
            let ds := db_delete (Duel.id potential_opponent_duel) ds in
            (true, with_duels st ds)
        | None =>
            let created_at := assume_utc (Duel.created_at duel) in
            if seconds 30 <? dt_sub (now_utc clock) created_at then
              match _assign_bot_opponent st duel with
              | Some bot_id =>
                  if truthy (Some bot_id) then
                    (true,
                     with_duels st
                       (db_update (Duel.id duel) (assign_opponent bot_id)
                          (duels st)))
                  else (false, st)
              | None => (false, st)
              end
            else (false, st)
        end
  end.

(** [create_duel] *)
Definition create_duel (st : Store) (clock : Z)
  (question_id challenger_id : Z) : outcome Duel.t :=
  match find_question question_id (questions st) with
  | None => Raised (ValueError "Question not found") st
  | Some question =>
      if negb (is_code (Question.type question)) then
        Raised (ValueError "Only code questions can be used for duels") st
      else
        match existing_duel (duels st) challenger_id with
        | Some _ => Raised (ValueError "You already have an active duel") st
        | None =>
            let duel :=
              Duel.mk (next_duel_id (duels st)) challenger_id None
                question_id WAITING None (server_now clock) None in
            let st1 := with_duels st (duels st ++ [duel]) in
            let st2 := snd (_attempt_matchmaking st1 clock (Duel.id duel)) in
            match find_duel (Duel.id duel) (duels st2) with
            | Some refreshed => Returned refreshed st2
            | None => Returned duel st2
            end
        end
  end.

(** [join_duel] *)
Definition join_duel (st : Store) (duel_id user_id : Z) : outcome Duel.t :=
  match find_duel duel_id (duels st) with
  | None => Raised (ValueError "Duel not found") st
  | Some duel =>
      if negb (status_eqb (Duel.status duel) WAITING) then
        Raised (ValueError "Duel is not available for joining") st
      else if Duel.challenger_id duel =? user_id then
        Raised (ValueError "Cannot join your own duel") st
      else
        match Duel.opponent_id duel with
        | Some _ => Raised (ValueError "Duel already has an opponent") st
        | None =>
            match existing_duel (duels st) user_id with
            | Some _ =>
                Raised (ValueError "You already have an active duel") st
            | None =>
                let joined := assign_opponent user_id duel in
                Returned joined
                  (with_duels st
                     (db_update (Duel.id duel) (assign_opponent user_id)
                        (duels st)))
            end
        end
  end.

(** [_simulate_bot_solution].  The success rates are binary floating-point
    numbers in the source and exact rationals here. *)
Definition success_rates (difficulty : Z) : Q :=
  match difficulty with
  | 1 => 3 # 10
  | 2 => 5 # 10
  | 3 => 7 # 10
  | 4 => 85 # 100
  | 5 => 95 # 100
  | _ => 5 # 10
  end.

Definition base_times (difficulty : Z) : Z :=
  match difficulty with
  | 1 => 15
  | 2 => 12
  | 3 => 8
  | 4 => 5
  | 5 => 3
  | _ => 10
  end.

Definition _simulate_bot_solution (g : Rng) (bot_id : Z)
  (user_is_correct : verdict) : BotResult :=
  let difficulty := Z.abs bot_id in
  let success_rate := success_rates difficulty in
  let success_rate :=
    if negb (holds user_is_correct)
    then Qmin_bool (success_rate + (2 # 10))%Q (95 # 100)
    else success_rate in
  let is_correct := Qlt_bool (random g) success_rate in
  let base_time := base_times difficulty in
  let time_taken := base_time + randint g (-2) 3 in
  let time_taken := Z.max 1 time_taken in
  {| bot_is_correct := is_correct; bot_time_taken := time_taken |}.

(** [not attempt or not attempt.is_correct] *)
Definition absent_or_incorrect (a : option QuestionAttempt.t) : bool :=
  match a with
  | None => true
  | Some a => negb (QuestionAttempt.is_correct a)
  end.

(** Lines 221-228 of [submit_solution]: the first correct solution wins. *)
Definition first_correct (v : verdict) (user_id : Z) (duel : Duel.t)
  (challenger_attempt opponent_attempt : option QuestionAttempt.t)
  : option Z :=
  if holds v then
    if user_id =? Duel.challenger_id duel then
      if absent_or_incorrect opponent_attempt then Some user_id else None
    else
      if absent_or_incorrect challenger_attempt then Some user_id else None
  else None.

(** [duel.opponent_id and duel.opponent_id < 0] *)
Definition is_bot (opponent_id : option Z) : bool :=
  match opponent_id with
  | Some o => negb (o =? 0) && (o <? 0)
  | None => false
  end.

(** [duel.opponent_id and duel.opponent_id > 0] *)
Definition is_human (opponent_id : option Z) : bool :=
  match opponent_id with
  | Some o => negb (o =? 0) && (0 <? o)
  | None => false
  end.

(** Lines 230-242 of [submit_solution]: the bot's simulated outcome. *)
Definition against_bot (g : Rng) (v : verdict) (user_id time_taken : Z)
  (duel : Duel.t) (winner_id : option Z) : option Z :=
  match Duel.opponent_id duel with
  | Some bot_id =>
      if is_bot (Some bot_id) then
        let bot_result := _simulate_bot_solution g bot_id v in
        if holds v && negb (bot_is_correct bot_result) then Some user_id
        else if negb (holds v) && bot_is_correct bot_result then Some bot_id
        else if holds v && bot_is_correct bot_result then
          if time_taken <? bot_time_taken bot_result then Some user_id
          else Some bot_id
        else winner_id
      else winner_id
  | None => winner_id
  end.

(** The condition of line 245:
    [winner_id or (challenger_attempt and (opponent_attempt or
    duel.opponent_id < 0))].  Comparing [None] with [0] raises. *)
Definition completes (winner_id : option Z)
  (challenger_attempt opponent_attempt : option QuestionAttempt.t)
  (opponent_id : option Z) : exn + bool :=
  if truthy winner_id then inr true
  else
    match challenger_attempt with
    | None => inr false
    | Some _ =>
        match opponent_attempt with
        | Some _ => inr true
        | None =>
            match opponent_id with
            | Some o => inr (o <? 0)
            | None =>
                inl (TypeError
                       "'<' not supported between instances of 'NoneType' and 'int'")
            end
        end
    end.

(** [float(n)], the conversion [base_xp * 0.5] applies to its left operand:
    the nearest binary64 number, ties going to the even significand.  An
    integer of at most 53 bits is kept; a longer one loses its low bits.
    (The conversion raises from 2^1024 on, far beyond what an [Integer]
    column holds; that case is left out.) *)
Definition float_of_int (n : Z) : Z :=
  let m := Z.abs n in
  let shift := Z.log2 m + 1 - 53 in
  if shift <=? 0 then n
  else
    let q := Z.shiftr m shift in
    let r := Z.land m (Z.ones shift) in
    let half := Z.shiftl 1 (shift - 1) in
    let q := if (half <? r) || ((r =? half) && Z.odd q) then q + 1 else q in
    Z.sgn n * Z.shiftl q shift.

(** [int(base_xp * 0.5)]: the product by 0.5 is exact on a binary64 number,
    and [int] truncates towards zero. *)
Definition bonus_xp (base_xp : Z) : Z := Z.quot (float_of_int base_xp) 2.

(** The attempt row lines 188-196 add to the session; its [created_at] is
    the server default. *)
Definition new_attempt (question : Question.t) (judge : verdict)
  (user_id time_taken clock : Z) : QuestionAttempt.t :=
  QuestionAttempt.mk user_id (Question.id question) (holds judge) time_taken
    (server_now clock).

(** The attempt rows a query of the session sees once [attempt] is pending:
    an autoflushing session writes it out before it queries. *)
Definition seen_attempts (st : Store) (attempt : QuestionAttempt.t)
  : list QuestionAttempt.t :=
  if autoflush then attempts st ++ [attempt] else attempts st.

(** Lines 198-205 and 207-215: each side's newest attempt at the duel's
    question since the duel was created. *)
Definition challenger_attempt_of (seen : list QuestionAttempt.t)
  (duel : Duel.t) : option QuestionAttempt.t :=
  latest_attempt seen (Duel.challenger_id duel) (Duel.question_id duel)
    (Duel.created_at duel).

Definition opponent_attempt_of (seen : list QuestionAttempt.t)
  (duel : Duel.t) : option QuestionAttempt.t :=
  match Duel.opponent_id duel with
  | Some o =>
      if is_human (Some o) then
        latest_attempt seen o (Duel.question_id duel) (Duel.created_at duel)
      else None
  | None => None
  end.

(** Lines 246-255: the duel is completed in the session and the winner, when
    human, is credited. *)
Definition complete_and_reward (s : Session) (clock : Z) (duel : Duel.t)
  (question : Question.t) (winner_id : option Z) : Z * Session :=
  let s :=
    {| committed := committed s;
       working :=
         with_duels (working s)
           (db_update (Duel.id duel) (complete winner_id (now_utc clock))
              (duels (working s))) |} in
  match winner_id with
  | Some w =>
      if negb (w =? 0) && (0 <? w) then
        let base_xp := Question.xp_reward question in
        let xp_awarded := base_xp + bonus_xp base_xp in
        (xp_awarded, snd (award_xp db s w xp_awarded))
      else (0, s)
  | None => (0, s)
  end.

(** Line 196: the session once the attempt is added to it. *)
Definition pending (st : Store) (attempt : QuestionAttempt.t) : Session :=
  {| committed := st;
     working := with_attempts st (attempts st ++ [attempt]) |}.

(** Lines 217-242: the winner this submission determines, if any. *)
Definition determine_winner (st : Store) (clock : Z) (g : Rng)
  (judge : verdict) (user_id time_taken : Z) (duel : Duel.t)
  (question : Question.t) : option Z :=
  let seen :=
    seen_attempts st (new_attempt question judge user_id time_taken clock) in
  let winner_id :=
    first_correct judge user_id duel (challenger_attempt_of seen duel)
      (opponent_attempt_of seen duel) in
  against_bot g judge user_id time_taken duel winner_id.

(** Lines 259-267: the response, read off the duel as the session holds it
    after the final commit. *)
Definition respond (final : Store) (clock : Z) (judge : verdict)
  (duel_id user_id : Z) (duel : Duel.t) (winner_id : option Z)
  (xp_awarded : Z) : DuelResultResponse.t :=
  let duel :=
    match find_duel duel_id (duels final) with
    | Some reloaded => reloaded
    | None => duel
    end in
  {| DuelResultResponse.duel_id := Duel.id duel;
     DuelResultResponse.winner_id := winner_id;
     DuelResultResponse.challenger_result :=
       if user_id =? Duel.challenger_id duel then Some judge else None;
     DuelResultResponse.opponent_result :=
       if opt_eqb (Duel.opponent_id duel) user_id then Some judge else None;
     DuelResultResponse.xp_awarded :=
       if opt_eqb winner_id user_id then xp_awarded else 0;
     DuelResultResponse.completed_at :=
       match Duel.completed_at duel with
       | Some t => t
       | None => now_utc clock
       end |}.

(** [submit_solution]; [run] is what the call of the execution service at
    lines 181-185 comes to. *)
Definition submit_solution (st : Store) (clock : Z) (g : Rng)
  (run : execution) (duel_id user_id time_taken : Z)
  : outcome DuelResultResponse.t :=
  match find_duel duel_id (duels st) with
  | None => Raised (ValueError "Duel not found") st
  | Some duel =>
      if negb (status_eqb (Duel.status duel) ACTIVE) then
        Raised (ValueError "Duel is not active") st
      else if negb (Duel.challenger_id duel =? user_id)
              && negb (opt_eqb (Duel.opponent_id duel) user_id) then
        Raised (ValueError "You are not a participant in this duel") st
      else if status_eqb (Duel.status duel) COMPLETED then
        Raised (ValueError "Duel is already completed") st
      else
        match find_question (Duel.question_id duel) (questions st) with
        | None => Raised (ValueError "Question not found") st
        | Some question =>
            match run with
            | Failure e => Raised e st
            | Dict =>
                Raised
                  (AttributeError "'dict' object has no attribute 'is_correct'")
                  st
            | Response judge =>
                let attempt :=
                  new_attempt question judge user_id time_taken clock in
                let s := pending st attempt in
                let seen := seen_attempts st attempt in
                let winner_id :=
                  determine_winner st clock g judge user_id time_taken duel
                    question in
                match completes winner_id (challenger_attempt_of seen duel)
                        (opponent_attempt_of seen duel)
                        (Duel.opponent_id duel) with
                | inl e => Raised e (committed s)
                | inr finished =>
                    let result :=
                      if finished
                      then complete_and_reward s clock duel question winner_id
                      else (0, s) in
                    let s := commit (snd result) in
                    Returned
                      (respond (committed s) clock judge duel_id user_id duel
                         winner_id (fst result))
                      (committed s)
                end
            end
        end
  end.

(** [cleanup_old_duels] *)
Definition is_old (cutoff_time : datetime) (duel : Duel.t) : bool :=
  dt_ltb (assume_utc (Duel.created_at duel)) cutoff_time.

Definition cleanup_old_duels (st : Store) (clock : Z) : Z * Store :=
  let cutoff_time := minus_delta (now_utc clock) (minutes 5) in
  let waiting_duels :=
    filter (fun d => status_eqb (Duel.status d) WAITING) (duels st) in
  let old_duels := filter (is_old cutoff_time) waiting_duels in
  let count := Z.of_nat (List.length old_duels) in
  let ds :=
    fold_left (fun ds duel => db_delete (Duel.id duel) ds) old_duels
      (duels st) in
  (count, with_duels st ds).

End Engine.

(** ** Vocabulary of the properties *)

(** The duels that count against a participant's exclusivity. *)
Definition open_duels_of (participant : Z) (st : Store) : list Duel.t :=
  filter (engaged participant) (duels st).

(** Difficulties are tiers 1 to 5 ([QuestionCreate.validate_difficulty]). *)
Definition tiers_valid (st : Store) : Prop :=
  Forall (fun q => 1 <= Question.difficulty q <= 5) (questions st).

(** Primary keys of the duel table are unique. *)
Definition keys_unique (st : Store) : Prop :=
  NoDup (map Duel.id (duels st)).

(** The reading of a stored timestamp as an instant, one without offset being
    taken as UTC. *)
Definition utc_instant (d : datetime) : Z :=
  match tzinfo d with
  | None => wall d
  | Some off => wall d - off
  end.

(** Age of a duel when the clock reads [clock]. *)
Definition age (clock : Z) (d : Duel.t) : Z :=
  clock - utc_instant (Duel.created_at d).

(** A WAITING duel older than five minutes. *)
Definition expired (clock : Z) (d : Duel.t) : bool :=
  status_eqb (Duel.status d) WAITING && (minutes 5 <? age clock d).

(** [user.xp += xp_amount] raises inside the ledger's [try] for this user:
    the [xp] is NULL. *)
Definition ledger_raises (st : Store) (user_id : Z) : bool :=
  match find_user user_id (users st) with
  | Some u => match User.xp u with None => true | Some _ => false end
  | None => false
  end.

(** The commit inside the ledger's [try] raises for this user and amount: the
    new total does not fit the column. *)
Definition commit_raises (db : Dialect) (st : Store) (user_id amount : Z)
  : bool :=
  match find_user user_id (users st) with
  | Some u =>
      match User.xp u with
      | Some old_xp => negb (storable db (old_xp + amount))
      | None => false
      end
  | None => false
  end.

(** The ledger's [try] raises, one way or the other, and its handler rolls
    the session back. *)
Definition credit_fails (db : Dialect) (st : Store) (user_id amount : Z)
  : bool :=
  ledger_raises st user_id || commit_raises db st user_id amount.

(** Exclusivity: a human participant is engaged in at most one duel that is
    WAITING or ACTIVE. *)
Definition exclusive (st : Store) : Prop :=
  forall participant,
    0 < participant ->
    (List.length (open_duels_of participant st) <= 1)%nat.

(** What the engine maintains. *)
Definition invariant (st : Store) : Prop :=
  keys_unique st /\ tiers_valid st /\ exclusive st.

(** Stores the engine can reach from an empty duel table.  Other services
    change the other tables and never the duels. *)
Section Reachability.

Variable autoflush : bool.
Variable server_tz : option Z.
Variable db : Dialect.

Inductive reachable : Store -> Prop :=
| reach_init st :
    duels st = [] -> tiers_valid st -> reachable st
| reach_create st clock question_id challenger_id :
    reachable st ->
    reachable
      (store_after (create_duel server_tz st clock question_id challenger_id))
| reach_join st duel_id user_id :
    reachable st ->
    reachable (store_after (join_duel st duel_id user_id))
| reach_match st clock duel_id :
    reachable st ->
    reachable (snd (_attempt_matchmaking st clock duel_id))
| reach_submit st clock g run duel_id user_id time_taken :
    reachable st ->
    reachable
      (store_after
         (submit_solution autoflush server_tz db st clock g run duel_id
            user_id time_taken))
| reach_cleanup st clock :
    reachable st ->
    reachable (snd (cleanup_old_duels st clock))
| reach_other st st' :
    reachable st ->
    duels st' = duels st -> tiers_valid st' ->
    reachable st'.

End Reachability.

(** ** Sample data *)

Module Sample.

Definition alice : Z := 1.
Definition bob : Z := 2.
Definition carol : Z := 3.

(** A code question of difficulty 3 worth 30 XP. *)
Definition loops : Question.t := Question.mk 1 CODE 3 30.

(** Carol's [xp] is NULL. *)
Definition accounts : list User.t :=
  [User.mk alice (Some 100); User.mk bob (Some 150); User.mk carol None].

Definition empty : Store :=
  {| duels := []; attempts := []; users := accounts; questions := [loops] |}.

Definition epoch : datetime := {| wall := 0; tzinfo := None |}.

Definition duel_row (opponent : option Z) (s : DuelStatusEnum)
  (winner : option Z) (finished : option datetime) : Duel.t :=
  Duel.mk 1 alice opponent 1 s winner epoch finished.

Definition with_duel (d : Duel.t) (l : list QuestionAttempt.t) : Store :=
  {| duels := [d]; attempts := l; users := accounts; questions := [loops] |}.

(** Alice waits alone. *)
Definition waiting : Store := with_duel (duel_row None WAITING None None) [].

(** Alice against the tier-3 bot. *)
Definition versus_bot : Store :=
  with_duel (duel_row (Some (-3)) ACTIVE None None) [].



Definition wrong (who at_ : Z) : QuestionAttempt.t :=
  QuestionAttempt.mk who 1 false 5 {| wall := at_; tzinfo := None |}.

(** Both sides have a wrong attempt on record. *)
Definition both_wrong : Store :=
  with_duel (duel_row (Some bob) ACTIVE None None)
    [wrong alice (seconds 10); wrong bob (seconds 20)].


(** Carol (NULL [xp]) against Bob. *)
Definition carol_vs_bob : Store :=
  with_duel (Duel.mk 1 carol (Some bob) 1 ACTIVE None epoch None) [].

(** Carol against Bob, whose only attempt was wrong. *)
Definition carol_after_miss : Store :=
  with_duel (Duel.mk 1 carol (Some bob) 1 ACTIVE None epoch None)
    [wrong bob (seconds 10)].

(** Erin, whose XP is 40 short of what SQLite holds, against Bob. *)
Definition erin : Z := 5.
Definition erin_vs_bob : Store :=
  {| duels := [Duel.mk 1 erin (Some bob) 1 ACTIVE None epoch None];
     attempts := [];
     users := accounts ++ [User.mk erin (Some (2 ^ 63 - 40))];
     questions := [loops] |}.

(** Dave, who has no user row, against Bob. *)
Definition dave : Z := 4.
Definition dave_vs_bob : Store :=
  with_duel (Duel.mk 1 dave (Some bob) 1 ACTIVE None epoch None) [].

(** A question worth 2^54 + 2 XP, and Alice against the tier-3 bot on it. *)
Definition jackpot : Question.t := Question.mk 2 CODE 3 (2 ^ 54 + 2).
Definition jackpot_duel : Store :=
  {| duels := [Duel.mk 1 alice (Some (-3)) 2 ACTIVE None epoch None];
     attempts := []; users := accounts; questions := [loops; jackpot] |}.

(** A lobby: Alice has waited ten minutes, Bob two, Carol plays a bot. *)
Definition lobby : Store :=
  {| duels :=
       [Duel.mk 1 alice None 1 WAITING None epoch None;
        Duel.mk 2 bob None 1 WAITING None
          {| wall := minutes 8; tzinfo := None |} None;
        Duel.mk 3 carol (Some (-3)) 1 ACTIVE None epoch None];
     attempts := []; users := accounts; questions := [loops] |}.

(** A generator whose bot misses / hits and answers in 8 seconds. *)
Definition bot_misses : Rng := {| random := 99 # 100; entropy := 2 |}.
Definition bot_hits : Rng := {| random := 0; entropy := 2 |}.

(** Alice answers correctly against a bot that misses. *)
Definition alice_wins : outcome DuelResultResponse.t :=
  submit_solution true None SQLite versus_bot (seconds 40) bot_misses
    (Response (Some true)) 1 alice 5.

Definition alice_wins_reply : DuelResultResponse.t :=
  Eval vm_compute in
    match alice_wins with
    | Returned r _ => r
    | Raised _ _ => DuelResultResponse.mk 0 None None None 0 epoch
    end.

End Sample.

(** ** Bot profiles and listings of [DuelService] *)

Module BotOpponentResponse.
Record t : Type := mk {
  id : Z;
  username : string;
  difficulty_level : Z;
  response_time_ms : Z
}.
End BotOpponentResponse.

(** The dictionaries of [_get_bot_info]; [None] is a missing key. *)
Definition bot_names (difficulty : Z) : option string :=
  match difficulty with
  | 1 => Some "CodeBot Novice"
  | 2 => Some "CodeBot Junior"
  | 3 => Some "CodeBot Expert"
  | 4 => Some "CodeBot Master"
  | 5 => Some "CodeBot Grandmaster"
  | _ => None
  end.

Definition response_times (difficulty : Z) : option Z :=
  match difficulty with
  | 1 => Some 15000
  | 2 => Some 12000
  | 3 => Some 8000
  | 4 => Some 5000
  | 5 => Some 3000
  | _ => None
  end.

(** An integer inside an f-string. *)
Definition str (n : Z) : string := NilZero.string_of_int (Z.to_int n).

(** [_get_bot_info] *)
Definition _get_bot_info (bot_id : Z) : BotOpponentResponse.t :=
  let difficulty := Z.abs bot_id in
  {| BotOpponentResponse.id := bot_id;
     BotOpponentResponse.username :=
       match bot_names difficulty with
       | Some name => name
       | None => "CodeBot Level " ++ str difficulty
       end;
     BotOpponentResponse.difficulty_level := difficulty;
     BotOpponentResponse.response_time_ms :=
       match response_times difficulty with
       | Some t => t
       | None => 10000
       end |}.

Module DuelListResponse.
Record t : Type := mk {
  id : Z;
  challenger_id : Z;
  challenger_username : string;
  opponent_id : option Z;
  opponent_username : option string;
  status : string;
  question_id : Z;
  question_text : string;
  created_at : datetime;
  is_bot_opponent : bool
}.
End DuelListResponse.

(** [DuelStatusEnum.value] *)
Definition status_value (s : DuelStatusEnum) : string :=
  match s with
  | WAITING => "waiting"
  | ACTIVE => "active"
  | COMPLETED => "completed"
  end.

(** The value [order_by(Duel.created_at...)] sorts on: the stored timestamp,
    one without offset read as UTC. *)
Definition sort_key (d : Duel.t) : Z := instant (assume_utc (Duel.created_at d)).

(** [order_by(Duel.created_at.desc())]: newest first, rows of equal
    [created_at] in table order. *)
Fixpoint insert_newest (d : Duel.t) (l : list Duel.t) : list Duel.t :=
  match l with
  | [] => [d]
  | x :: rest =>
      if sort_key x <=? sort_key d then d :: x :: rest
      else x :: insert_newest d rest
  end.

Definition newest_first (l : list Duel.t) : list Duel.t :=
  fold_right insert_newest [] l.

Section Listings.

Variable db : Dialect.

(** The [username] column of [users] and the [question_text] column of
    [questions], which the tables above leave out, by primary key. *)
Variable username : Z -> string.
Variable question_text : Z -> string.

(** [challenger.username if challenger else "Unknown"] *)
Definition username_or_unknown (st : Store) (user_id : Z) : string :=
  match find_user user_id (users st) with
  | Some user => username (User.id user)
  | None => "Unknown"
  end.

(** [question.question_text if question else "Unknown"] *)
Definition question_text_or_unknown (st : Store) (question_id : Z) : string :=
  match find_question question_id (questions st) with
  | Some question => question_text (Question.id question)
  | None => "Unknown"
  end.

(** The filter of [get_available_duels]. *)
Definition available_to (user_id : Z) (d : Duel.t) : bool :=
  status_eqb (Duel.status d) WAITING
  && negb (Duel.challenger_id d =? user_id)
  && match Duel.opponent_id d with None => true | Some _ => false end.

(** The entry [get_available_duels] builds of a row. *)
Definition available_entry (st : Store) (duel : Duel.t) : DuelListResponse.t :=
  {| DuelListResponse.id := Duel.id duel;
     DuelListResponse.challenger_id := Duel.challenger_id duel;
     DuelListResponse.challenger_username :=
       username_or_unknown st (Duel.challenger_id duel);
     DuelListResponse.opponent_id := None;
     DuelListResponse.opponent_username := None;
     DuelListResponse.status := status_value (Duel.status duel);
     DuelListResponse.question_id := Duel.question_id duel;
     DuelListResponse.question_text :=
       question_text_or_unknown st (Duel.question_id duel);
     DuelListResponse.created_at := Duel.created_at duel;
     DuelListResponse.is_bot_opponent := false |}.

(** [get_available_duels]; [None] when the query raises. *)
Definition get_available_duels (st : Store) (user_id limit : Z)
  : option (list DuelListResponse.t) :=
  match
    sql_limit db limit
      (newest_first (filter (available_to user_id) (duels st)))
  with
  | Some duels => Some (map (available_entry st) duels)
  | None => None
  end.

(** The filter of [get_user_duels]. *)
Definition involves (user_id : Z) (d : Duel.t) : bool :=
  (Duel.challenger_id d =? user_id) || opt_eqb (Duel.opponent_id d) user_id.

(** Lines 311-321: the opponent's name and whether it is a bot. *)
Definition opponent_info (st : Store) (opponent_id : option Z)
  : option string * bool :=
  match opponent_id with
  | Some o =>
      if negb (o =? 0) then
        if o <? 0 then
          (Some (BotOpponentResponse.username (_get_bot_info o)), true)
        else (Some (username_or_unknown st o), false)
      else (None, false)
  | None => (None, false)
  end.

(** The entry [get_user_duels] builds of a row. *)
Definition history_entry (st : Store) (duel : Duel.t) : DuelListResponse.t :=
  let info := opponent_info st (Duel.opponent_id duel) in
  {| DuelListResponse.id := Duel.id duel;
     DuelListResponse.challenger_id := Duel.challenger_id duel;
     DuelListResponse.challenger_username :=
       username_or_unknown st (Duel.challenger_id duel);
     DuelListResponse.opponent_id := Duel.opponent_id duel;
     DuelListResponse.opponent_username := fst info;
     DuelListResponse.status := status_value (Duel.status duel);
     DuelListResponse.question_id := Duel.question_id duel;
     DuelListResponse.question_text :=
       question_text_or_unknown st (Duel.question_id duel);
     DuelListResponse.created_at := Duel.created_at duel;
     DuelListResponse.is_bot_opponent := snd info |}.

(** [get_user_duels]; [None] when the query raises. *)
Definition get_user_duels (st : Store) (user_id limit : Z)
  : option (list DuelListResponse.t) :=
  match
    sql_limit db limit (newest_first (filter (involves user_id) (duels st)))
  with
  | Some duels => Some (map (history_entry st) duels)
  | None => None
  end.

(** [_get_username] *)
Definition _get_username (st : Store) (user_id : Z) : option string :=
  if user_id <? 0 then
    Some (BotOpponentResponse.username (_get_bot_info user_id))
  else
    match find_user user_id (users st) with
    | Some user => Some (username (User.id user))
    | None => None
    end.

End Listings.

(** Newest first, on rows and on listing entries. *)
Definition not_older (a b : Duel.t) : Prop := sort_key b <= sort_key a.

Definition listed_not_older (a b : DuelListResponse.t) : Prop :=
  instant (assume_utc (DuelListResponse.created_at b))
  <= instant (assume_utc (DuelListResponse.created_at a)).

(** ** [GamificationService._calculate_streak] *)

Record StreakInfo : Type := mk_streak {
  new_streak : Z;
  streak_maintained : bool;
  streak_broken : bool
}.

(** One day in microseconds. *)
Definition day : Z := seconds 86400.

(** [timedelta.days]: whole days, rounded towards minus infinity. *)
Definition days_of (delta : Z) : Z := delta / day.

(** [_calculate_streak]; both datetimes carry an offset when it is called
    ([update_user_activity] reads a naive [last_activity] as UTC first). *)
Definition _calculate_streak (last_activity : option datetime)
  (current_time : datetime) (current_streak : Z) : StreakInfo :=
  match last_activity with
  | None =>
      {| new_streak := 1; streak_maintained := true; streak_broken := false |}
  | Some last =>
      let time_diff := dt_sub current_time last in
      let days_since_activity := days_of time_diff in
      if days_since_activity =? 0 then
        {| new_streak := current_streak; streak_maintained := true;
           streak_broken := false |}
      else if days_since_activity =? 1 then
        {| new_streak := current_streak + 1; streak_maintained := true;
           streak_broken := false |}
      else
        {| new_streak := 1; streak_maintained := false;
           streak_broken := true |}
  end.

(** ** Steps of the engine and the shape of its rows *)

Section Steps.

Variable autoflush : bool.
Variable server_tz : option Z.
Variable db : Dialect.

(** One call of an operation of the engine. *)
Inductive engine_step : Store -> Store -> Prop :=
| step_create st clock question_id challenger_id :
    engine_step st
      (store_after (create_duel server_tz st clock question_id challenger_id))
| step_join st duel_id user_id :
    engine_step st (store_after (join_duel st duel_id user_id))
| step_match st clock duel_id :
    engine_step st (snd (_attempt_matchmaking st clock duel_id))
| step_submit st clock g run duel_id user_id time_taken :
    engine_step st
      (store_after
         (submit_solution autoflush server_tz db st clock g run duel_id
            user_id time_taken))
| step_cleanup st clock :
    engine_step st (snd (cleanup_old_duels st clock)).

End Steps.

(** The shape of a duel row: the opponent is absent exactly while WAITING,
    [completed_at] is present exactly when COMPLETED, a winner is recorded
    only on a COMPLETED duel and is one of its two sides, and a human
    challenger is not their own opponent. *)
Definition lifecycle (d : Duel.t) : Prop :=
  (Duel.status d = WAITING <-> Duel.opponent_id d = None)
  /\ (Duel.status d = COMPLETED <-> Duel.completed_at d <> None)
  /\ (Duel.winner_id d <> None -> Duel.status d = COMPLETED)
  /\ (forall w, Duel.winner_id d = Some w ->
        Duel.challenger_id d = w \/ Duel.opponent_id d = Some w)
  /\ (0 < Duel.challenger_id d ->
      Duel.opponent_id d <> Some (Duel.challenger_id d)).

(** ** Totals *)

(** The XP of a user row, a NULL counting for nothing, and the XP of a table. *)
Definition xp_or_zero (u : User.t) : Z :=
  match User.xp u with
  | Some x => x
  | None => 0
  end.

Definition total_xp (us : list User.t) : Z :=
  fold_right (fun u acc => xp_or_zero u + acc) 0 us.

(** A session with nothing pending. *)
Definition idle (st : Store) : Session := {| committed := st; working := st |}.

(** ** A sample run of the engine *)

Module Tour.

(** Alice creates a duel on the sample question. *)
Definition created : Store :=
  store_after (create_duel None Sample.empty 0 1 Sample.alice).

(** Bob joins it. *)
Definition joined : Store := store_after (join_duel created 1 Sample.bob).

(** Alice answers correctly 40 seconds in. *)
Definition played : Store :=
  store_after
    (submit_solution true None SQLite joined (seconds 40) Sample.bot_hits
       (Response (Some true)) 1 Sample.alice 5).

(** The row of the decided duel. *)
Definition final_row : Duel.t :=
  Duel.mk 1 Sample.alice (Some Sample.bob) 1 COMPLETED (Some Sample.alice)
    Sample.epoch (Some (now_utc (seconds 40))).

(** Alice and Bob both create a duel on the sample question: Bob's creation
    finds Alice's waiting duel. *)
Definition paired : Store :=
  store_after (create_duel None created (seconds 5) 1 Sample.bob).

(** An activity at 23:00 and the next one at 01:00 the day after. *)
Definition late_evening : datetime := now_utc (seconds (23 * 3600)).
Definition after_midnight : datetime := now_utc (seconds (25 * 3600)).

(** Alice's duel gets the tier-3 bot after the grace period; a minute in, Bob
    creates a duel on the same question, which gets the same bot in turn. *)
Definition alice_vs_bot : Store :=
  snd (_attempt_matchmaking created (seconds 31) 1).

Definition bob_waits : Store :=
  store_after (create_duel None alice_vs_bot (seconds 60) 1 Sample.bob).

Definition two_bot_duels : Store :=
  snd (_attempt_matchmaking bob_waits (seconds 91) 2).

(** The [username] and [question_text] columns of the sample rows. *)
Definition names (user_id : Z) : string :=
  match user_id with
  | 1 => "alice"
  | 2 => "bob"
  | _ => "carol"
  end.

Definition texts (question_id : Z) : string := "Print the numbers 1 to 5".

(** What Bob sees of Alice's waiting duel. *)
Definition alice_listed : DuelListResponse.t :=
  DuelListResponse.mk 1 Sample.alice "alice" None None "waiting" 1
    "Print the numbers 1 to 5" Sample.epoch false.

(** A duel set ACTIVE without an opponent (as a test fixture does), with a
    wrong attempt of Alice on record. *)
Definition lonely : Store :=
  Sample.with_duel (Sample.duel_row None ACTIVE None None)
    [Sample.wrong Sample.alice (seconds 10)].

End Tour.

(** * Properties *)

(** ** Tables *)

Lemma status_eqb_eq (a b : DuelStatusEnum) : status_eqb a b = true <-> a = b.
Proof. destruct a, b; simpl; split; congruence. Qed.

Lemma find_duel_id (duel_id : Z) (ds : list Duel.t) (d : Duel.t) :
  find_duel duel_id ds = Some d -> Duel.id d = duel_id.
Proof.
  unfold find_duel. intros H. apply find_some in H. destruct H as [_ H].
  now apply Z.eqb_eq.
Qed.

(** The row an UPDATE by key touches is the row a lookup by key returns. *)
Lemma find_duel_db_update (duel_id : Z) (f : Duel.t -> Duel.t)
  (ds : list Duel.t) (d : Duel.t) :
  find_duel duel_id ds = Some d ->
  Duel.id (f d) = Duel.id d ->
  find_duel duel_id (db_update duel_id f ds) = Some (f d).
Proof.
  unfold find_duel. induction ds as [|x rest IH]; simpl; [discriminate|].
  destruct (Duel.id x =? duel_id) eqn:E; intros H Hid.
  - injection H as ->. simpl. rewrite Hid, E. reflexivity.
  - simpl. rewrite E. auto.
Qed.

Lemma find_duel_db_update_other (k duel_id : Z) (f : Duel.t -> Duel.t)
  (ds : list Duel.t) :
  k <> duel_id ->
  (forall d, Duel.id (f d) = Duel.id d) ->
  find_duel k (db_update duel_id f ds) = find_duel k ds.
Proof.
  intros Hk Hf. unfold find_duel.
  induction ds as [|x rest IH]; simpl; [reflexivity|].
  destruct (Duel.id x =? duel_id) eqn:E; simpl.
  - rewrite Hf. apply Z.eqb_eq in E.
    destruct (Duel.id x =? k) eqn:E'; [apply Z.eqb_eq in E'; lia | reflexivity].
  - now rewrite IH.
Qed.

(** ** Submissions against a duel that is not ACTIVE *)



(** ** Bot fallback of the matchmaker *)

Lemma instant_assume_utc (d : datetime) :
  instant (assume_utc d) = utc_instant d.
Proof.
  unfold instant, assume_utc, utc_instant.
  destruct (tzinfo d) eqn:E; simpl; rewrite ?E; lia.
Qed.

(** C6. For a WAITING duel for which the peer search finds nothing, on a
    question of difficulty 1 to 5: once the duel is older than 30 seconds
    [_attempt_matchmaking] returns [True], the duel's opponent becomes the bot
    whose id is the negated difficulty and its status ACTIVE; up to 30 seconds
    it returns [False] and the store is unchanged. *)
Theorem bot_after_grace_period
  (st : Store) (clock duel_id : Z) (duel : Duel.t) (question : Question.t) :
  find_duel duel_id (duels st) = Some duel ->
  Duel.status duel = WAITING ->
  find (peer_filter duel) (duels st) = None ->
  find_question (Duel.question_id duel) (questions st) = Some question ->
  1 <= Question.difficulty question <= 5 ->
  (seconds 30 < age clock duel ->
   exists st',
     _attempt_matchmaking st clock duel_id = (true, st')
     /\ st' = with_duels st
                (db_update duel_id
                   (assign_opponent (- Question.difficulty question))
                   (duels st))
     /\ exists duel',
          find_duel duel_id (duels st') = Some duel'
          /\ Duel.opponent_id duel' = Some (- Question.difficulty question)
          /\ Duel.status duel' = ACTIVE
          /\ Duel.challenger_id duel' = Duel.challenger_id duel
          /\ Duel.question_id duel' = Duel.question_id duel
          /\ Duel.winner_id duel' = Duel.winner_id duel
          /\ Duel.created_at duel' = Duel.created_at duel)
  /\ (age clock duel <= seconds 30 ->
      _attempt_matchmaking st clock duel_id = (false, st)).
Proof.
  intros Hfind Hstatus Hpeer Hq Hdiff.
  pose proof (find_duel_id _ _ _ Hfind) as Hid.
  assert (Hage : dt_sub (now_utc clock) (assume_utc (Duel.created_at duel))
                 = age clock duel).
  { unfold dt_sub, age. rewrite instant_assume_utc.
    unfold instant, now_utc. simpl. lia. }
  split.
  - intros Hold. eexists. split; [|split; [reflexivity|]].
    + unfold _attempt_matchmaking. rewrite Hfind, Hstatus. simpl.
      rewrite Hpeer, Hage.
      replace (seconds 30 <? age clock duel) with true
        by (symmetry; apply Z.ltb_lt; exact Hold).
      unfold _assign_bot_opponent. rewrite Hq. unfold truthy.
      destruct (Z.eqb_spec (- Question.difficulty question) 0) as [|_];
        [lia|]. simpl. rewrite Hid. reflexivity.
    + exists (assign_opponent (- Question.difficulty question) duel).
      split; [|repeat split].
      simpl. apply find_duel_db_update; [exact Hfind | reflexivity].
  - intros Hyoung. unfold _attempt_matchmaking.
    rewrite Hfind, Hstatus. simpl. rewrite Hpeer, Hage.
    replace (seconds 30 <? age clock duel) with false
      by (symmetry; apply Z.ltb_ge; exact Hyoung).
    reflexivity.
Qed.

Lemma bot_after_grace_period_witness :
  (seconds 30 < age (seconds 31) (Sample.duel_row None WAITING None None) ->
   exists st',
     _attempt_matchmaking Sample.waiting (seconds 31) 1 = (true, st')
     /\ st' = with_duels Sample.waiting
                (db_update 1 (assign_opponent (- 3)) (duels Sample.waiting))
     /\ exists duel',
          find_duel 1 (duels st') = Some duel'
          /\ Duel.opponent_id duel' = Some (- 3)
          /\ Duel.status duel' = ACTIVE
          /\ Duel.challenger_id duel' = Sample.alice
          /\ Duel.question_id duel' = 1
          /\ Duel.winner_id duel' = None
          /\ Duel.created_at duel' = Sample.epoch)
  /\ (age (seconds 31) (Sample.duel_row None WAITING None None) <= seconds 30 ->
      _attempt_matchmaking Sample.waiting (seconds 31) 1
      = (false, Sample.waiting)).
Proof.
  apply (bot_after_grace_period Sample.waiting (seconds 31) 1
           (Sample.duel_row None WAITING None None) Sample.loops).
  - reflexivity.
  - reflexivity.
  - reflexivity.
  - reflexivity.
  - simpl. lia.
Defined.

(** ** Adjudication *)

Section Adjudication.

Variable autoflush : bool.
Variable server_tz : option Z.
Variable db : Dialect.

(** Past the guards, [submit_solution] is its adjudication part. *)
Lemma submit_solution_guards_passed
  (st : Store) (clock : Z) (g : Rng) (judge : verdict)
  (duel_id user_id time_taken : Z) (duel : Duel.t) (question : Question.t) :
  find_duel duel_id (duels st) = Some duel ->
  Duel.status duel = ACTIVE ->
  Duel.challenger_id duel = user_id \/ Duel.opponent_id duel = Some user_id ->
  find_question (Duel.question_id duel) (questions st) = Some question ->
  submit_solution autoflush server_tz db st clock g (Response judge) duel_id
    user_id time_taken
  = let attempt :=
      new_attempt server_tz question judge user_id time_taken clock in
    let seen := seen_attempts autoflush st attempt in
    let winner_id :=
      determine_winner autoflush server_tz st clock g judge user_id
        time_taken duel question in
    match completes winner_id (challenger_attempt_of seen duel)
            (opponent_attempt_of seen duel) (Duel.opponent_id duel) with
    | inl e => Raised e st
    | inr finished =>
        let result :=
          if finished
          then complete_and_reward db (pending st attempt) clock duel question
                 winner_id
          else (0, pending st attempt) in
        Returned
          (respond (working (snd result)) clock judge duel_id user_id duel
             winner_id (fst result))
          (working (snd result))
    end.
Proof.
  intros Hfind Hstatus Hside Hq. unfold submit_solution.
  rewrite Hfind, Hstatus. simpl.
  assert (Hpart : negb (Duel.challenger_id duel =? user_id)
                  && negb (opt_eqb (Duel.opponent_id duel) user_id) = false).
  { destruct Hside as [<- | ->].
    - now rewrite Z.eqb_refl.
    - simpl. rewrite Z.eqb_refl. apply andb_false_r. }
  rewrite Hpart, Hq. reflexivity.
Qed.

Lemma respond_winner_id (final : Store) (clock : Z) (judge : verdict)
  (duel_id user_id : Z) (duel : Duel.t) (winner_id : option Z) (xp : Z) :
  DuelResultResponse.winner_id
    (respond final clock judge duel_id user_id duel winner_id xp)
  = winner_id.
Proof. reflexivity. Qed.

(** A determined winner other than [0] completes the duel. *)
Lemma completes_with_winner (w : Z)
  (ca oa : option QuestionAttempt.t) (opponent : option Z) :
  w <> 0 -> completes (Some w) ca oa opponent = inr true.
Proof.
  intros Hw. unfold completes, truthy.
  destruct (Z.eqb_spec w 0); [contradiction | reflexivity].
Qed.


(** Completing for a human winner: the amount is the base reward plus the
    bonus; the duel and the attempt reach the database unless the ledger's
    [try] raises, in which case nothing does. *)
Lemma complete_for_human (st : Store) (attempt : QuestionAttempt.t)
  (clock : Z) (duel : Duel.t) (question : Question.t) (w : Z) :
  0 < w ->
  let amount :=
    Question.xp_reward question + bonus_xp (Question.xp_reward question) in
  let result :=
    complete_and_reward db (pending st attempt) clock duel question (Some w) in
  fst result = amount
  /\ (credit_fails db st w amount = false ->
      duels (working (snd result))
      = db_update (Duel.id duel) (complete (Some w) (now_utc clock))
          (duels st)
      /\ attempts (working (snd result)) = attempts st ++ [attempt])
  /\ (credit_fails db st w amount = true -> working (snd result) = st).
Proof.
  intros Hw amount.
  unfold complete_and_reward, credit_fails, ledger_raises, commit_raises.
  destruct (Z.eqb_spec w 0); [lia|].
  destruct (Z.ltb_spec 0 w); [|lia]. cbn [negb andb]. cbv zeta. fold amount.
  unfold award_xp. cbn [working pending with_duels with_attempts users].
  destruct (find_user w (users st)) as [u|]; cbn [fst snd orb].
  - destruct (User.xp u) as [old|]; cbn [fst snd orb negb].
    + destruct (storable db (old + amount)); cbn [fst snd negb];
        repeat split; intros; first [discriminate | reflexivity].
    + repeat split; intros; first [discriminate | reflexivity].
  - repeat split; intros; first [discriminate | reflexivity].
Qed.

(** A NULL [xp] is one way for the credit to fail. *)
Lemma ledger_raises_credit_fails (st : Store) (w amount : Z) :
  ledger_raises st w = true -> credit_fails db st w amount = true.
Proof. intros H. unfold credit_fails. now rewrite H. Qed.

End Adjudication.

(** ** Duels against a bot *)

Section BotDuels.

Variable autoflush : bool.
Variable server_tz : option Z.
Variable db : Dialect.

Lemma is_bot_negative (bot_id : Z) : bot_id < 0 -> is_bot (Some bot_id) = true.
Proof.
  intros H. unfold is_bot.
  destruct (Z.eqb_spec bot_id 0); [lia|].
  destruct (Z.ltb_spec bot_id 0); [reflexivity | lia].
Qed.


Lemma randint_range (g : Rng) (lo hi : Z) :
  lo <= hi -> lo <= randint g lo hi <= hi.
Proof.
  intros H. unfold randint.
  pose proof (Z.mod_pos_bound (entropy g) (hi - lo + 1)). lia.
Qed.

End BotDuels.



Example bot_wins_the_tie :
  bot_time_taken (_simulate_bot_solution Sample.bot_hits (-3) (Some true)) = 8
  /\ exists resp,
       submit_solution true None SQLite Sample.versus_bot (seconds 40)
         Sample.bot_hits (Response (Some true)) 1 Sample.alice 8
       = Returned resp
           (with_attempts
              (Sample.with_duel
                 (Sample.duel_row (Some (-3)) COMPLETED (Some (-3))
                    (Some (now_utc (seconds 40))))
                 [])
              [QuestionAttempt.mk Sample.alice 1 true 8
                 {| wall := seconds 40; tzinfo := None |}])
       /\ DuelResultResponse.winner_id resp = Some (-3).
Proof. split; [reflexivity|]. eexists. split; reflexivity. Qed.

(** C10. The simulated bot time is the tier's base time plus a jitter between
    -2 and 3, clamped below at 1, hence at least 1 second.  So in an ACTIVE
    duel against a bot a human whose submission is correct and who reports
    [time_taken = 0] is named the winner by the call, whatever the bot's
    simulated outcome; in particular the comparison of times of the
    both-correct case goes to the human. *)
Theorem bot_time_at_least_one
  (autoflush : bool) (server_tz : option Z) (db : Dialect) (st : Store)
  (clock : Z) (g : Rng) (judge : verdict) (duel_id user_id : Z)
  (duel : Duel.t) (question : Question.t) (bot_id : Z) :
  find_duel duel_id (duels st) = Some duel ->
  Duel.status duel = ACTIVE ->
  Duel.challenger_id duel = user_id ->
  0 < user_id ->
  Duel.opponent_id duel = Some bot_id ->
  bot_id < 0 ->
  find_question (Duel.question_id duel) (questions st) = Some question ->
  holds judge = true ->
  (forall g' bot_id' judge',
     let bot := _simulate_bot_solution g' bot_id' judge' in
     bot_time_taken bot
     = Z.max 1 (base_times (Z.abs bot_id') + randint g' (-2) 3)
     /\ -2 <= randint g' (-2) 3 <= 3
     /\ 1 <= bot_time_taken bot)
  /\ (0 <? bot_time_taken (_simulate_bot_solution g bot_id judge)) = true
  /\ (forall prior,
        against_bot g judge user_id 0 duel prior = Some user_id)
  /\ exists resp st',
       submit_solution autoflush server_tz db st clock g (Response judge)
         duel_id user_id 0
       = Returned resp st'
       /\ DuelResultResponse.winner_id resp = Some user_id.
Proof.
  intros Hfind Hstatus Hchal Hpos Hopp Hneg Hq Hok.
  assert (Htime : forall g' bot_id' judge',
             1 <= bot_time_taken (_simulate_bot_solution g' bot_id' judge')).
  { intros. unfold _simulate_bot_solution. simpl. lia. }
  assert (Hwin : forall prior,
             against_bot g judge user_id 0 duel prior = Some user_id).
  { intros prior. unfold against_bot.
    rewrite Hopp, (is_bot_negative _ Hneg), Hok.
    specialize (Htime g bot_id judge).
    set (bot := _simulate_bot_solution g bot_id judge) in *.
    destruct (bot_is_correct bot); cbn [andb negb]; [|reflexivity].
    destruct (Z.ltb_spec 0 (bot_time_taken bot)); [reflexivity | lia]. }
  split; [|split; [|split]].
  - intros g' bot_id' judge' bot. split; [reflexivity|]. split.
    + apply randint_range. lia.
    + apply Htime.
  - apply Z.ltb_lt. specialize (Htime g bot_id judge). lia.
  - exact Hwin.
  - rewrite (submit_solution_guards_passed autoflush server_tz db st clock g
               judge duel_id user_id 0 duel question Hfind Hstatus
               (or_introl Hchal) Hq).
    cbv zeta. unfold determine_winner. rewrite Hwin.
    rewrite completes_with_winner by lia.
    do 2 eexists. split; reflexivity.
Qed.

Lemma bot_time_at_least_one_witness :
  (forall g' bot_id' judge',
     let bot := _simulate_bot_solution g' bot_id' judge' in
     bot_time_taken bot
     = Z.max 1 (base_times (Z.abs bot_id') + randint g' (-2) 3)
     /\ -2 <= randint g' (-2) 3 <= 3
     /\ 1 <= bot_time_taken bot)
  /\ (0 <? bot_time_taken
             (_simulate_bot_solution Sample.bot_hits (-3) (Some true))) = true
  /\ (forall prior,
        against_bot Sample.bot_hits (Some true) Sample.alice 0
          (Sample.duel_row (Some (-3)) ACTIVE None None) prior
        = Some Sample.alice)
  /\ exists resp st',
       submit_solution true None SQLite Sample.versus_bot (seconds 40)
         Sample.bot_hits (Response (Some true)) 1 Sample.alice 0
       = Returned resp st'
       /\ DuelResultResponse.winner_id resp = Some Sample.alice.
Proof.
  apply (bot_time_at_least_one true None SQLite Sample.versus_bot
           (seconds 40) Sample.bot_hits (Some true) 1 Sample.alice
           (Sample.duel_row (Some (-3)) ACTIVE None None) Sample.loops (-3)).
  - reflexivity.
  - reflexivity.
  - reflexivity.
  - reflexivity.
  - reflexivity.
  - reflexivity.
  - reflexivity.
  - reflexivity.
Defined.


(** ** Duels between two humans *)

Lemma is_human_positive (o : Z) : 0 < o -> is_human (Some o) = true.
Proof.
  intros H. unfold is_human.
  destruct (Z.eqb_spec o 0); [lia|].
  destruct (Z.ltb_spec 0 o); [reflexivity | lia].
Qed.

Lemma is_bot_positive (o : Z) : 0 < o -> is_bot (Some o) = false.
Proof.
  intros H. unfold is_bot.
  destruct (Z.ltb_spec o 0); [lia|]. apply andb_false_r.
Qed.

(** The attempt being submitted does not show in a query for another user. *)
Lemma latest_attempt_of_other
  (autoflush : bool) (st : Store) (a : QuestionAttempt.t)
  (user_id question_id : Z) (since : datetime) :
  QuestionAttempt.user_id a <> user_id ->
  latest_attempt (seen_attempts autoflush st a) user_id question_id since
  = latest_attempt (attempts st) user_id question_id since.
Proof.
  intros Hother. unfold latest_attempt, seen_attempts.
  destruct autoflush; [|reflexivity].
  rewrite filter_app. simpl. unfold attempt_filter at 2.
  destruct (Z.eqb_spec (QuestionAttempt.user_id a) user_id); [contradiction|].
  simpl. now rewrite app_nil_r.
Qed.

(** An ACTIVE duel between two distinct humans: when one side submits a
    solution the judge finds correct while the other side's newest recorded
    attempt at the question since the duel's creation is absent or incorrect,
    the call names the submitter as winner, whatever the [time_taken] of the
    call or of a recorded attempt.  If the ledger's [try] does not raise while
    crediting the winner, the duel is stored COMPLETED with [winner_id] the
    submitter and [completed_at] the time of the call; if it raises, the store
    is as before the call. *)
Lemma first_correct_wins
  (autoflush : bool) (server_tz : option Z) (db : Dialect) (st : Store)
  (clock : Z) (g : Rng) (judge : verdict) (duel_id user_id time_taken : Z)
  (duel : Duel.t) (question : Question.t) (opponent : Z) :
  find_duel duel_id (duels st) = Some duel ->
  Duel.status duel = ACTIVE ->
  Duel.opponent_id duel = Some opponent ->
  0 < Duel.challenger_id duel ->
  0 < opponent ->
  Duel.challenger_id duel <> opponent ->
  user_id = Duel.challenger_id duel \/ user_id = opponent ->
  find_question (Duel.question_id duel) (questions st) = Some question ->
  holds judge = true ->
  absent_or_incorrect
    (latest_attempt (attempts st)
       (if user_id =? Duel.challenger_id duel
        then opponent else Duel.challenger_id duel)
       (Duel.question_id duel) (Duel.created_at duel)) = true ->
  let amount :=
    Question.xp_reward question + bonus_xp (Question.xp_reward question) in
  exists resp st',
    submit_solution autoflush server_tz db st clock g (Response judge) duel_id
      user_id time_taken
    = Returned resp st'
    /\ DuelResultResponse.winner_id resp = Some user_id
    /\ (credit_fails db st user_id amount = false ->
        exists stored,
          find_duel duel_id (duels st') = Some stored
          /\ Duel.status stored = COMPLETED
          /\ Duel.winner_id stored = Some user_id
          /\ Duel.completed_at stored = Some (now_utc clock))
    /\ (credit_fails db st user_id amount = true -> st' = st).
Proof.
  intros Hfind Hstatus Hopp Hc Ho Hdistinct Hside Hq Hok Hother amount.
  pose proof (find_duel_id _ _ _ Hfind) as Hid.
  assert (Hpos : 0 < user_id) by (destruct Hside; lia).
  assert (Hpart : Duel.challenger_id duel = user_id
                  \/ Duel.opponent_id duel = Some user_id).
  { destruct Hside as [-> | ->]; [left | right]; congruence. }
  rewrite (submit_solution_guards_passed autoflush server_tz db st clock g
             judge duel_id user_id time_taken duel question Hfind Hstatus
             Hpart Hq).
  cbv zeta.
  set (attempt := new_attempt server_tz question judge user_id time_taken
                    clock).
  assert (Hwinner : determine_winner autoflush server_tz st clock g judge
                      user_id time_taken duel question = Some user_id).
  { unfold determine_winner, against_bot. fold attempt.
    rewrite Hopp, (is_bot_positive _ Ho).
    unfold first_correct. rewrite Hok.
    destruct (Z.eqb_spec user_id (Duel.challenger_id duel)) as [E | E].
    - unfold opponent_attempt_of.
      rewrite Hopp, (is_human_positive _ Ho).
      rewrite latest_attempt_of_other by (simpl; lia).
      now rewrite Hother.
    - unfold challenger_attempt_of.
      rewrite latest_attempt_of_other by (simpl; destruct Hside; lia).
      now rewrite Hother. }
  rewrite Hwinner. rewrite completes_with_winner by lia.
  destruct (complete_for_human db st attempt clock duel question user_id Hpos)
    as (_ & Hkeep & Hback).
  fold amount in Hkeep, Hback.
  do 2 eexists. split; [reflexivity|]. rewrite respond_winner_id.
  split; [reflexivity|]. split.
  - intros Hcredit. destruct (Hkeep Hcredit) as [Hduels _].
    exists (complete (Some user_id) (now_utc clock) duel).
    split; [|repeat split; reflexivity].
    rewrite Hduels, Hid.
    apply find_duel_db_update; [exact Hfind | reflexivity].
  - intros Hcredit. exact (Hback Hcredit).
Qed.

Lemma first_correct_wins_witness :
  let amount :=
    Question.xp_reward Sample.loops + bonus_xp (Question.xp_reward Sample.loops)
  in
  exists resp st',
    submit_solution false None SQLite Sample.both_wrong (seconds 40)
      Sample.bot_hits (Response (Some true)) 1 Sample.alice 900
    = Returned resp st'
    /\ DuelResultResponse.winner_id resp = Some Sample.alice
    /\ (credit_fails SQLite Sample.both_wrong Sample.alice amount = false ->
        exists stored,
          find_duel 1 (duels st') = Some stored
          /\ Duel.status stored = COMPLETED
          /\ Duel.winner_id stored = Some Sample.alice
          /\ Duel.completed_at stored = Some (now_utc (seconds 40)))
    /\ (credit_fails SQLite Sample.both_wrong Sample.alice amount = true ->
        st' = Sample.both_wrong).
Proof.
  apply (first_correct_wins false None SQLite Sample.both_wrong (seconds 40)
           Sample.bot_hits (Some true) 1 Sample.alice 900
           (Sample.duel_row (Some Sample.bob) ACTIVE None None) Sample.loops
           Sample.bob).
  - reflexivity.
  - reflexivity.
  - reflexivity.
  - reflexivity.
  - reflexivity.
  - discriminate.
  - left. reflexivity.
  - reflexivity.
  - reflexivity.
  - reflexivity.
Defined.

(** C1, on the code.  Carol and Bob are in an ACTIVE duel and Bob's only
    attempt is wrong.  Carol submits a solution the judge finds correct: the
    call names her the winner and reports 45 XP.  But her [xp] is NULL, so
    [user.xp += xp_amount] raises inside [award_xp], whose handler rolls back
    the session it shares with [submit_solution]: the duel is still ACTIVE,
    without winner or [completed_at], and her attempt is not recorded.  The
    same happens to Erin, whose XP is within 45 of what the column holds: the
    commit inside [award_xp] raises.  Alice, whose [xp] is 100, wins the same
    way against Bob and her duel is stored COMPLETED. *)
Theorem first_correct_not_recorded :
  (forall autoflush,
     exists resp st',
       submit_solution autoflush None SQLite Sample.both_wrong (seconds 40)
         Sample.bot_hits (Response (Some true)) 1 Sample.alice 5
       = Returned resp st'
       /\ DuelResultResponse.winner_id resp = Some Sample.alice
       /\ find_duel 1 (duels st')
          = Some
              (Duel.mk 1 Sample.alice (Some Sample.bob) 1 COMPLETED
                 (Some Sample.alice) Sample.epoch
                 (Some (now_utc (seconds 40))))
       /\ find_user Sample.alice (users st')
          = Some (User.mk Sample.alice (Some 145)))
  /\ (forall autoflush,
        absent_or_incorrect
          (latest_attempt (attempts Sample.carol_after_miss) Sample.bob 1
             Sample.epoch) = true
        /\ exists resp,
             submit_solution autoflush None SQLite Sample.carol_after_miss
               (seconds 40) Sample.bot_hits (Response (Some true)) 1
               Sample.carol 5
             = Returned resp Sample.carol_after_miss
             /\ DuelResultResponse.winner_id resp = Some Sample.carol
             /\ DuelResultResponse.xp_awarded resp = 45
             /\ find_duel 1 (duels Sample.carol_after_miss)
                = Some
                    (Duel.mk 1 Sample.carol (Some Sample.bob) 1 ACTIVE None
                       Sample.epoch None)
             /\ attempts Sample.carol_after_miss
                = [Sample.wrong Sample.bob (seconds 10)])
  /\ (forall autoflush,
        exists resp,
          submit_solution autoflush None SQLite Sample.erin_vs_bob
            (seconds 40) Sample.bot_hits (Response (Some true)) 1 Sample.erin
            5
          = Returned resp Sample.erin_vs_bob
          /\ DuelResultResponse.winner_id resp = Some Sample.erin
          /\ find_user Sample.erin (users Sample.erin_vs_bob)
             = Some (User.mk Sample.erin (Some (2 ^ 63 - 40)))
          /\ find_duel 1 (duels Sample.erin_vs_bob)
             = Some
                 (Duel.mk 1 Sample.erin (Some Sample.bob) 1 ACTIVE None
                    Sample.epoch None)
          /\ attempts Sample.erin_vs_bob = []).
Proof.
  split; [|split]; intros [|];
    repeat first [split | eexists]; reflexivity.
Qed.

(** ** Submissions that determine no winner *)

(** An incorrect submission against a human determines no winner. *)
Lemma incorrect_determines_none
  (autoflush : bool) (server_tz : option Z) (st : Store) (clock : Z)
  (g : Rng) (judge : verdict) (user_id time_taken : Z) (duel : Duel.t)
  (question : Question.t) :
  holds judge = false ->
  is_bot (Duel.opponent_id duel) = false ->
  determine_winner autoflush server_tz st clock g judge user_id time_taken
    duel question = None.
Proof.
  intros Hwrong Hhuman. unfold determine_winner, against_bot, first_correct.
  rewrite Hwrong. destruct (Duel.opponent_id duel); [|reflexivity].
  now rewrite Hhuman.
Qed.




(** ** The reward of the winner *)

Lemma find_user_update_user (user_id : Z) (f : User.t -> User.t)
  (us : list User.t) (u : User.t) :
  find_user user_id us = Some u ->
  User.id (f u) = User.id u ->
  find_user user_id (update_user user_id f us) = Some (f u).
Proof.
  unfold find_user. induction us as [|x rest IH]; simpl; [discriminate|].
  destruct (User.id x =? user_id) eqn:E; intros H Hid.
  - injection H as ->. simpl. rewrite Hid, E. reflexivity.
  - simpl. rewrite E. auto.
Qed.

Lemma find_user_update_other (k user_id : Z) (f : User.t -> User.t)
  (us : list User.t) :
  k <> user_id ->
  (forall u, User.id (f u) = User.id u) ->
  find_user k (update_user user_id f us) = find_user k us.
Proof.
  intros Hk Hf. unfold find_user.
  induction us as [|x rest IH]; simpl; [reflexivity|].
  destruct (User.id x =? user_id) eqn:E; simpl.
  - rewrite Hf. apply Z.eqb_eq in E.
    destruct (User.id x =? k) eqn:E'; [apply Z.eqb_eq in E'; lia | reflexivity].
  - now rewrite IH.
Qed.

(** A call that returns was made by one of the two sides of an ACTIVE duel
    whose question exists, and the execution service gave a response. *)
Lemma returned_by_participant
  (autoflush : bool) (server_tz : option Z) (db : Dialect) (st : Store)
  (clock : Z) (g : Rng) (run : execution) (duel_id user_id time_taken : Z)
  (duel : Duel.t) (resp : DuelResultResponse.t) (st' : Store) :
  find_duel duel_id (duels st) = Some duel ->
  submit_solution autoflush server_tz db st clock g run duel_id user_id
    time_taken = Returned resp st' ->
  Duel.status duel = ACTIVE
  /\ (Duel.challenger_id duel = user_id
      \/ Duel.opponent_id duel = Some user_id)
  /\ (exists question,
        find_question (Duel.question_id duel) (questions st) = Some question)
  /\ exists judge, run = Response judge.
Proof.
  intros Hfind Hsub. unfold submit_solution in Hsub. rewrite Hfind in Hsub.
  destruct (Duel.status duel) eqn:Hs; try discriminate Hsub.
  cbn [status_eqb negb] in Hsub.
  split; [reflexivity|]. split; [|split].
  - destruct (Z.eqb_spec (Duel.challenger_id duel) user_id); [now left|].
    right. destruct (Duel.opponent_id duel) as [o|]; simpl in Hsub.
    + destruct (Z.eqb_spec o user_id); [congruence | discriminate Hsub].
    + discriminate Hsub.
  - destruct (negb (Duel.challenger_id duel =? user_id)
              && negb (opt_eqb (Duel.opponent_id duel) user_id));
      [discriminate Hsub|].
    destruct (find_question (Duel.question_id duel) (questions st)) as [q|];
      [now exists q | discriminate Hsub].
  - destruct (negb (Duel.challenger_id duel =? user_id)
              && negb (opt_eqb (Duel.opponent_id duel) user_id));
      [discriminate Hsub|].
    destruct (find_question (Duel.question_id duel) (questions st)) as [q|];
      [|discriminate Hsub].
    destruct run as [judge| |e]; [now exists judge | |]; discriminate Hsub.
Qed.

(** A determined winner is the submitter or the bot opponent. *)
Lemma winner_is_submitter_or_bot
  (autoflush : bool) (server_tz : option Z) (st : Store) (clock : Z)
  (g : Rng) (judge : verdict) (user_id time_taken : Z) (duel : Duel.t)
  (question : Question.t) (x : Z) :
  determine_winner autoflush server_tz st clock g judge user_id time_taken
    duel question = Some x ->
  x = user_id \/ (x < 0 /\ Duel.opponent_id duel = Some x).
Proof.
  unfold determine_winner, against_bot.
  set (seen := seen_attempts _ _ _).
  assert (Hfirst : first_correct judge user_id duel
                     (challenger_attempt_of seen duel)
                     (opponent_attempt_of seen duel) = Some x ->
                   x = user_id).
  { unfold first_correct.
    destruct (holds judge); [|discriminate].
    destruct (user_id =? Duel.challenger_id duel).
    - destruct (absent_or_incorrect _); congruence.
    - destruct (absent_or_incorrect _); congruence. }
  destruct (Duel.opponent_id duel) as [bot_id|]; [|auto].
  destruct (is_bot (Some bot_id)) eqn:Hbot; [|auto].
  assert (Hneg : bot_id < 0).
  { unfold is_bot in Hbot. apply andb_true_iff in Hbot.
    destruct Hbot as [_ Hbot]. now apply Z.ltb_lt. }
  set (bot := _simulate_bot_solution g bot_id judge).
  destruct (holds judge), (bot_is_correct bot); cbn [andb negb].
  - destruct (time_taken <? bot_time_taken bot); intros E; injection E as <-;
      auto.
  - intros E; injection E as <-; auto.
  - intros E; injection E as <-; auto.
  - auto.
Qed.

(** Integers of at most 53 bits are binary64 numbers. *)
Lemma float_of_int_exact (n : Z) : Z.abs n <= 2 ^ 53 -> float_of_int n = n.
Proof.
  intros H. unfold float_of_int.
  assert (Hcases : Z.abs n < 2 ^ 53 \/ Z.abs n = 2 ^ 53) by lia.
  destruct Hcases as [Hlt | Heq].
  - assert (Hlog : Z.log2 (Z.abs n) < 53).
    { destruct (Z.eq_dec (Z.abs n) 0) as [-> | Hnz]; [reflexivity|].
      apply Z.log2_lt_pow2; lia. }
    destruct (Z.leb_spec (Z.log2 (Z.abs n) + 1 - 53) 0); [reflexivity | lia].
  - assert (Hn : n = 2 ^ 53 \/ n = - 2 ^ 53) by lia.
    destruct Hn as [-> | ->]; reflexivity.
Qed.

Example float_of_int_rounds :
  float_of_int (2 ^ 53 + 1) = 2 ^ 53
  /\ float_of_int (2 ^ 53 + 3) = 2 ^ 53 + 4
  /\ float_of_int (2 ^ 54 + 2) = 2 ^ 54
  /\ float_of_int (- (2 ^ 54 + 6)) = - (2 ^ 54 + 8)
  /\ bonus_xp (2 ^ 54 + 2) = 2 ^ 53
  /\ bonus_xp 31 = 15
  /\ bonus_xp (-31) = -15.
Proof. repeat split. Qed.

(** Up to 2^53 the bonus is half the base, truncated. *)
Lemma bonus_xp_half (base_xp : Z) :
  Z.abs base_xp <= 2 ^ 53 -> bonus_xp base_xp = Z.quot base_xp 2.
Proof. intros H. unfold bonus_xp. now rewrite float_of_int_exact. Qed.

(** C5, as the code has it.  When a submission takes a duel from ACTIVE to
    COMPLETED with a winner [w]: a human winner ([0 < w]) is the caller, the
    call reports the question's base reward plus the bonus [int(base * 0.5)],
    and no other user's row changes; if the winner has a user row, that
    amount is added to their [xp] (and the total fits the column); if not, no
    user row changes.  A bot winner
    ([w < 0]) changes no user row and no amount is reported.  The bonus is
    half the base rounded down as long as the base is at most 2^53 (for a
    base of 30 it is 15, 45 in all). *)
Theorem winner_credited_base_plus_half
  (autoflush : bool) (server_tz : option Z) (db : Dialect) (st : Store)
  (clock : Z) (g : Rng) (run : execution) (duel_id user_id time_taken : Z)
  (duel duel' : Duel.t) (question : Question.t)
  (resp : DuelResultResponse.t) (st' : Store) (w : Z) :
  find_duel duel_id (duels st) = Some duel ->
  Duel.status duel = ACTIVE ->
  find_question (Duel.question_id duel) (questions st) = Some question ->
  submit_solution autoflush server_tz db st clock g run duel_id user_id
    time_taken = Returned resp st' ->
  find_duel duel_id (duels st') = Some duel' ->
  Duel.status duel' = COMPLETED ->
  Duel.winner_id duel' = Some w ->
  w <> 0 ->
  let base := Question.xp_reward question in
  let reward := base + bonus_xp base in
  (Z.abs base <= 2 ^ 53 -> bonus_xp base = Z.quot base 2)
  /\ (0 <= base <= 2 ^ 53 ->
      2 * bonus_xp base <= base <= 2 * bonus_xp base + 1)
  /\ 30 + bonus_xp 30 = 45
  /\ bonus_xp (2 ^ 54 + 2) = 2 ^ 53
  /\ (0 < w ->
      w = user_id
      /\ DuelResultResponse.xp_awarded resp = reward
      /\ (forall k, k <> w -> find_user k (users st') = find_user k (users st))
      /\ match find_user w (users st) with
         | Some u =>
             exists old,
               User.xp u = Some old
               /\ storable db (old + reward) = true
               /\ find_user w (users st')
                  = Some (User.mk (User.id u) (Some (old + reward)))
         | None => users st' = users st
         end)
  /\ (w < 0 ->
      users st' = users st /\ DuelResultResponse.xp_awarded resp = 0).
Proof.
  intros Hfind Hstatus Hq Hsub Hfind' Hdone Hwinner Hw base reward.
  pose proof (find_duel_id _ _ _ Hfind) as Hid.
  split; [apply bonus_xp_half|].
  split.
  { intros Hbase. rewrite bonus_xp_half by lia.
    pose proof (Z.quot_rem base 2 ltac:(lia)) as E.
    pose proof (Z.rem_bound_pos base 2 ltac:(lia) ltac:(lia)). lia. }
  split; [reflexivity|]. split; [reflexivity|].
  destruct (returned_by_participant _ _ _ _ _ _ _ _ _ _ _ _ _ Hfind Hsub)
    as (_ & Hpart & _ & judge & ->).
  rewrite (submit_solution_guards_passed autoflush server_tz db st clock g
             judge duel_id user_id time_taken duel question Hfind Hstatus
             Hpart Hq)
    in Hsub.
  cbv zeta in Hsub.
  set (attempt := new_attempt server_tz question judge user_id time_taken
                    clock) in *.
  set (seen := seen_attempts autoflush st attempt) in *.
  set (winner := determine_winner autoflush server_tz st clock g judge user_id
                   time_taken duel question) in *.
  pose proof (winner_is_submitter_or_bot autoflush server_tz st clock g judge
                user_id time_taken duel question) as Hwho.
  fold winner in Hwho.
  destruct (completes winner (challenger_attempt_of seen duel)
              (opponent_attempt_of seen duel) (Duel.opponent_id duel))
    as [e | finished]; [discriminate Hsub|].
  assert (Hcompleted : forall x,
             find_duel duel_id
               (db_update (Duel.id duel) (complete x (now_utc clock))
                  (duels st)) = Some duel' -> x = Some w).
  { intros x Hx. rewrite Hid in Hx.
    rewrite (find_duel_db_update duel_id (complete x (now_utc clock))
               (duels st) duel Hfind eq_refl) in Hx.
    injection Hx as <-. exact Hwinner. }
  assert (Hstill : find_duel duel_id (duels st) = Some duel' -> False).
  { intros Hx. rewrite Hfind in Hx. injection Hx as <-. congruence. }
  destruct finished.
  2:{ injection Hsub as _ <-. exfalso. apply Hstill. exact Hfind'. }
  injection Hsub as Hresp Hst'.
  unfold complete_and_reward in Hresp, Hst'.
  destruct winner as [x|].
  2:{ subst st'. cbn in Hfind'. apply Hcompleted in Hfind'. discriminate. }
  destruct (negb (x =? 0) && (0 <? x)) eqn:Hx.
  - apply andb_true_iff in Hx. destruct Hx as [_ Hx]. apply Z.ltb_lt in Hx.
    cbv zeta in Hresp, Hst'. fold base in Hresp, Hst'.
    fold reward in Hresp, Hst'.
    unfold award_xp in Hresp, Hst'. cbn [working with_duels users pending
      with_attempts] in Hresp, Hst'.
    assert (Hreport : forall xp s,
               resp = respond s clock judge duel_id user_id duel (Some x) xp ->
               x = user_id /\ DuelResultResponse.xp_awarded resp = xp).
    { intros xp s ->. unfold respond.
      cbn [DuelResultResponse.xp_awarded opt_eqb].
      destruct (Hwho _ eq_refl) as [E | [E _]]; [|lia].
      rewrite E, Z.eqb_refl. now split. }
    destruct (find_user x (users st)) as [u|] eqn:Hu.
    + destruct (User.xp u) as [old|] eqn:Hxp.
      * destruct (storable db (old + reward)) eqn:Hfits.
        -- subst st'. cbn in Hfind'. apply Hcompleted in Hfind'.
           injection Hfind' as ->.
           symmetry in Hresp. destruct (Hreport _ _ Hresp) as [Hwx Hxpr].
           split; [|lia]. intros _. split; [exact Hwx|].
           split; [exact Hxpr|]. split.
           ++ intros k Hk. cbn. apply find_user_update_other; [exact Hk|].
              reflexivity.
           ++ rewrite Hu. exists old. split; [exact Hxp|].
              split; [exact Hfits|]. cbn.
              apply (find_user_update_user w
                       (fun u0 => User.mk (User.id u0) (Some (old + reward)))
                       (users st) u Hu eq_refl).
        -- subst st'. cbn in Hfind'. exfalso. apply Hstill. exact Hfind'.
      * subst st'. cbn in Hfind'. exfalso. apply Hstill. exact Hfind'.
    + subst st'. cbn in Hfind'. apply Hcompleted in Hfind'.
      injection Hfind' as ->.
      symmetry in Hresp. destruct (Hreport _ _ Hresp) as [Hwx Hxpr].
      split; [|lia]. intros _. split; [exact Hwx|].
      split; [exact Hxpr|]. split; [reflexivity|].
      rewrite Hu. reflexivity.
  - subst st'. cbn in Hfind'. apply Hcompleted in Hfind'.
    injection Hfind' as ->.
    assert (Hneg : w < 0).
    { apply andb_false_iff in Hx. destruct Hx as [Hx | Hx].
      - apply negb_false_iff, Z.eqb_eq in Hx. contradiction.
      - apply Z.ltb_ge in Hx. lia. }
    split; [lia|]. intros _. split; [reflexivity|].
    subst resp. cbn. now destruct (w =? user_id).
Qed.

Lemma winner_credited_base_plus_half_witness :
  (Z.abs 30 <= 2 ^ 53 -> bonus_xp 30 = Z.quot 30 2)
  /\ (0 <= 30 <= 2 ^ 53 -> 2 * bonus_xp 30 <= 30 <= 2 * bonus_xp 30 + 1)
  /\ 30 + bonus_xp 30 = 45
  /\ bonus_xp (2 ^ 54 + 2) = 2 ^ 53
  /\ (0 < Sample.alice ->
      Sample.alice = Sample.alice
      /\ DuelResultResponse.xp_awarded Sample.alice_wins_reply
         = 30 + bonus_xp 30
      /\ (forall k, k <> Sample.alice ->
            find_user k (users (store_after Sample.alice_wins))
            = find_user k (users Sample.versus_bot))
      /\ match find_user Sample.alice (users Sample.versus_bot) with
         | Some u =>
             exists old,
               User.xp u = Some old
               /\ storable SQLite (old + (30 + bonus_xp 30)) = true
               /\ find_user Sample.alice
                    (users (store_after Sample.alice_wins))
                  = Some (User.mk (User.id u) (Some (old + (30 + bonus_xp 30))))
         | None => users (store_after Sample.alice_wins)
                   = users Sample.versus_bot
         end)
  /\ (Sample.alice < 0 ->
      users (store_after Sample.alice_wins) = users Sample.versus_bot
      /\ DuelResultResponse.xp_awarded Sample.alice_wins_reply = 0).
Proof.
  apply (winner_credited_base_plus_half true None SQLite Sample.versus_bot
           (seconds 40) Sample.bot_misses (Response (Some true)) 1
           Sample.alice 5
           (Sample.duel_row (Some (-3)) ACTIVE None None)
           (complete (Some Sample.alice) (now_utc (seconds 40))
              (Sample.duel_row (Some (-3)) ACTIVE None None))
           Sample.loops Sample.alice_wins_reply
           (store_after Sample.alice_wins) Sample.alice).
  - reflexivity.
  - reflexivity.
  - reflexivity.
  - reflexivity.
  - reflexivity.
  - reflexivity.
  - reflexivity.
  - discriminate.
Defined.

(** C5 as stated fails in two ways.  The bonus is [int(base * 0.5)], computed
    in binary floating point: it is 15 for a base of 31, and on a question
    worth 2^54 + 2 Alice's win is credited a bonus of 2^53, one less than half
    the base.  And a winner without a user row is credited nothing: Dave's win
    completes the duel, the call reports 45 XP, and no user row changes. *)
Lemma credit_is_not_base_plus_half :
  (exists resp st',
     submit_solution true None SQLite Sample.jackpot_duel (seconds 40)
       Sample.bot_misses (Response (Some true)) 1 Sample.alice 5
     = Returned resp st'
     /\ find_duel 1 (duels st')
        = Some
            (Duel.mk 1 Sample.alice (Some (-3)) 2 COMPLETED (Some Sample.alice)
               Sample.epoch (Some (now_utc (seconds 40))))
     /\ find_user Sample.alice (users Sample.jackpot_duel)
        = Some (User.mk Sample.alice (Some 100))
     /\ find_user Sample.alice (users st')
        = Some (User.mk Sample.alice (Some (100 + (2 ^ 54 + 2) + 2 ^ 53)))
     /\ Question.xp_reward Sample.jackpot = 2 ^ 54 + 2
     /\ 2 * (2 ^ 53 + 1) = 2 ^ 54 + 2
     /\ bonus_xp 31 = 15)
  /\ (exists resp st',
        submit_solution true None SQLite Sample.dave_vs_bob (seconds 40)
          Sample.bot_hits (Response (Some true)) 1 Sample.dave 5
        = Returned resp st'
        /\ find_duel 1 (duels st')
           = Some
               (Duel.mk 1 Sample.dave (Some Sample.bob) 1 COMPLETED
                  (Some Sample.dave) Sample.epoch
                  (Some (now_utc (seconds 40))))
        /\ DuelResultResponse.xp_awarded resp = 45
        /\ users st' = users Sample.dave_vs_bob).
Proof.
  split; do 2 eexists; repeat split; reflexivity.
Qed.

(** ** A failing XP credit *)

(** When the ledger's [try] raises while crediting the determined winner
    (a NULL [xp], or a total the column does not hold), its handler rolls back
    the session it shares with [submit_solution]: nothing of the submission
    reaches the database. *)
Lemma raising_ledger_discards_submission
  (autoflush : bool) (server_tz : option Z) (db : Dialect) (st : Store)
  (clock : Z) (g : Rng) (judge : verdict) (duel_id user_id time_taken : Z)
  (duel : Duel.t) (question : Question.t) (w : Z) :
  find_duel duel_id (duels st) = Some duel ->
  Duel.status duel = ACTIVE ->
  Duel.challenger_id duel = user_id \/ Duel.opponent_id duel = Some user_id ->
  find_question (Duel.question_id duel) (questions st) = Some question ->
  determine_winner autoflush server_tz st clock g judge user_id time_taken
    duel question = Some w ->
  0 < w ->
  credit_fails db st w
    (Question.xp_reward question + bonus_xp (Question.xp_reward question))
  = true ->
  exists resp,
    submit_solution autoflush server_tz db st clock g (Response judge) duel_id
      user_id time_taken = Returned resp st
    /\ DuelResultResponse.winner_id resp = Some w.
Proof.
  intros Hfind Hstatus Hpart Hq Hwinner Hpos Hraise.
  rewrite (submit_solution_guards_passed autoflush server_tz db st clock g
             judge duel_id user_id time_taken duel question Hfind Hstatus
             Hpart Hq).
  cbv zeta. rewrite Hwinner. rewrite completes_with_winner by lia.
  destruct (complete_for_human db st
              (new_attempt server_tz question judge user_id time_taken clock)
              clock duel question w Hpos) as (_ & _ & Hback).
  rewrite (Hback Hraise). eexists. split; reflexivity.
Qed.

(** C9, on the code.  Dave has no user row: the ledger reports failure, and
    his winning submission completes the duel.  Carol's [xp] is NULL: the
    ledger raises inside [award_xp], whose handler rolls the shared session
    back; the call still answers that Carol won and was awarded 45 XP, but the
    store is as before the call, the duel ACTIVE with no winner and no
    attempt recorded. *)
Theorem ledger_raise_undoes_completion :
  (forall autoflush,
     exists resp st',
       submit_solution autoflush None SQLite Sample.dave_vs_bob (seconds 40)
         Sample.bot_hits (Response (Some true)) 1 Sample.dave 5
       = Returned resp st'
       /\ DuelResultResponse.winner_id resp = Some Sample.dave
       /\ find_user Sample.dave (users Sample.dave_vs_bob) = None
       /\ find_duel 1 (duels st')
          = Some
              (Duel.mk 1 Sample.dave (Some Sample.bob) 1 COMPLETED
                 (Some Sample.dave) Sample.epoch
                 (Some (now_utc (seconds 40)))))
  /\ (forall autoflush,
        exists resp,
          submit_solution autoflush None SQLite Sample.carol_vs_bob (seconds 40)
            Sample.bot_hits (Response (Some true)) 1 Sample.carol 5
          = Returned resp Sample.carol_vs_bob
          /\ DuelResultResponse.winner_id resp = Some Sample.carol
          /\ DuelResultResponse.xp_awarded resp = 45
          /\ ledger_raises Sample.carol_vs_bob Sample.carol = true
          /\ find_duel 1 (duels Sample.carol_vs_bob)
             = Some
                 (Duel.mk 1 Sample.carol (Some Sample.bob) 1 ACTIVE None
                    Sample.epoch None)
          /\ attempts Sample.carol_vs_bob = []).
Proof.
  split; intros [|]; repeat eexists; reflexivity.
Qed.

(** ** Cleanup *)

Section Keys.

Lemma filter_twice {A : Type} (p q : A -> bool) (l : list A) :
  filter p (filter q l) = filter (fun x => q x && p x) l.
Proof.
  induction l as [|x l IH]; simpl; [reflexivity|].
  destruct (q x); simpl; [|exact IH].
  destruct (p x); now rewrite IH.
Qed.

(** Under unique keys a row is determined by its key. *)
Lemma key_determines_row (ds : list Duel.t) (x y : Duel.t) :
  NoDup (map Duel.id ds) -> In x ds -> In y ds ->
  Duel.id x = Duel.id y -> x = y.
Proof.
  induction ds as [|d rest IH]; simpl; [tauto|].
  intros Hnd Hx Hy Hid. inversion Hnd as [|? ? Hnotin Hrest]; subst.
  destruct Hx as [-> | Hx], Hy as [-> | Hy]; auto.
  - exfalso. apply Hnotin. rewrite Hid. now apply in_map.
  - exfalso. apply Hnotin. rewrite <- Hid. now apply in_map.
Qed.

Lemma keys_unique_filter (p : Duel.t -> bool) (ds : list Duel.t) :
  NoDup (map Duel.id ds) -> NoDup (map Duel.id (filter p ds)).
Proof.
  induction ds as [|d rest IH]; simpl; [auto|].
  intros Hnd. inversion Hnd as [|? ? Hnotin Hrest]; subst.
  destruct (p d); simpl; auto.
  constructor; auto. intros Hin. apply Hnotin.
  apply in_map_iff in Hin. destruct Hin as (x & Hx & Hin).
  apply filter_In in Hin. rewrite <- Hx. apply in_map. tauto.
Qed.

(** Under unique keys DELETE by key removes every row of that key. *)
Lemma db_delete_filter (k : Z) (ds : list Duel.t) :
  NoDup (map Duel.id ds) ->
  db_delete k ds = filter (fun d => negb (Duel.id d =? k)) ds.
Proof.
  induction ds as [|d rest IH]; simpl; [reflexivity|].
  intros Hnd. inversion Hnd as [|? ? Hnotin Hrest]; subst.
  destruct (Z.eqb_spec (Duel.id d) k) as [E | E]; simpl.
  - symmetry. apply forallb_filter_id.
    apply forallb_forall. intros x Hx.
    destruct (Z.eqb_spec (Duel.id x) k) as [E' | _]; [|reflexivity].
    exfalso. apply Hnotin. rewrite E, <- E'. now apply in_map.
  - now rewrite IH.
Qed.

Lemma delete_each (l ds : list Duel.t) :
  NoDup (map Duel.id ds) ->
  fold_left (fun ds duel => db_delete (Duel.id duel) ds) l ds
  = filter (fun d => negb (existsb (fun x => Duel.id d =? Duel.id x) l)) ds.
Proof.
  revert ds. induction l as [|x l IH]; intros ds Hnd; simpl.
  - symmetry. apply forallb_filter_id.
    now apply forallb_forall.
  - rewrite IH.
    + rewrite db_delete_filter by exact Hnd. rewrite filter_twice.
      apply filter_ext. intros d.
      now rewrite negb_orb.
    + rewrite db_delete_filter by exact Hnd. now apply keys_unique_filter.
Qed.

End Keys.

Lemma is_old_expired (clock : Z) (d : Duel.t) :
  status_eqb (Duel.status d) WAITING
  && is_old (minus_delta (now_utc clock) (minutes 5)) d
  = expired clock d.
Proof.
  unfold expired, is_old, dt_ltb, age. f_equal.
  rewrite instant_assume_utc. unfold instant, minus_delta, now_utc. simpl.
  destruct (Z.ltb_spec (utc_instant (Duel.created_at d))
              (clock - minutes 5 - 0));
    destruct (Z.ltb_spec (minutes 5)
                (clock - utc_instant (Duel.created_at d)));
    (reflexivity || lia).
Qed.

(** The rows [cleanup_old_duels] selects are the expired ones. *)
Lemma old_duels_expired (clock : Z) (ds : list Duel.t) :
  filter (is_old (minus_delta (now_utc clock) (minutes 5)))
    (filter (fun d => status_eqb (Duel.status d) WAITING) ds)
  = filter (expired clock) ds.
Proof.
  rewrite filter_twice. apply filter_ext. intros d. apply is_old_expired.
Qed.

(** Deleting them one by one leaves the others. *)
Lemma cleanup_old_duels_duels (st : Store) (clock : Z) :
  keys_unique st ->
  duels (snd (cleanup_old_duels st clock))
  = filter (fun d => negb (expired clock d)) (duels st).
Proof.
  intros Hkeys. unfold cleanup_old_duels. cbn [snd duels with_duels].
  rewrite old_duels_expired, delete_each by exact Hkeys.
  apply filter_ext_in. intros d Hd. f_equal.
  destruct (expired clock d) eqn:E.
  - apply existsb_exists. exists d. split.
    + apply filter_In. auto.
    + apply Z.eqb_refl.
  - destruct (existsb _ _) eqn:Ex; [|reflexivity].
    apply existsb_exists in Ex. destruct Ex as (x & Hx & Hid).
    apply filter_In in Hx. destruct Hx as [Hx Hexp].
    apply Z.eqb_eq in Hid.
    rewrite (key_determines_row (duels st) d x Hkeys Hd Hx Hid) in E.
    congruence.
Qed.

(** C8. [cleanup_old_duels] deletes exactly the duels that are WAITING and
    whose age, a timestamp without offset being read as UTC, exceeds five
    minutes; it returns their number; ACTIVE and COMPLETED duels and the other
    tables are untouched; and a second call at the same clock reading, on the
    store the first left, returns 0 and changes nothing.  (A second call at a
    later reading returns the number of WAITING duels that passed five
    minutes in between.) *)
Theorem cleanup_reaps_expired_waiting (st : Store) (clock : Z) :
  keys_unique st ->
  let count := fst (cleanup_old_duels st clock) in
  let st' := snd (cleanup_old_duels st clock) in
  duels st' = filter (fun d => negb (expired clock d)) (duels st)
  /\ count = Z.of_nat (List.length (filter (expired clock) (duels st)))
  /\ (forall d, In d (duels st') <-> In d (duels st) /\ expired clock d = false)
  /\ (forall d, In d (duels st) ->
        Duel.status d = ACTIVE \/ Duel.status d = COMPLETED ->
        In d (duels st'))
  /\ attempts st' = attempts st
  /\ users st' = users st
  /\ questions st' = questions st
  /\ cleanup_old_duels st' clock = (0, st')
  /\ (forall later,
        fst (cleanup_old_duels st' later)
        = Z.of_nat
            (List.length
               (filter (fun d => negb (expired clock d) && expired later d)
                  (duels st)))).
Proof.
  intros Hkeys count st'.
  pose proof (cleanup_old_duels_duels st clock Hkeys) as E1. fold st' in E1.
  split; [exact E1|]. split.
  { subst count. unfold cleanup_old_duels. cbn [fst].
    now rewrite old_duels_expired. }
  split.
  { intros d. rewrite E1, filter_In, negb_true_iff. tauto. }
  split.
  { intros d Hd Hs. rewrite E1. apply filter_In. split; [exact Hd|].
    unfold expired. destruct Hs as [-> | ->]; reflexivity. }
  split; [reflexivity|]. split; [reflexivity|]. split; [reflexivity|].
  assert (Hnone : filter (expired clock) (duels st') = []).
  { rewrite E1, filter_twice. clear.
    induction (duels st) as [|d rest IH]; simpl; [reflexivity|].
    destruct (expired clock d); simpl; exact IH. }
  split.
  { unfold cleanup_old_duels. rewrite old_duels_expired, Hnone. simpl.
    reflexivity. }
  intros later. unfold cleanup_old_duels. cbn [fst].
  now rewrite old_duels_expired, E1, filter_twice.
Qed.

Lemma cleanup_reaps_expired_waiting_witness :
  let count := fst (cleanup_old_duels Sample.lobby (minutes 10)) in
  let st' := snd (cleanup_old_duels Sample.lobby (minutes 10)) in
  duels st'
  = filter (fun d => negb (expired (minutes 10) d)) (duels Sample.lobby)
  /\ count
     = Z.of_nat
         (List.length (filter (expired (minutes 10)) (duels Sample.lobby)))
  /\ (forall d,
        In d (duels st')
        <-> In d (duels Sample.lobby) /\ expired (minutes 10) d = false)
  /\ (forall d, In d (duels Sample.lobby) ->
        Duel.status d = ACTIVE \/ Duel.status d = COMPLETED ->
        In d (duels st'))
  /\ attempts st' = attempts Sample.lobby
  /\ users st' = users Sample.lobby
  /\ questions st' = questions Sample.lobby
  /\ cleanup_old_duels st' (minutes 10) = (0, st')
  /\ (forall later,
        fst (cleanup_old_duels st' later)
        = Z.of_nat
            (List.length
               (filter
                  (fun d => negb (expired (minutes 10) d) && expired later d)
                  (duels Sample.lobby)))).
Proof.
  apply (cleanup_reaps_expired_waiting Sample.lobby (minutes 10)).
  unfold keys_unique. simpl.
  repeat constructor; simpl; intuition discriminate.
Defined.

Example cleanup_lobby :
  cleanup_old_duels Sample.lobby (minutes 10)
  = (1,
     with_duels Sample.lobby
       [Duel.mk 2 Sample.bob None 1 WAITING None
          {| wall := minutes 8; tzinfo := None |} None;
        Duel.mk 3 Sample.carol (Some (-3)) 1 ACTIVE None Sample.epoch None]).
Proof. reflexivity. Qed.

(** ** Exclusivity *)

Section Counting.

Variable p : Duel.t -> bool.

Lemma count_update (k : Z) (f : Duel.t -> Duel.t) (ds : list Duel.t)
  (d : Duel.t) :
  find_duel k ds = Some d ->
  (List.length (filter p (db_update k f ds)) + Nat.b2n (p d)
   = List.length (filter p ds) + Nat.b2n (p (f d)))%nat.
Proof.
  unfold find_duel. induction ds as [|x rest IH]; simpl; [discriminate|].
  destruct (Duel.id x =? k); intros H.
  - injection H as ->. simpl. destruct (p d), (p (f d)); simpl; lia.
  - specialize (IH H). simpl. destruct (p x); simpl; lia.
Qed.

Lemma count_delete (k : Z) (ds : list Duel.t) (d : Duel.t) :
  find_duel k ds = Some d ->
  (List.length (filter p (db_delete k ds)) + Nat.b2n (p d)
   = List.length (filter p ds))%nat.
Proof.
  unfold find_duel. induction ds as [|x rest IH]; simpl; [discriminate|].
  destruct (Duel.id x =? k); intros H.
  - injection H as ->. destruct (p d); simpl; lia.
  - specialize (IH H). simpl. destruct (p x); simpl; lia.
Qed.

Lemma count_filter_le (q : Duel.t -> bool) (ds : list Duel.t) :
  (List.length (filter p (filter q ds)) <= List.length (filter p ds))%nat.
Proof.
  induction ds as [|x rest IH]; simpl; [lia|].
  destruct (q x); simpl; destruct (p x); simpl; lia.
Qed.

Lemma find_none_filter (ds : list Duel.t) :
  find p ds = None <-> filter p ds = [].
Proof.
  induction ds as [|x rest IH]; simpl; [tauto|].
  destruct (p x); [split; discriminate | exact IH].
Qed.

End Counting.

Lemma keys_db_update (k : Z) (f : Duel.t -> Duel.t) (ds : list Duel.t) :
  (forall d, Duel.id (f d) = Duel.id d) ->
  map Duel.id (db_update k f ds) = map Duel.id ds.
Proof.
  intros Hf. induction ds as [|x rest IH]; simpl; [reflexivity|].
  destruct (Duel.id x =? k); simpl; [now rewrite Hf | now rewrite IH].
Qed.

Lemma keys_below_next (ds : list Duel.t) (k : Z) :
  In k (map Duel.id ds) -> k < next_duel_id ds.
Proof.
  unfold next_duel_id. intros Hin.
  assert (H : k <= fold_right (fun d m => Z.max (Duel.id d) m) 0 ds).
  { induction ds as [|x rest IH]; [destruct Hin|].
    cbn [fold_right]. destruct Hin as [<- | Hin].
    - apply Z.le_max_l.
    - specialize (IH Hin). etransitivity; [exact IH | apply Z.le_max_r]. }
  lia.
Qed.

Lemma find_duel_of_row (ds : list Duel.t) (d : Duel.t) :
  NoDup (map Duel.id ds) -> In d ds -> find_duel (Duel.id d) ds = Some d.
Proof.
  intros Hnd Hin. unfold find_duel.
  destruct (find (fun x => Duel.id x =? Duel.id d) ds) as [x|] eqn:E.
  - apply find_some in E. destruct E as [Hx E]. apply Z.eqb_eq in E.
    f_equal. now apply (key_determines_row ds).
  - exfalso. apply (find_none _ _ E) in Hin. now rewrite Z.eqb_refl in Hin.
Qed.

Lemma engaged_assign_opponent (participant opponent : Z) (d : Duel.t) :
  engaged participant (assign_opponent opponent d)
  = (Duel.challenger_id d =? participant) || (opponent =? participant).
Proof. unfold engaged. simpl. apply andb_true_r. Qed.

Lemma engaged_complete (participant : Z) (w : option Z) (t : datetime)
  (d : Duel.t) :
  engaged participant (complete w t d) = false.
Proof. unfold engaged. simpl. apply andb_false_r. Qed.

(** Giving a WAITING duel an opponent who is not engaged elsewhere keeps the
    invariant; so does giving it a bot. *)
Lemma invariant_assign_opponent (st : Store) (duel : Duel.t) (opponent : Z) :
  invariant st ->
  find_duel (Duel.id duel) (duels st) = Some duel ->
  Duel.status duel = WAITING ->
  opponent < 0 \/ existing_duel (duels st) opponent = None ->
  invariant
    (with_duels st
       (db_update (Duel.id duel) (assign_opponent opponent) (duels st))).
Proof.
  intros (Hkeys & Htiers & Hexcl) Hfind Hwaiting Hfree.
  split; [|split; [exact Htiers|]].
  - unfold keys_unique. simpl. rewrite keys_db_update; [exact Hkeys|].
    reflexivity.
  - intros P HP. unfold open_duels_of. simpl.
    pose proof (count_update (engaged P) (Duel.id duel)
                  (assign_opponent opponent) (duels st) duel Hfind) as Hc.
    specialize (Hexcl P HP). unfold open_duels_of in Hexcl.
    rewrite engaged_assign_opponent in Hc.
    unfold engaged in Hc at 2. rewrite Hwaiting in Hc. simpl in Hc.
    rewrite andb_true_r in Hc.
    destruct (Z.eqb_spec opponent P) as [-> | Hne].
    + destruct Hfree as [Hneg | Hnone]; [lia|].
      apply find_none_filter in Hnone. unfold existing_duel in Hnone.
      rewrite Hnone in Hc. simpl in Hc.
      destruct (Duel.challenger_id duel =? P),
        (opt_eqb (Duel.opponent_id duel) P); simpl in Hc; lia.
    + rewrite orb_false_r in Hc.
      destruct (Duel.challenger_id duel =? P),
        (opt_eqb (Duel.opponent_id duel) P); simpl in Hc; lia.
Qed.

Lemma invariant_matchmaking (st : Store) (clock duel_id : Z) :
  invariant st -> invariant (snd (_attempt_matchmaking st clock duel_id)).
Proof.
  intros Hinv. unfold _attempt_matchmaking.
  destruct (find_duel duel_id (duels st)) as [duel|] eqn:Hfind; [|exact Hinv].
  pose proof (find_duel_id _ _ _ Hfind) as Hid.
  destruct (Duel.status duel) eqn:Hstatus; simpl; try exact Hinv.
  destruct (find (peer_filter duel) (duels st)) as [peer|] eqn:Hpeer.
  - (* a peer: it moves into the duel and its own row goes *)
    simpl. destruct Hinv as (Hkeys & Htiers & Hexcl).
    apply find_some in Hpeer. destruct Hpeer as [Hin Hfilter].
    unfold peer_filter in Hfilter.
    repeat (apply andb_true_iff in Hfilter; destruct Hfilter as [Hfilter ?]).
    apply status_eqb_eq in Hfilter.
    assert (Hother : Duel.id peer <> Duel.id duel).
    { intros E. rewrite E, Z.eqb_refl in *. discriminate. }
    assert (Hnoopp : Duel.opponent_id peer = None)
      by (destruct (Duel.opponent_id peer); [discriminate | reflexivity]).
    set (B := Duel.challenger_id peer) in *.
    set (ds1 := db_update (Duel.id duel) (assign_opponent B) (duels st)).
    assert (Hkeys1 : NoDup (map Duel.id ds1)).
    { unfold ds1. rewrite keys_db_update; [exact Hkeys | reflexivity]. }
    assert (Hpeer1 : find_duel (Duel.id peer) ds1 = Some peer).
    { unfold ds1. rewrite find_duel_db_update_other;
        [now apply find_duel_of_row | exact Hother | reflexivity]. }
    split; [|split; [exact Htiers|]].
    + unfold keys_unique. simpl. fold ds1.
      rewrite db_delete_filter by exact Hkeys1.
      now apply keys_unique_filter.
    + intros P HP. unfold open_duels_of. simpl. fold ds1.
      pose proof (count_delete (engaged P) (Duel.id peer) ds1 peer Hpeer1)
        as Hd.
      assert (Hfind' : find_duel (Duel.id duel) (duels st) = Some duel)
        by (now rewrite Hid).
      pose proof (count_update (engaged P) (Duel.id duel) (assign_opponent B)
                    (duels st) duel Hfind') as Hu.
      fold ds1 in Hu. rewrite engaged_assign_opponent in Hu.
      specialize (Hexcl P HP). unfold open_duels_of in Hexcl.
      unfold engaged in Hd at 2. unfold engaged in Hu at 2.
      rewrite Hfilter, Hnoopp in Hd. rewrite Hstatus in Hu.
      fold B in Hd. simpl in Hd, Hu.
      rewrite !andb_true_r, ?orb_false_r in Hd, Hu.
      destruct (Duel.challenger_id duel =? P), (B =? P),
        (opt_eqb (Duel.opponent_id duel) P); simpl in Hd, Hu; lia.
  - (* no peer: a bot, once the grace period is over *)
    destruct (seconds 30 <? _); [|exact Hinv].
    unfold _assign_bot_opponent.
    destruct (find_question (Duel.question_id duel) (questions st))
      as [question|] eqn:Hq; [|exact Hinv].
    destruct (negb (- Question.difficulty question =? 0)); [|exact Hinv].
    simpl. apply invariant_assign_opponent; auto.
    + now rewrite Hid.
    + left. destruct Hinv as (_ & Htiers & _).
      apply find_some in Hq. destruct Hq as [Hq _].
      unfold tiers_valid in Htiers. rewrite Forall_forall in Htiers.
      specialize (Htiers _ Hq). lia.
Qed.

Lemma invariant_create (server_tz : option Z) (st : Store)
  (clock question_id challenger_id : Z) :
  invariant st ->
  invariant
    (store_after (create_duel server_tz st clock question_id challenger_id)).
Proof.
  intros Hinv. unfold create_duel.
  destruct (find_question question_id (questions st)); [|exact Hinv].
  destruct (negb (is_code (Question.type t))); [exact Hinv|].
  destruct (existing_duel (duels st) challenger_id) eqn:Hnone; [exact Hinv|].
  set (duel := Duel.mk (next_duel_id (duels st)) challenger_id None question_id
                 WAITING None (server_now server_tz clock) None).
  set (st1 := with_duels st (duels st ++ [duel])).
  assert (Hinv1 : invariant st1).
  { destruct Hinv as (Hkeys & Htiers & Hexcl).
    split; [|split; [exact Htiers|]].
    - unfold keys_unique, st1. simpl. rewrite map_app. simpl.
      apply NoDup_app; [exact Hkeys | repeat constructor; simpl; tauto |].
      intros k Hk [<- | []]. apply keys_below_next in Hk. lia.
    - intros P HP. unfold open_duels_of, st1. simpl.
      rewrite filter_app, length_app. specialize (Hexcl P HP).
      unfold open_duels_of in Hexcl. simpl.
      unfold engaged at 2. simpl. rewrite orb_false_r, andb_true_r.
      destruct (Z.eqb_spec challenger_id P) as [-> | _]; simpl; [|lia].
      apply find_none_filter in Hnone. unfold existing_duel in Hnone.
      rewrite Hnone. simpl. lia. }
  pose proof (invariant_matchmaking st1 clock (Duel.id duel) Hinv1) as H.
  destruct (find_duel (Duel.id duel)
              (duels (snd (_attempt_matchmaking st1 clock (Duel.id duel)))));
    exact H.
Qed.

Lemma invariant_join (st : Store) (duel_id user_id : Z) :
  invariant st -> invariant (store_after (join_duel st duel_id user_id)).
Proof.
  intros Hinv. unfold join_duel.
  destruct (find_duel duel_id (duels st)) as [duel|] eqn:Hfind; [|exact Hinv].
  pose proof (find_duel_id _ _ _ Hfind) as Hid.
  destruct (Duel.status duel) eqn:Hstatus; simpl; try exact Hinv.
  destruct (Duel.challenger_id duel =? user_id); [exact Hinv|].
  destruct (Duel.opponent_id duel); [exact Hinv|].
  destruct (existing_duel (duels st) user_id) eqn:Hnone; [exact Hinv|].
  simpl. apply invariant_assign_opponent; auto. now rewrite Hid.
Qed.

(** A submission leaves the duel table as it is or completes its duel. *)
Lemma submit_solution_duels
  (autoflush : bool) (server_tz : option Z) (db : Dialect) (st : Store)
  (clock : Z) (g : Rng) (run : execution) (duel_id user_id time_taken : Z) :
  let st' :=
    store_after
      (submit_solution autoflush server_tz db st clock g run duel_id user_id
         time_taken) in
  questions st' = questions st
  /\ (duels st' = duels st
      \/ exists duel w,
           find_duel duel_id (duels st) = Some duel
           /\ duels st'
              = db_update (Duel.id duel) (complete w (now_utc clock))
                  (duels st)).
Proof.
  unfold submit_solution.
  destruct (find_duel duel_id (duels st)) as [duel|] eqn:Hfind; [|simpl; auto].
  destruct (negb (status_eqb (Duel.status duel) ACTIVE)); [simpl; auto|].
  destruct (negb (Duel.challenger_id duel =? user_id)
            && negb (opt_eqb (Duel.opponent_id duel) user_id)); [simpl; auto|].
  destruct (status_eqb (Duel.status duel) COMPLETED); [simpl; auto|].
  destruct (find_question (Duel.question_id duel) (questions st))
    as [question|]; [|simpl; auto].
  destruct run as [judge| |e]; [|simpl; auto|simpl; auto].
  cbv zeta.
  set (attempt := new_attempt server_tz question judge user_id time_taken
                    clock).
  set (winner := determine_winner autoflush server_tz st clock g judge user_id
                   time_taken duel question).
  destruct (completes winner _ _ _) as [e | finished]; [simpl; auto|].
  destruct finished; [|simpl; auto].
  unfold complete_and_reward.
  assert (Hdone : forall s : Session,
             s = {| committed := st;
                    working :=
                      with_duels (with_attempts st (attempts st ++ [attempt]))
                        (db_update (Duel.id duel)
                           (complete winner (now_utc clock)) (duels st)) |} ->
             questions (working s) = questions st
             /\ (duels (working s) = duels st
                 \/ exists duel0 w,
                      Some duel = Some duel0
                      /\ duels (working s)
                         = db_update (Duel.id duel0)
                             (complete w (now_utc clock)) (duels st))).
  { intros s ->. simpl. split; [reflexivity|]. right. now exists duel, winner. }
  destruct winner as [w|]; [|now apply Hdone].
  destruct (negb (w =? 0) && (0 <? w)); [|now apply Hdone].
  unfold award_xp. cbn [working pending with_duels with_attempts users].
  destruct (find_user w (users st)) as [u|]; [|now apply Hdone].
  destruct (User.xp u) as [old|]; [|simpl; auto].
  destruct (storable db _); simpl; [|auto].
  split; [reflexivity|]. right. now exists duel, (Some w).
Qed.

Lemma invariant_submit
  (autoflush : bool) (server_tz : option Z) (db : Dialect) (st : Store)
  (clock : Z) (g : Rng) (run : execution) (duel_id user_id time_taken : Z) :
  invariant st ->
  invariant
    (store_after
       (submit_solution autoflush server_tz db st clock g run duel_id user_id
          time_taken)).
Proof.
  intros (Hkeys & Htiers & Hexcl).
  destruct (submit_solution_duels autoflush server_tz db st clock g run
              duel_id user_id time_taken) as [Hq Hd].
  set (st' := store_after _) in *.
  assert (Htiers' : tiers_valid st') by (unfold tiers_valid; now rewrite Hq).
  destruct Hd as [Hd | (duel & w & Hfind & Hd)].
  - split; [|split; [exact Htiers'|]].
    + unfold keys_unique. now rewrite Hd.
    + intros P HP. unfold open_duels_of. rewrite Hd. now apply Hexcl.
  - pose proof (find_duel_id _ _ _ Hfind) as Hid.
    split; [|split; [exact Htiers'|]].
    + unfold keys_unique. rewrite Hd, keys_db_update; [exact Hkeys|].
      reflexivity.
    + intros P HP. unfold open_duels_of. rewrite Hd.
      rewrite <- Hid in Hfind.
      pose proof (count_update (engaged P) (Duel.id duel)
                    (complete w (now_utc clock)) (duels st) duel Hfind) as Hc.
      rewrite engaged_complete in Hc. specialize (Hexcl P HP).
      unfold open_duels_of in Hexcl. simpl in Hc. lia.
Qed.

Lemma invariant_cleanup (st : Store) (clock : Z) :
  invariant st -> invariant (snd (cleanup_old_duels st clock)).
Proof.
  intros (Hkeys & Htiers & Hexcl).
  pose proof (cleanup_old_duels_duels st clock Hkeys) as Hd.
  split; [|split; [exact Htiers|]].
  - unfold keys_unique. rewrite Hd. now apply keys_unique_filter.
  - intros P HP. unfold open_duels_of. rewrite Hd.
    specialize (Hexcl P HP). unfold open_duels_of in Hexcl.
    pose proof (count_filter_le (engaged P)
                  (fun d => negb (expired clock d)) (duels st)). lia.
Qed.

(** Every reachable store satisfies the invariant. *)
Lemma reachable_invariant
  (autoflush : bool) (server_tz : option Z) (db : Dialect) (st : Store) :
  reachable autoflush server_tz db st -> invariant st.
Proof.
  induction 1 as [st Hempty Htiers | | | | | | st st' _ IH Hd Htiers].
  - split; [|split; [exact Htiers|]].
    + unfold keys_unique. rewrite Hempty. constructor.
    + intros P _. unfold open_duels_of. rewrite Hempty. simpl. lia.
  - now apply invariant_create.
  - now apply invariant_join.
  - now apply invariant_matchmaking.
  - now apply invariant_submit.
  - now apply invariant_cleanup.
  - destruct IH as (Hkeys & _ & Hexcl).
    split; [|split; [exact Htiers|]].
    + unfold keys_unique. now rewrite Hd.
    + intros P HP. unfold open_duels_of. rewrite Hd. now apply Hexcl.
Qed.

Lemma open_duel_found (st : Store) (caller : Z) :
  open_duels_of caller st <> [] ->
  exists d, existing_duel (duels st) caller = Some d.
Proof.
  intros H. unfold existing_duel.
  destruct (find (engaged caller) (duels st)) as [d|] eqn:E; [now exists d|].
  apply find_none_filter in E. contradiction.
Qed.

(** C7, as the code has it.  In every store the engine reaches from an empty
    duel table, a human participant is challenger or opponent of at most one
    duel that is WAITING or ACTIVE.  [create_duel] and [join_duel] fail and
    leave the store as it was whenever the caller has such a duel.  The error
    is "You already have an active duel" when the checks made before that one
    pass: for [create_duel] the question exists and is a code question, for
    [join_duel] the duel exists, is WAITING, is not the caller's own and has
    no opponent.  Otherwise it is the error of the first check that fails:
    "Question not found", "Only code questions can be used for duels", "Duel
    not found", "Duel is not available for joining", "Cannot join your own
    duel", "Duel already has an opponent". *)
Theorem exclusivity_enforced
  (autoflush : bool) (server_tz : option Z) (db : Dialect) (st : Store) :
  reachable autoflush server_tz db st ->
  (forall participant,
     0 < participant ->
     (List.length (open_duels_of participant st) <= 1)%nat)
  /\ (forall clock question_id caller,
        open_duels_of caller st <> [] ->
        exists e,
          create_duel server_tz st clock question_id caller = Raised e st
          /\ (find_question question_id (questions st) = None ->
              e = ValueError "Question not found")
          /\ (forall question,
                find_question question_id (questions st) = Some question ->
                (Question.type question <> CODE ->
                 e = ValueError "Only code questions can be used for duels")
                /\ (Question.type question = CODE ->
                    e = ValueError "You already have an active duel")))
  /\ (forall duel_id caller,
        open_duels_of caller st <> [] ->
        exists e,
          join_duel st duel_id caller = Raised e st
          /\ (find_duel duel_id (duels st) = None ->
              e = ValueError "Duel not found")
          /\ (forall duel,
                find_duel duel_id (duels st) = Some duel ->
                (Duel.status duel <> WAITING ->
                 e = ValueError "Duel is not available for joining")
                /\ (Duel.status duel = WAITING ->
                    Duel.challenger_id duel = caller ->
                    e = ValueError "Cannot join your own duel")
                /\ (Duel.status duel = WAITING ->
                    Duel.challenger_id duel <> caller ->
                    Duel.opponent_id duel <> None ->
                    e = ValueError "Duel already has an opponent")
                /\ (Duel.status duel = WAITING ->
                    Duel.challenger_id duel <> caller ->
                    Duel.opponent_id duel = None ->
                    e = ValueError "You already have an active duel"))).
Proof.
  intros Hreach. split; [|split].
  - apply (reachable_invariant autoflush server_tz db st Hreach).
  - intros clock question_id caller Hopen.
    destruct (open_duel_found st caller Hopen) as [d Hd].
    unfold create_duel.
    destruct (find_question question_id (questions st)) as [q|].
    + destruct (is_code (Question.type q)) eqn:Ht; cbn [negb].
      * rewrite Hd. eexists. split; [reflexivity|].
        split; [discriminate|]. intros q' E. injection E as <-.
        split; [|reflexivity]. intros Hn. destruct (Question.type q);
          try discriminate Ht. contradiction.
      * eexists. split; [reflexivity|].
        split; [discriminate|]. intros q' E. injection E as <-.
        split; [reflexivity|]. intros Hc. rewrite Hc in Ht. discriminate.
    + eexists. split; [reflexivity|]. split; [reflexivity | discriminate].
  - intros duel_id caller Hopen.
    destruct (open_duel_found st caller Hopen) as [d Hd].
    unfold join_duel.
    destruct (find_duel duel_id (duels st)) as [duel|].
    2:{ eexists. split; [reflexivity|]. split; [reflexivity | discriminate]. }
    destruct (status_eqb (Duel.status duel) WAITING) eqn:Hs; cbn [negb].
    2:{ eexists. split; [reflexivity|]. split; [discriminate|].
        intros duel' E. injection E as <-.
        assert (Hn : Duel.status duel <> WAITING).
        { intros E. apply status_eqb_eq in E. congruence. }
        repeat split; intros; first [reflexivity | contradiction]. }
    apply status_eqb_eq in Hs.
    destruct (Z.eqb_spec (Duel.challenger_id duel) caller) as [Hown | Hown].
    { eexists. split; [reflexivity|]. split; [discriminate|].
      intros duel' E. injection E as <-.
      repeat split; intros; first [reflexivity | contradiction]. }
    destruct (Duel.opponent_id duel) as [o|] eqn:Ho.
    { eexists. split; [reflexivity|]. split; [discriminate|].
      intros duel' E. injection E as <-. rewrite Ho.
      repeat split; intros;
        first [reflexivity | contradiction | discriminate]. }
    rewrite Hd. eexists. split; [reflexivity|]. split; [discriminate|].
    intros duel' E. injection E as <-. rewrite Ho.
    repeat split; intros; first [reflexivity | contradiction].
Qed.

Lemma exclusivity_enforced_witness :
  (forall participant,
     0 < participant ->
     (List.length (open_duels_of participant Sample.waiting) <= 1)%nat)
  /\ (forall clock question_id caller,
        open_duels_of caller Sample.waiting <> [] ->
        exists e,
          create_duel None Sample.waiting clock question_id caller
          = Raised e Sample.waiting
          /\ (find_question question_id (questions Sample.waiting) = None ->
              e = ValueError "Question not found")
          /\ (forall question,
                find_question question_id (questions Sample.waiting)
                = Some question ->
                (Question.type question <> CODE ->
                 e = ValueError "Only code questions can be used for duels")
                /\ (Question.type question = CODE ->
                    e = ValueError "You already have an active duel")))
  /\ (forall duel_id caller,
        open_duels_of caller Sample.waiting <> [] ->
        exists e,
          join_duel Sample.waiting duel_id caller = Raised e Sample.waiting
          /\ (find_duel duel_id (duels Sample.waiting) = None ->
              e = ValueError "Duel not found")
          /\ (forall duel,
                find_duel duel_id (duels Sample.waiting) = Some duel ->
                (Duel.status duel <> WAITING ->
                 e = ValueError "Duel is not available for joining")
                /\ (Duel.status duel = WAITING ->
                    Duel.challenger_id duel = caller ->
                    e = ValueError "Cannot join your own duel")
                /\ (Duel.status duel = WAITING ->
                    Duel.challenger_id duel <> caller ->
                    Duel.opponent_id duel <> None ->
                    e = ValueError "Duel already has an opponent")
                /\ (Duel.status duel = WAITING ->
                    Duel.challenger_id duel <> caller ->
                    Duel.opponent_id duel = None ->
                    e = ValueError "You already have an active duel"))).
Proof.
  apply (exclusivity_enforced true None SQLite Sample.waiting).
  change Sample.waiting
    with (store_after (create_duel None Sample.empty 0 1 Sample.alice)).
  apply reach_create. apply reach_init.
  - reflexivity.
  - unfold tiers_valid. simpl. repeat constructor; simpl; lia.
Defined.

(** C7 as stated fails in two ways.  A bot identity is no exclusive
    participant: after Alice and Bob have each waited out the grace period on
    the sample question, the tier-3 bot is the opponent of both their ACTIVE
    duels.  And the error is not always the already-in-duel one: Alice, who
    waits in duel 1, is told "Cannot join your own duel" when she joins it and
    "Question not found" when she creates a duel on a question that does not
    exist. *)
Lemma bots_share_and_earlier_checks_report :
  (reachable true None SQLite Tour.two_bot_duels
   /\ open_duels_of (-3) Tour.two_bot_duels
      = [Duel.mk 1 Sample.alice (Some (-3)) 1 ACTIVE None Sample.epoch None;
         Duel.mk 2 Sample.bob (Some (-3)) 1 ACTIVE None
           {| wall := seconds 60; tzinfo := None |} None]
   /\ ~ (List.length (open_duels_of (-3) Tour.two_bot_duels) <= 1)%nat)
  /\ reachable true None SQLite Sample.waiting
  /\ open_duels_of Sample.alice Sample.waiting <> []
  /\ join_duel Sample.waiting 1 Sample.alice
     = Raised (ValueError "Cannot join your own duel") Sample.waiting
  /\ create_duel None Sample.waiting 0 99 Sample.alice
     = Raised (ValueError "Question not found") Sample.waiting
  /\ join_duel Sample.waiting 1 Sample.alice
     <> Raised (ValueError "You already have an active duel") Sample.waiting
  /\ create_duel None Sample.waiting 0 99 Sample.alice
     <> Raised (ValueError "You already have an active duel") Sample.waiting.
Proof.
  assert (Hwaiting : reachable true None SQLite Sample.waiting).
  { change Sample.waiting
      with (store_after (create_duel None Sample.empty 0 1 Sample.alice)).
    apply reach_create. apply reach_init; [reflexivity|].
    unfold tiers_valid. simpl. repeat constructor; simpl; lia. }
  split; [split; [|split]|].
  - unfold Tour.two_bot_duels, Tour.bob_waits, Tour.alice_vs_bot, Tour.created.
    apply reach_match, reach_create, reach_match, reach_create.
    apply reach_init; [reflexivity|].
    unfold tiers_valid. simpl. repeat constructor; simpl; lia.
  - reflexivity.
  - simpl. lia.
  - split; [exact Hwaiting|].
    repeat split; try reflexivity; discriminate.
Qed.

(** * Further properties of the services *)

(** ** Rows under UPDATE and DELETE *)

Section Rows.

Variable P : Duel.t -> Prop.

Lemma Forall_db_update (k : Z) (f : Duel.t -> Duel.t) (ds : list Duel.t) :
  Forall P ds ->
  (forall d, find_duel k ds = Some d -> P (f d)) ->
  Forall P (db_update k f ds).
Proof.
  unfold find_duel. induction ds as [|x rest IH]; simpl; [constructor|].
  intros Hall Hf. inversion Hall as [|? ? Hx Hrest]; subst.
  destruct (Duel.id x =? k).
  - constructor; [now apply Hf | exact Hrest].
  - constructor; [exact Hx | now apply IH].
Qed.

Lemma Forall_db_delete (k : Z) (ds : list Duel.t) :
  Forall P ds -> Forall P (db_delete k ds).
Proof.
  induction ds as [|x rest IH]; simpl; [constructor|].
  intros Hall. inversion Hall as [|? ? Hx Hrest]; subst.
  destruct (Duel.id x =? k); [exact Hrest | constructor; auto].
Qed.

Lemma Forall_filter_rows (q : Duel.t -> bool) (ds : list Duel.t) :
  Forall P ds -> Forall P (filter q ds).
Proof.
  rewrite !Forall_forall. intros H x Hx. apply filter_In in Hx. now apply H.
Qed.

End Rows.

Lemma In_db_update_other (d : Duel.t) (k : Z) (f : Duel.t -> Duel.t)
  (ds : list Duel.t) :
  In d ds -> Duel.id d <> k -> In d (db_update k f ds).
Proof.
  induction ds as [|x rest IH]; simpl; [tauto|].
  intros [-> | Hin] Hk.
  - destruct (Z.eqb_spec (Duel.id d) k); [contradiction | now left].
  - destruct (Duel.id x =? k); [now right | right; auto].
Qed.

Lemma In_db_delete_other (d : Duel.t) (k : Z) (ds : list Duel.t) :
  In d ds -> Duel.id d <> k -> In d (db_delete k ds).
Proof.
  induction ds as [|x rest IH]; simpl; [tauto|].
  intros [-> | Hin] Hk.
  - destruct (Z.eqb_spec (Duel.id d) k); [contradiction | now left].
  - destruct (Duel.id x =? k); [exact Hin | right; auto].
Qed.

Lemma find_duel_db_delete_other (k duel_id : Z) (ds : list Duel.t) :
  k <> duel_id ->
  find_duel k (db_delete duel_id ds) = find_duel k ds.
Proof.
  intros Hk. unfold find_duel.
  induction ds as [|x rest IH]; simpl; [reflexivity|].
  destruct (Z.eqb_spec (Duel.id x) duel_id) as [E | E]; simpl.
  - destruct (Z.eqb_spec (Duel.id x) k); [lia | reflexivity].
  - now rewrite IH.
Qed.

Lemma find_duel_row (duel_id : Z) (ds : list Duel.t) (d : Duel.t) :
  find_duel duel_id ds = Some d -> In d ds.
Proof. unfold find_duel. intros H. now apply find_some in H. Qed.

(** ** What a submission touches *)

(** A submission changes no question, no user row but the caller's, and no
    duel row but, possibly, its own ACTIVE duel, which it completes with a
    winner that is the caller or the duel's bot. *)
Lemma submit_solution_effect
  (autoflush : bool) (server_tz : option Z) (db : Dialect) (st : Store)
  (clock : Z) (g : Rng) (run : execution) (duel_id user_id time_taken : Z) :
  let st' :=
    store_after
      (submit_solution autoflush server_tz db st clock g run duel_id user_id
         time_taken) in
  questions st' = questions st
  /\ (forall k, k <> user_id ->
        find_user k (users st') = find_user k (users st))
  /\ (duels st' = duels st
      \/ exists duel w,
           find_duel duel_id (duels st) = Some duel
           /\ Duel.status duel = ACTIVE
           /\ (Duel.challenger_id duel = user_id
               \/ Duel.opponent_id duel = Some user_id)
           /\ (forall x, w = Some x ->
                 x = user_id \/ (x < 0 /\ Duel.opponent_id duel = Some x))
           /\ duels st'
              = db_update (Duel.id duel) (complete w (now_utc clock))
                  (duels st)).
Proof.
  unfold submit_solution.
  destruct (find_duel duel_id (duels st)) as [duel|] eqn:Hfind; [|simpl; auto].
  destruct (Duel.status duel) eqn:Hstatus; cbn [status_eqb negb];
    try (simpl; auto; fail).
  destruct (negb (Duel.challenger_id duel =? user_id)
            && negb (opt_eqb (Duel.opponent_id duel) user_id)) eqn:Hguard;
    [simpl; auto|].
  assert (Hpart : Duel.challenger_id duel = user_id
                  \/ Duel.opponent_id duel = Some user_id).
  { apply andb_false_iff in Hguard.
    destruct Hguard as [H | H]; apply negb_false_iff in H.
    - left. now apply Z.eqb_eq.
    - right. destruct (Duel.opponent_id duel) as [o|]; [|discriminate].
      simpl in H. apply Z.eqb_eq in H. now subst. }
  destruct (find_question (Duel.question_id duel) (questions st))
    as [question|]; [|simpl; auto].
  destruct run as [judge| |e]; [|simpl; auto|simpl; auto].
  cbv zeta.
  set (attempt := new_attempt server_tz question judge user_id time_taken
                    clock).
  pose proof (winner_is_submitter_or_bot autoflush server_tz st clock g judge
                user_id time_taken duel question) as Hwho.
  set (winner := determine_winner autoflush server_tz st clock g judge user_id
                   time_taken duel question) in *.
  destruct (completes winner _ _ _) as [e | finished]; [simpl; auto|].
  destruct finished; [|simpl; auto].
  unfold complete_and_reward.
  assert (Hdone : forall s : Session,
             s = {| committed := st;
                    working :=
                      with_duels (with_attempts st (attempts st ++ [attempt]))
                        (db_update (Duel.id duel)
                           (complete winner (now_utc clock)) (duels st)) |} ->
             questions (working s) = questions st
             /\ (forall k, k <> user_id ->
                   find_user k (users (working s)) = find_user k (users st))
             /\ (duels (working s) = duels st
                 \/ exists duel0 w,
                      Some duel = Some duel0
                      /\ Duel.status duel0 = ACTIVE
                      /\ (Duel.challenger_id duel0 = user_id
                          \/ Duel.opponent_id duel0 = Some user_id)
                      /\ (forall x, w = Some x ->
                            x = user_id
                            \/ (x < 0 /\ Duel.opponent_id duel0 = Some x))
                      /\ duels (working s)
                         = db_update (Duel.id duel0)
                             (complete w (now_utc clock)) (duels st))).
  { intros s ->. simpl. split; [reflexivity|]. split; [reflexivity|].
    right. exists duel, winner. auto. }
  destruct winner as [w|] eqn:Hw; [|now apply Hdone].
  destruct (negb (w =? 0) && (0 <? w)) eqn:Hpos; [|now apply Hdone].
  unfold award_xp. cbn [working pending with_duels with_attempts users].
  destruct (find_user w (users st)) as [u|]; [|now apply Hdone].
  destruct (User.xp u) as [old|]; [|simpl; auto].
  destruct (storable db _); simpl; [|auto].
  split; [reflexivity|]. split.
  - intros k Hk. apply find_user_update_other; [|reflexivity].
    apply andb_true_iff in Hpos. destruct Hpos as [_ Hpos].
    apply Z.ltb_lt in Hpos.
    destruct (Hwho w eq_refl) as [-> | [Hneg _]]; [exact Hk | lia].
  - right. exists duel, (Some w). auto.
Qed.

(** ** The shape of duel rows *)

Lemma lifecycle_assign_opponent (d : Duel.t) (o : Z) :
  lifecycle d ->
  Duel.status d = WAITING ->
  (0 < Duel.challenger_id d -> o <> Duel.challenger_id d) ->
  lifecycle (assign_opponent o d).
Proof.
  intros (Hw & Hc & Hwin & Hside & Hself) Hs Ho.
  assert (Hnot : Duel.completed_at d = None).
  { destruct (Duel.completed_at d) eqn:E; [|reflexivity].
    assert (Duel.status d = COMPLETED) by (apply Hc; congruence). congruence. }
  assert (Hnowin : Duel.winner_id d = None).
  { destruct (Duel.winner_id d) eqn:E; [|reflexivity].
    assert (Duel.status d = COMPLETED) by (apply Hwin; congruence).
    congruence. }
  unfold lifecycle. simpl. rewrite Hnot, Hnowin.
  repeat split; try congruence.
  intros Hpos E. injection E as E. now apply Ho.
Qed.

Lemma lifecycle_complete (d : Duel.t) (w : option Z) (t : datetime) :
  lifecycle d ->
  Duel.status d = ACTIVE ->
  (forall x, w = Some x ->
     Duel.challenger_id d = x \/ Duel.opponent_id d = Some x) ->
  lifecycle (complete w t d).
Proof.
  intros (Hw & Hc & Hwin & Hside & Hself) Hs Hx.
  unfold lifecycle. simpl. repeat split; try congruence; auto.
  intros E. apply Hw in E. congruence.
Qed.

Lemma lifecycle_matchmaking (st : Store) (clock duel_id : Z) :
  invariant st ->
  Forall lifecycle (duels st) ->
  Forall lifecycle (duels (snd (_attempt_matchmaking st clock duel_id))).
Proof.
  intros Hinv Hall. unfold _attempt_matchmaking.
  destruct (find_duel duel_id (duels st)) as [duel|] eqn:Hfind; [|exact Hall].
  pose proof (find_duel_id _ _ _ Hfind) as Hid.
  destruct (Duel.status duel) eqn:Hstatus; simpl; try exact Hall.
  assert (Hupdate : forall o,
             (0 < Duel.challenger_id duel -> o <> Duel.challenger_id duel) ->
             Forall lifecycle
               (db_update (Duel.id duel) (assign_opponent o) (duels st))).
  { intros o Ho. apply Forall_db_update; [exact Hall|].
    intros d Hd. rewrite Hid, Hfind in Hd. injection Hd as <-.
    apply lifecycle_assign_opponent; auto.
    rewrite Forall_forall in Hall. apply Hall.
    now apply (find_duel_row duel_id). }
  destruct (find (peer_filter duel) (duels st)) as [peer|] eqn:Hpeer.
  - simpl. apply Forall_db_delete. apply Hupdate. intros _ E.
    apply find_some in Hpeer. destruct Hpeer as [_ Hfilter].
    unfold peer_filter in Hfilter. rewrite E, Z.eqb_refl in Hfilter.
    simpl in Hfilter. rewrite andb_false_r in Hfilter. discriminate.
  - destruct (seconds 30 <? _); [|exact Hall].
    unfold _assign_bot_opponent.
    destruct (find_question (Duel.question_id duel) (questions st))
      as [question|] eqn:Hq; [|exact Hall].
    destruct (negb (- Question.difficulty question =? 0)); [|exact Hall].
    simpl. apply Hupdate. intros Hpos.
    destruct Hinv as (_ & Htiers & _).
    apply find_some in Hq. destruct Hq as [Hq _].
    unfold tiers_valid in Htiers. rewrite Forall_forall in Htiers.
    specialize (Htiers _ Hq). lia.
Qed.

(** Inserting the row of a caller without open duel keeps the invariant. *)
Lemma invariant_new_duel (st : Store) (duel : Duel.t) :
  invariant st ->
  Duel.id duel = next_duel_id (duels st) ->
  Duel.opponent_id duel = None ->
  existing_duel (duels st) (Duel.challenger_id duel) = None ->
  invariant (with_duels st (duels st ++ [duel])).
Proof.
  intros (Hkeys & Htiers & Hexcl) Hid Hopp Hnone.
  split; [|split; [exact Htiers|]].
  - unfold keys_unique. simpl. rewrite map_app. simpl.
    apply NoDup_app; [exact Hkeys | repeat constructor; simpl; tauto |].
    intros k Hk [<- | []]. apply keys_below_next in Hk. lia.
  - intros P HP. unfold open_duels_of. simpl.
    rewrite filter_app, length_app. specialize (Hexcl P HP).
    unfold open_duels_of in Hexcl. simpl.
    destruct (engaged P duel) eqn:E; simpl; [|lia].
    unfold engaged in E. rewrite Hopp in E. simpl in E.
    rewrite orb_false_r in E. apply andb_true_iff in E. destruct E as [E _].
    apply Z.eqb_eq in E. subst P.
    apply find_none_filter in Hnone. unfold existing_duel in Hnone.
    rewrite Hnone. simpl. lia.
Qed.

Lemma reachable_lifecycle
  (autoflush : bool) (server_tz : option Z) (db : Dialect) (st : Store) :
  reachable autoflush server_tz db st -> Forall lifecycle (duels st).
Proof.
  induction 1 as [st Hempty _
                 | st clock question_id challenger_id Hreach IH
                 | st duel_id user_id Hreach IH
                 | st clock duel_id Hreach IH
                 | st clock g run duel_id user_id time_taken Hreach IH
                 | st clock Hreach IH
                 | st st' _ IH Hd _].
  - rewrite Hempty. constructor.
  - pose proof (reachable_invariant _ _ _ _ Hreach) as Hinv.
    unfold create_duel.
    destruct (find_question question_id (questions st)); [|exact IH].
    destruct (negb (is_code (Question.type t))); [exact IH|].
    destruct (existing_duel (duels st) challenger_id) eqn:Hnone; [exact IH|].
    set (duel := Duel.mk (next_duel_id (duels st)) challenger_id None
                   question_id WAITING None (server_now server_tz clock) None).
    set (st1 := with_duels st (duels st ++ [duel])).
    assert (Hinv1 : invariant st1)
      by (apply invariant_new_duel; auto).
    assert (Hall1 : Forall lifecycle (duels st1)).
    { unfold st1. simpl. apply Forall_app. split; [exact IH|].
      constructor; [|constructor].
      unfold lifecycle, duel. simpl. repeat split; try congruence. }
    pose proof (lifecycle_matchmaking st1 clock (Duel.id duel) Hinv1 Hall1)
      as H.
    destruct (find_duel (Duel.id duel)
                (duels (snd (_attempt_matchmaking st1 clock (Duel.id duel)))));
      exact H.
  - unfold join_duel.
    destruct (find_duel duel_id (duels st)) as [duel|] eqn:Hfind; [|exact IH].
    pose proof (find_duel_id _ _ _ Hfind) as Hid.
    destruct (Duel.status duel) eqn:Hstatus; simpl; try exact IH.
    destruct (Z.eqb_spec (Duel.challenger_id duel) user_id); [exact IH|].
    destruct (Duel.opponent_id duel); [exact IH|].
    destruct (existing_duel (duels st) user_id); [exact IH|].
    simpl. apply Forall_db_update; [exact IH|].
    intros d Hd. rewrite Hid, Hfind in Hd. injection Hd as <-.
    apply lifecycle_assign_opponent; auto.
    rewrite Forall_forall in IH. apply IH. now apply (find_duel_row duel_id).
  - apply lifecycle_matchmaking; [|exact IH].
    now apply (reachable_invariant autoflush server_tz db).
  - destruct (submit_solution_effect autoflush server_tz db st clock g run
                duel_id user_id time_taken) as (_ & _ & Hd).
    destruct Hd as [-> | (duel & w & Hfind & Hs & Hpart & Hw & ->)];
      [exact IH|].
    pose proof (find_duel_id _ _ _ Hfind) as Hid.
    apply Forall_db_update; [exact IH|].
    intros d Hd. rewrite Hid, Hfind in Hd. injection Hd as <-.
    apply lifecycle_complete; auto.
    + rewrite Forall_forall in IH. apply IH.
      now apply (find_duel_row duel_id).
    + intros x Hx. destruct (Hw x Hx) as [-> | [_ Ho]]; [|now right].
      destruct Hpart; auto.
  - rewrite cleanup_old_duels_duels.
    + now apply Forall_filter_rows.
    + now apply (reachable_invariant autoflush server_tz db st Hreach).
  - now rewrite Hd.
Qed.

(** Replaying the sample run. *)
Ltac replay_tour :=
  unfold Tour.played, Tour.paired, Tour.joined, Tour.created;
  repeat first [apply reach_submit | apply reach_join | apply reach_create];
  apply reach_init;
  [ reflexivity
  | unfold tiers_valid; simpl; repeat constructor; simpl; lia ].

(** X1. In every store the engine reaches, a duel has no opponent exactly
    while it is WAITING, has a [completed_at] exactly when it is COMPLETED,
    and has a winner recorded only when it is COMPLETED. *)
Theorem duel_rows_keep_shape
  (autoflush : bool) (server_tz : option Z) (db : Dialect) (st : Store)
  (d : Duel.t) :
  reachable autoflush server_tz db st ->
  In d (duels st) ->
  (Duel.status d = WAITING <-> Duel.opponent_id d = None)
  /\ (Duel.status d = COMPLETED <-> Duel.completed_at d <> None)
  /\ (Duel.winner_id d <> None -> Duel.status d = COMPLETED).
Proof.
  intros Hreach Hin.
  pose proof (reachable_lifecycle autoflush server_tz db st Hreach) as Hall.
  rewrite Forall_forall in Hall.
  destruct (Hall d Hin) as (H1 & H2 & H3 & _). auto.
Qed.

Lemma duel_rows_keep_shape_witness :
  (Duel.status Tour.final_row = WAITING
   <-> Duel.opponent_id Tour.final_row = None)
  /\ (Duel.status Tour.final_row = COMPLETED
      <-> Duel.completed_at Tour.final_row <> None)
  /\ (Duel.winner_id Tour.final_row <> None ->
      Duel.status Tour.final_row = COMPLETED).
Proof.
  apply (duel_rows_keep_shape true None SQLite Tour.played Tour.final_row).
  - replay_tour.
  - left. reflexivity.
Defined.

(** X2. In every store the engine reaches, the recorded winner of a duel is
    one of its two sides: the challenger or the opponent (human or bot). *)
Theorem winner_is_a_side
  (autoflush : bool) (server_tz : option Z) (db : Dialect) (st : Store)
  (d : Duel.t) (w : Z) :
  reachable autoflush server_tz db st ->
  In d (duels st) ->
  Duel.winner_id d = Some w ->
  Duel.challenger_id d = w \/ Duel.opponent_id d = Some w.
Proof.
  intros Hreach Hin Hw.
  pose proof (reachable_lifecycle autoflush server_tz db st Hreach) as Hall.
  rewrite Forall_forall in Hall.
  destruct (Hall d Hin) as (_ & _ & _ & H & _). auto.
Qed.

Lemma winner_is_a_side_witness :
  Duel.challenger_id Tour.final_row = Sample.alice
  \/ Duel.opponent_id Tour.final_row = Some Sample.alice.
Proof.
  apply (winner_is_a_side true None SQLite Tour.played Tour.final_row
           Sample.alice).
  - replay_tour.
  - left. reflexivity.
  - reflexivity.
Defined.

(** X3. In every store the engine reaches, a duel created by a human
    (positive id) never has its challenger as opponent, whether the opponent
    came by [join_duel], by peer matching or as a bot. *)
Theorem no_self_pairing
  (autoflush : bool) (server_tz : option Z) (db : Dialect) (st : Store)
  (d : Duel.t) :
  reachable autoflush server_tz db st ->
  In d (duels st) ->
  0 < Duel.challenger_id d ->
  Duel.opponent_id d <> Some (Duel.challenger_id d).
Proof.
  intros Hreach Hin Hpos.
  pose proof (reachable_lifecycle autoflush server_tz db st Hreach) as Hall.
  rewrite Forall_forall in Hall.
  destruct (Hall d Hin) as (_ & _ & _ & _ & H). auto.
Qed.

Lemma no_self_pairing_witness :
  Duel.opponent_id Tour.final_row <> Some (Duel.challenger_id Tour.final_row).
Proof.
  apply (no_self_pairing true None SQLite Tour.played Tour.final_row).
  - replay_tour.
  - left. reflexivity.
  - reflexivity.
Defined.

(** ** Rows the engine leaves alone *)

Lemma other_key (ds : list Duel.t) (d x : Duel.t) :
  NoDup (map Duel.id ds) -> In d ds -> In x ds ->
  Duel.status d <> Duel.status x -> Duel.id d <> Duel.id x.
Proof.
  intros Hkeys Hd Hx Hs E. apply Hs.
  now rewrite (key_determines_row ds d x Hkeys Hd Hx E).
Qed.

Lemma matchmaking_keeps_matched_rows (st : Store) (clock duel_id : Z)
  (d : Duel.t) :
  keys_unique st ->
  In d (duels st) ->
  Duel.status d <> WAITING ->
  In d (duels (snd (_attempt_matchmaking st clock duel_id))).
Proof.
  intros Hkeys Hin Hs. unfold _attempt_matchmaking.
  destruct (find_duel duel_id (duels st)) as [duel|] eqn:Hfind; [|exact Hin].
  pose proof (find_duel_row _ _ _ Hfind) as Hduel.
  destruct (Duel.status duel) eqn:Hstatus; simpl; try exact Hin.
  assert (Hk : Duel.id d <> Duel.id duel).
  { apply (other_key (duels st)); auto. congruence. }
  destruct (find (peer_filter duel) (duels st)) as [peer|] eqn:Hpeer.
  - simpl. apply find_some in Hpeer. destruct Hpeer as [Hp Hfilter].
    unfold peer_filter in Hfilter.
    repeat (apply andb_true_iff in Hfilter; destruct Hfilter as [Hfilter ?]).
    apply status_eqb_eq in Hfilter.
    apply In_db_delete_other.
    + now apply In_db_update_other.
    + apply (other_key (duels st)); auto. congruence.
  - destruct (seconds 30 <? _); [|exact Hin].
    destruct (_assign_bot_opponent st duel) as [bot_id|]; [|exact Hin].
    destruct (negb (bot_id =? 0)); [|exact Hin].
    simpl. now apply In_db_update_other.
Qed.

(** X4. COMPLETED is terminal: whatever operation the engine runs next on a
    store it has reached, every COMPLETED duel row is still there, unchanged
    (status, winner, completion time and sides). *)
Theorem completed_is_terminal
  (autoflush : bool) (server_tz : option Z) (db : Dialect) (st st' : Store)
  (d : Duel.t) :
  reachable autoflush server_tz db st ->
  engine_step autoflush server_tz db st st' ->
  In d (duels st) ->
  Duel.status d = COMPLETED ->
  In d (duels st').
Proof.
  intros Hreach Hstep Hin Hs.
  pose proof (reachable_invariant _ _ _ _ Hreach) as Hinv.
  destruct Hinv as (Hkeys & Htiers & Hexcl).
  destruct Hstep as [st clock question_id challenger_id
                    | st duel_id user_id
                    | st clock duel_id
                    | st clock g run duel_id user_id time_taken
                    | st clock].
  - unfold create_duel.
    destruct (find_question question_id (questions st)); [|exact Hin].
    destruct (negb (is_code (Question.type t))); [exact Hin|].
    destruct (existing_duel (duels st) challenger_id) eqn:Hnone; [exact Hin|].
    set (duel := Duel.mk (next_duel_id (duels st)) challenger_id None
                   question_id WAITING None (server_now server_tz clock) None).
    set (st1 := with_duels st (duels st ++ [duel])).
    assert (Hinv1 : invariant st1)
      by (apply invariant_new_duel; repeat split; auto).
    assert (H : In d (duels (snd (_attempt_matchmaking st1 clock
                                    (Duel.id duel))))).
    { apply matchmaking_keeps_matched_rows.
      - apply Hinv1.
      - unfold st1. simpl. apply in_or_app. now left.
      - congruence. }
    destruct (find_duel (Duel.id duel)
                (duels (snd (_attempt_matchmaking st1 clock (Duel.id duel)))));
      exact H.
  - unfold join_duel.
    destruct (find_duel duel_id (duels st)) as [duel|] eqn:Hfind; [|exact Hin].
    pose proof (find_duel_row _ _ _ Hfind) as Hduel.
    destruct (Duel.status duel) eqn:Hstatus; simpl; try exact Hin.
    destruct (Duel.challenger_id duel =? user_id); [exact Hin|].
    destruct (Duel.opponent_id duel); [exact Hin|].
    destruct (existing_duel (duels st) user_id); [exact Hin|].
    simpl. apply In_db_update_other; [exact Hin|].
    apply (other_key (duels st)); auto. congruence.
  - apply matchmaking_keeps_matched_rows; auto. congruence.
  - destruct (submit_solution_effect autoflush server_tz db st clock g run
                duel_id user_id time_taken) as (_ & _ & Hd).
    destruct Hd as [-> | (duel & w & Hfind & Hactive & _ & _ & ->)];
      [exact Hin|].
    apply In_db_update_other; [exact Hin|].
    apply (other_key (duels st)); auto.
    + now apply (find_duel_row duel_id).
    + congruence.
  - rewrite cleanup_old_duels_duels by exact Hkeys.
    apply filter_In. split; [exact Hin|].
    unfold expired. now rewrite Hs.
Qed.

Lemma completed_is_terminal_witness :
  In Tour.final_row
    (duels
       (store_after
          (submit_solution true None SQLite Tour.played (seconds 90)
             Sample.bot_hits (Response (Some true)) 1 Sample.bob 7))).
Proof.
  apply (completed_is_terminal true None SQLite Tour.played _ Tour.final_row).
  - replay_tour.
  - apply step_submit.
  - left. reflexivity.
  - reflexivity.
Defined.

(** ** How a submission fails *)


(** Whatever [submit_solution] raises, it raises before anything is
    committed. *)
Lemma submit_solution_raises_in_place
  (autoflush : bool) (server_tz : option Z) (db : Dialect) (st : Store)
  (clock : Z) (g : Rng) (run : execution) (duel_id user_id time_taken : Z)
  (e : exn) (s : Store) :
  submit_solution autoflush server_tz db st clock g run duel_id user_id
    time_taken = Raised e s ->
  s = st.
Proof.
  unfold submit_solution.
  destruct (find_duel duel_id (duels st)) as [duel|];
    [|intros H; now injection H as _ <-].
  destruct (negb (status_eqb (Duel.status duel) ACTIVE));
    [intros H; now injection H as _ <-|].
  destruct (negb (Duel.challenger_id duel =? user_id)
            && negb (opt_eqb (Duel.opponent_id duel) user_id));
    [intros H; now injection H as _ <-|].
  destruct (status_eqb (Duel.status duel) COMPLETED);
    [intros H; now injection H as _ <-|].
  destruct (find_question (Duel.question_id duel) (questions st))
    as [question|]; [|intros H; now injection H as _ <-].
  destruct run as [judge| |e']; try (intros H; now injection H as _ <-).
  cbv zeta. destruct (completes _ _ _ _); [|discriminate].
  intros H. now injection H as _ <-.
Qed.

(** The comparison of line 245 raises nothing but a [TypeError]. *)
Lemma completes_raises_type_error (w : option Z)
  (ca oa : option QuestionAttempt.t) (opponent : option Z) (e : exn) :
  completes w ca oa opponent = inl e ->
  opponent = None
  /\ e = TypeError
           "'<' not supported between instances of 'NoneType' and 'int'".
Proof.
  unfold completes. destruct (truthy w); [discriminate|].
  destruct ca; [|discriminate]. destruct oa; [discriminate|].
  destruct opponent; [discriminate|]. intros H. injection H as <-. now split.
Qed.

(** X5. How [submit_solution] fails.  Its checks come in this order: the duel
    exists ("Duel not found"), it is ACTIVE ("Duel is not active"), the caller
    is one of its sides ("You are not a participant in this duel"), its
    question exists ("Question not found").  Then the execution service is
    called: an exception of the service propagates, and a [dict] result
    raises [AttributeError].  Whatever the call raises, the store is as
    before.  The check "Duel is already completed" is dead: that error can
    only come from the execution service. *)
Theorem submit_solution_failures
  (autoflush : bool) (server_tz : option Z) (db : Dialect) (st : Store)
  (clock : Z) (g : Rng) (run : execution) (duel_id user_id time_taken : Z) :
  let call :=
    submit_solution autoflush server_tz db st clock g run duel_id user_id
      time_taken in
  (find_duel duel_id (duels st) = None ->
   call = Raised (ValueError "Duel not found") st)
  /\ (forall duel,
        find_duel duel_id (duels st) = Some duel ->
        (Duel.status duel <> ACTIVE ->
         call = Raised (ValueError "Duel is not active") st)
        /\ (Duel.status duel = ACTIVE ->
            Duel.challenger_id duel <> user_id ->
            Duel.opponent_id duel <> Some user_id ->
            call
            = Raised (ValueError "You are not a participant in this duel") st)
        /\ (Duel.status duel = ACTIVE ->
            Duel.challenger_id duel = user_id
            \/ Duel.opponent_id duel = Some user_id ->
            match find_question (Duel.question_id duel) (questions st) with
            | None => call = Raised (ValueError "Question not found") st
            | Some _ =>
                (forall e, run = Failure e -> call = Raised e st)
                /\ (run = Dict ->
                    call
                    = Raised
                        (AttributeError
                           "'dict' object has no attribute 'is_correct'")
                        st)
            end))
  /\ (forall e s, call = Raised e s -> s = st)
  /\ (forall s,
        call = Raised (ValueError "Duel is already completed") s ->
        run = Failure (ValueError "Duel is already completed")).
Proof.
  intros call. split; [|split; [|split]].
  - intros Hfind. unfold call, submit_solution. now rewrite Hfind.
  - intros duel Hfind. split; [|split].
    + intros Hs. unfold call, submit_solution. rewrite Hfind.
      destruct (Duel.status duel); [reflexivity | contradiction | reflexivity].
    + intros Hs Hc Ho. unfold call, submit_solution. rewrite Hfind, Hs.
      cbn [status_eqb negb].
      destruct (Z.eqb_spec (Duel.challenger_id duel) user_id);
        [contradiction|].
      destruct (Duel.opponent_id duel) as [o|]; cbn [opt_eqb negb andb];
        [|reflexivity].
      destruct (Z.eqb_spec o user_id); [congruence | reflexivity].
    + intros Hs Hpart. unfold call, submit_solution. rewrite Hfind, Hs.
      cbn [status_eqb negb].
      assert (Hguard : negb (Duel.challenger_id duel =? user_id)
                       && negb (opt_eqb (Duel.opponent_id duel) user_id)
                       = false).
      { destruct Hpart as [<- | ->].
        - now rewrite Z.eqb_refl.
        - simpl. rewrite Z.eqb_refl. apply andb_false_r. }
      rewrite Hguard.
      destruct (find_question (Duel.question_id duel) (questions st));
        [|reflexivity].
      split; [intros e ->; reflexivity | intros ->; reflexivity].
  - intros e s. apply submit_solution_raises_in_place.
  - intros s. unfold call, submit_solution.
    destruct (find_duel duel_id (duels st)) as [duel|]; [|discriminate].
    destruct (Duel.status duel); cbn [status_eqb negb]; try discriminate.
    destruct (negb (Duel.challenger_id duel =? user_id)
              && negb (opt_eqb (Duel.opponent_id duel) user_id));
      [discriminate|].
    destruct (find_question (Duel.question_id duel) (questions st))
      as [question|]; [|discriminate].
    destruct run as [judge| |e']; [|discriminate|].
    + cbv zeta. destruct (completes _ _ _ _) as [err|] eqn:Hc; [|discriminate].
      apply completes_raises_type_error in Hc. destruct Hc as [_ ->].
      discriminate.
    + intros H. now injection H as ->.
Qed.

(** An ACTIVE duel without an opponent, which no operation of the engine
    produces: once an attempt of the challenger is on record, a wrong
    submission of the challenger raises at line 245 on
    [duel.opponent_id < 0]. *)
Example lonely_duel_raises :
  submit_solution false None SQLite Tour.lonely (seconds 40) Sample.bot_hits
    (Response (Some false)) 1 Sample.alice 5
  = Raised
      (TypeError "'<' not supported between instances of 'NoneType' and 'int'")
      Tour.lonely
  /\ submit_solution false None SQLite Tour.joined (seconds 40)
       Sample.bot_hits Dict 1 Sample.alice 5
     = Raised (AttributeError "'dict' object has no attribute 'is_correct'")
         Tour.joined
  /\ submit_solution false None SQLite Tour.joined (seconds 40)
       Sample.bot_hits (Failure (HTTPException 408 "Code execution timeout"))
       1 Sample.alice 5
     = Raised (HTTPException 408 "Code execution timeout") Tour.joined.
Proof. repeat split. Qed.




(** ** Joining *)

Lemma length_db_update (k : Z) (f : Duel.t -> Duel.t) (ds : list Duel.t) :
  List.length (db_update k f ds) = List.length ds.
Proof.
  induction ds as [|x rest IH]; simpl; [reflexivity|].
  destruct (Duel.id x =? k); simpl; congruence.
Qed.

Lemma length_db_delete (k : Z) (ds : list Duel.t) (d : Duel.t) :
  find_duel k ds = Some d ->
  S (List.length (db_delete k ds)) = List.length ds.
Proof.
  unfold find_duel. induction ds as [|x rest IH]; simpl; [discriminate|].
  destruct (Duel.id x =? k); simpl; [reflexivity|].
  intros H. now rewrite IH.
Qed.

(** X7. [join_duel] is all or nothing.  When it returns, the duel was WAITING
    without opponent, created by someone else, and the caller had no open
    duel; the duel is then stored ACTIVE with the caller as opponent, every
    other duel row and every other table being as before.  When it raises,
    the store is as before and one of those conditions failed. *)
Theorem join_duel_all_or_nothing (st : Store) (duel_id user_id : Z) :
  match join_duel st duel_id user_id with
  | Returned joined st' =>
      exists duel,
        find_duel duel_id (duels st) = Some duel
        /\ Duel.status duel = WAITING
        /\ Duel.challenger_id duel <> user_id
        /\ Duel.opponent_id duel = None
        /\ open_duels_of user_id st = []
        /\ joined = assign_opponent user_id duel
        /\ Duel.status joined = ACTIVE
        /\ Duel.opponent_id joined = Some user_id
        /\ find_duel duel_id (duels st') = Some joined
        /\ (forall k, k <> duel_id ->
              find_duel k (duels st') = find_duel k (duels st))
        /\ List.length (duels st') = List.length (duels st)
        /\ attempts st' = attempts st
        /\ users st' = users st
        /\ questions st' = questions st
  | Raised e s =>
      s = st
      /\ ~ (exists duel,
              find_duel duel_id (duels st) = Some duel
              /\ Duel.status duel = WAITING
              /\ Duel.challenger_id duel <> user_id
              /\ Duel.opponent_id duel = None
              /\ open_duels_of user_id st = [])
  end.
Proof.
  unfold join_duel.
  destruct (find_duel duel_id (duels st)) as [duel|] eqn:Hfind.
  2:{ split; [reflexivity|]. intros (d & H & _). discriminate. }
  pose proof (find_duel_id _ _ _ Hfind) as Hid.
  destruct (Duel.status duel) eqn:Hstatus; cbn [status_eqb negb].
  2,3: split; [reflexivity|]; intros (d & H & Hs & _);
       injection H as <-; congruence.
  destruct (Z.eqb_spec (Duel.challenger_id duel) user_id) as [Hc | Hc].
  { split; [reflexivity|]. intros (d & H & _ & Hne & _).
    injection H as <-. contradiction. }
  destruct (Duel.opponent_id duel) as [o|] eqn:Ho.
  { split; [reflexivity|]. intros (d & H & _ & _ & Hnone & _).
    injection H as <-. congruence. }
  destruct (existing_duel (duels st) user_id) as [x|] eqn:Hex.
  { split; [reflexivity|]. intros (d & _ & _ & _ & _ & Hopen).
    unfold existing_duel in Hex. apply find_some in Hex.
    destruct Hex as [Hin Heng].
    assert (In x (open_duels_of user_id st))
      by (apply filter_In; auto).
    rewrite Hopen in H. contradiction. }
  exists duel.
  split; [reflexivity|]. split; [exact Hstatus|]. split; [exact Hc|].
  split; [exact Ho|].
  split; [apply find_none_filter; exact Hex|].
  split; [reflexivity|]. split; [reflexivity|]. split; [reflexivity|].
  split.
  { simpl. rewrite Hid.
    apply find_duel_db_update; [exact Hfind | reflexivity]. }
  split.
  { intros k Hk. simpl. rewrite Hid.
    apply find_duel_db_update_other; [exact Hk | reflexivity]. }
  split; [simpl; apply length_db_update|].
  repeat split.
Qed.

(** ** Matchmaking *)

Lemma find_duel_db_delete_same (k : Z) (ds : list Duel.t) :
  NoDup (map Duel.id ds) -> find_duel k (db_delete k ds) = None.
Proof.
  intros Hkeys. rewrite db_delete_filter by exact Hkeys.
  unfold find_duel.
  destruct (find _ (filter _ ds)) as [x|] eqn:E; [|reflexivity].
  apply find_some in E. destruct E as [Hin E].
  apply filter_In in Hin. destruct Hin as [_ Hne].
  rewrite E in Hne. discriminate.
Qed.

(** What the peer search returns. *)
Lemma peer_found (duel peer : Duel.t) (ds : list Duel.t) :
  find (peer_filter duel) ds = Some peer ->
  In peer ds
  /\ Duel.status peer = WAITING
  /\ Duel.question_id peer = Duel.question_id duel
  /\ Duel.challenger_id peer <> Duel.challenger_id duel
  /\ Duel.id peer <> Duel.id duel
  /\ Duel.opponent_id peer = None.
Proof.
  intros Hpeer. apply find_some in Hpeer. destruct Hpeer as [Hin Hfilter].
  unfold peer_filter in Hfilter.
  repeat (apply andb_true_iff in Hfilter; destruct Hfilter as [Hfilter ?]).
  apply status_eqb_eq in Hfilter.
  split; [exact Hin|]. split; [exact Hfilter|].
  split; [now apply Z.eqb_eq|].
  split; [intros E; rewrite E, Z.eqb_refl in *; discriminate|].
  split; [intros E; rewrite E, Z.eqb_refl in *; discriminate|].
  destruct (Duel.opponent_id peer); [discriminate | reflexivity].
Qed.

(** The store a successful peer match leaves. *)
Lemma peer_match_run (st : Store) (clock duel_id : Z) (duel peer : Duel.t) :
  find_duel duel_id (duels st) = Some duel ->
  Duel.status duel = WAITING ->
  find (peer_filter duel) (duels st) = Some peer ->
  _attempt_matchmaking st clock duel_id
  = (true,
     with_duels st
       (db_delete (Duel.id peer)
          (db_update (Duel.id duel)
             (assign_opponent (Duel.challenger_id peer)) (duels st)))).
Proof.
  intros Hfind Hstatus Hpeer. unfold _attempt_matchmaking.
  rewrite Hfind, Hstatus. simpl. now rewrite Hpeer.
Qed.

(** The peer's row is gone after the match. *)
Lemma peer_row_deleted (ds : list Duel.t) (duel peer : Duel.t) (o : Z) :
  NoDup (map Duel.id ds) ->
  find_duel (Duel.id peer)
    (db_delete (Duel.id peer)
       (db_update (Duel.id duel) (assign_opponent o) ds)) = None.
Proof.
  intros Hkeys. apply find_duel_db_delete_same.
  rewrite keys_db_update; [exact Hkeys | reflexivity].
Qed.

(** X8. Peer matching.  When [_attempt_matchmaking] finds another WAITING duel
    on the same question by another challenger, it returns [True]; the duel
    becomes ACTIVE with that challenger as opponent, who is not the duel's own
    challenger; the peer's row is deleted; and every other row is as before. *)
Theorem peer_match_pairs_and_discards
  (st : Store) (clock duel_id : Z) (duel peer : Duel.t) :
  keys_unique st ->
  find_duel duel_id (duels st) = Some duel ->
  Duel.status duel = WAITING ->
  find (peer_filter duel) (duels st) = Some peer ->
  let st' := snd (_attempt_matchmaking st clock duel_id) in
  fst (_attempt_matchmaking st clock duel_id) = true
  /\ (exists paired,
        find_duel duel_id (duels st') = Some paired
        /\ Duel.status paired = ACTIVE
        /\ Duel.opponent_id paired = Some (Duel.challenger_id peer)
        /\ Duel.challenger_id paired = Duel.challenger_id duel
        /\ Duel.question_id paired = Duel.question_id duel
        /\ Duel.created_at paired = Duel.created_at duel)
  /\ Duel.challenger_id peer <> Duel.challenger_id duel
  /\ Duel.question_id peer = Duel.question_id duel
  /\ In peer (duels st)
  /\ find_duel (Duel.id peer) (duels st') = None
  /\ (forall k, k <> duel_id -> k <> Duel.id peer ->
        find_duel k (duels st') = find_duel k (duels st))
  /\ S (List.length (duels st')) = List.length (duels st).
Proof.
  intros Hkeys Hfind Hstatus Hpeer st'.
  pose proof (find_duel_id _ _ _ Hfind) as Hid.
  subst st'. rewrite (peer_match_run st clock duel_id duel peer Hfind Hstatus
                        Hpeer).
  cbn [fst snd duels with_duels].
  destruct (peer_found duel peer (duels st) Hpeer)
    as (Hin & _ & Hq & Hne & Hother & _).
  split; [reflexivity|]. split.
  { exists (assign_opponent (Duel.challenger_id peer) duel).
    split; [|repeat split].
    rewrite find_duel_db_delete_other by lia. rewrite Hid.
    apply find_duel_db_update; [exact Hfind | reflexivity]. }
  split; [exact Hne|]. split; [exact Hq|]. split; [exact Hin|]. split.
  { now apply peer_row_deleted. }
  split.
  { intros k Hk Hk'. rewrite find_duel_db_delete_other by lia.
    apply find_duel_db_update_other; [lia | reflexivity]. }
  rewrite (length_db_delete (Duel.id peer) _ peer).
  - apply length_db_update.
  - rewrite find_duel_db_update_other; [|exact Hother | reflexivity].
    now apply find_duel_of_row.
Qed.

(** X9. [_attempt_matchmaking] is safe to repeat: a call that returns [False]
    changes nothing, and after a call that returned [True] every further call
    for the same duel returns [False] and changes nothing. *)
Theorem matchmaking_settles (st : Store) (clock later duel_id : Z) :
  (fst (_attempt_matchmaking st clock duel_id) = false ->
   snd (_attempt_matchmaking st clock duel_id) = st)
  /\ (fst (_attempt_matchmaking st clock duel_id) = true ->
      _attempt_matchmaking (snd (_attempt_matchmaking st clock duel_id)) later
        duel_id
      = (false, snd (_attempt_matchmaking st clock duel_id))).
Proof.
  assert (Hactive : forall st0 d,
             find_duel duel_id (duels st0) = Some d ->
             Duel.status d = ACTIVE ->
             _attempt_matchmaking st0 later duel_id = (false, st0)).
  { intros st0 d Hd Hs. unfold _attempt_matchmaking.
    now rewrite Hd, Hs. }
  remember (_attempt_matchmaking st clock duel_id) as r eqn:Hr.
  unfold _attempt_matchmaking in Hr.
  destruct (find_duel duel_id (duels st)) as [duel|] eqn:Hfind;
    [|subst r; split; [reflexivity | discriminate]].
  pose proof (find_duel_id _ _ _ Hfind) as Hid.
  destruct (Duel.status duel) eqn:Hstatus; cbn [status_eqb negb] in Hr;
    try (subst r; split; [reflexivity | discriminate]).
  destruct (find (peer_filter duel) (duels st)) as [peer|] eqn:Hpeer.
  - subst r. split; [discriminate|]. intros _. cbn [snd].
    apply find_some in Hpeer. destruct Hpeer as [_ Hfilter].
    unfold peer_filter in Hfilter.
    repeat (apply andb_true_iff in Hfilter; destruct Hfilter as [Hfilter ?]).
    assert (Hother : Duel.id peer <> Duel.id duel).
    { intros E. rewrite E, Z.eqb_refl in *. discriminate. }
    apply (Hactive _ (assign_opponent (Duel.challenger_id peer) duel));
      [|reflexivity].
    cbn [duels with_duels].
    rewrite find_duel_db_delete_other by lia. rewrite Hid.
    apply find_duel_db_update; [exact Hfind | reflexivity].
  - cbv zeta in Hr. destruct (seconds 30 <? _);
      [|subst r; split; [reflexivity | discriminate]].
    destruct (_assign_bot_opponent st duel) as [bot_id|];
      [|subst r; split; [reflexivity | discriminate]].
    destruct (truthy (Some bot_id));
      [|subst r; split; [reflexivity | discriminate]].
    subst r. split; [discriminate|]. intros _. cbn [snd].
    apply (Hactive _ (assign_opponent bot_id duel)); [|reflexivity].
    cbn [duels with_duels]. rewrite Hid.
    apply find_duel_db_update; [exact Hfind | reflexivity].
Qed.

Lemma peer_match_pairs_and_discards_witness :
  let st' := snd (_attempt_matchmaking Sample.lobby (minutes 10) 1) in
  let duel := Duel.mk 1 Sample.alice None 1 WAITING None Sample.epoch None in
  let peer :=
    Duel.mk 2 Sample.bob None 1 WAITING None
      {| wall := minutes 8; tzinfo := None |} None in
  fst (_attempt_matchmaking Sample.lobby (minutes 10) 1) = true
  /\ (exists paired,
        find_duel 1 (duels st') = Some paired
        /\ Duel.status paired = ACTIVE
        /\ Duel.opponent_id paired = Some (Duel.challenger_id peer)
        /\ Duel.challenger_id paired = Duel.challenger_id duel
        /\ Duel.question_id paired = Duel.question_id duel
        /\ Duel.created_at paired = Duel.created_at duel)
  /\ Duel.challenger_id peer <> Duel.challenger_id duel
  /\ Duel.question_id peer = Duel.question_id duel
  /\ In peer (duels Sample.lobby)
  /\ find_duel (Duel.id peer) (duels st') = None
  /\ (forall k, k <> 1 -> k <> Duel.id peer ->
        find_duel k (duels st') = find_duel k (duels Sample.lobby))
  /\ S (List.length (duels st')) = List.length (duels Sample.lobby).
Proof.
  apply (peer_match_pairs_and_discards Sample.lobby (minutes 10) 1
           (Duel.mk 1 Sample.alice None 1 WAITING None Sample.epoch None)
           (Duel.mk 2 Sample.bob None 1 WAITING None
              {| wall := minutes 8; tzinfo := None |} None)).
  - unfold keys_unique. simpl. repeat constructor; simpl; intuition discriminate.
  - reflexivity.
  - reflexivity.
  - reflexivity.
Defined.

(** ** Creating *)

Lemma find_snoc {A : Type} (p : A -> bool) (l : list A) (x : A) :
  find p (l ++ [x])
  = match find p l with
    | Some y => Some y
    | None => if p x then Some x else None
    end.
Proof.
  induction l as [|y l IH]; simpl; [reflexivity|].
  destruct (p y); [reflexivity | exact IH].
Qed.

Lemma find_duel_fresh (ds : list Duel.t) (d : Duel.t) :
  Duel.id d = next_duel_id ds ->
  find_duel (Duel.id d) (ds ++ [d]) = Some d.
Proof.
  intros Hid. unfold find_duel. rewrite find_snoc.
  destruct (find (fun x => Duel.id x =? Duel.id d) ds) as [y|] eqn:E.
  - apply find_some in E. destruct E as [Hin E]. apply Z.eqb_eq in E.
    assert (Duel.id y < next_duel_id ds)
      by (apply keys_below_next; now apply in_map).
    lia.
  - now rewrite Z.eqb_refl.
Qed.

Lemma no_age_at_creation (server_tz : option Z) (clock : Z) :
  dt_sub (now_utc clock) (assume_utc (server_now server_tz clock)) = 0.
Proof.
  unfold dt_sub. rewrite instant_assume_utc.
  unfold utc_instant, server_now, instant, now_utc. simpl.
  destruct server_tz; lia.
Qed.

(** X10. [create_duel] for a code question, by a caller without open duel.
    If no other WAITING duel on that question by another challenger exists,
    the new duel is appended WAITING, without opponent or winner, under a
    fresh key, and that is the whole change.  If one exists, the new duel is
    returned and stored ACTIVE with that duel's challenger as opponent, and
    the other duel's row is deleted, so the table has as many rows as before.
    No bot is assigned at creation. *)
Theorem create_duel_waits_or_pairs
  (server_tz : option Z) (st : Store) (clock question_id caller : Z)
  (question : Question.t) :
  keys_unique st ->
  find_question question_id (questions st) = Some question ->
  Question.type question = CODE ->
  open_duels_of caller st = [] ->
  let fresh :=
    Duel.mk (next_duel_id (duels st)) caller None question_id WAITING None
      (server_now server_tz clock) None in
  (forall k, In k (map Duel.id (duels st)) -> k <> Duel.id fresh)
  /\ match find (peer_filter fresh) (duels st) with
     | None =>
         create_duel server_tz st clock question_id caller
         = Returned fresh (with_duels st (duels st ++ [fresh]))
     | Some peer =>
         exists paired st',
           create_duel server_tz st clock question_id caller
           = Returned paired st'
           /\ Duel.id paired = Duel.id fresh
           /\ Duel.challenger_id paired = caller
           /\ Duel.question_id paired = question_id
           /\ Duel.status paired = ACTIVE
           /\ Duel.opponent_id paired = Some (Duel.challenger_id peer)
           /\ Duel.winner_id paired = None
           /\ find_duel (Duel.id fresh) (duels st') = Some paired
           /\ find_duel (Duel.id peer) (duels st') = None
           /\ Duel.challenger_id peer <> caller
           /\ List.length (duels st') = List.length (duels st)
           /\ (forall k, k <> Duel.id fresh -> k <> Duel.id peer ->
                 find_duel k (duels st') = find_duel k (duels st))
     end.
Proof.
  intros Hkeys Hq Hcode Hopen fresh.
  assert (Hfresh : forall k, In k (map Duel.id (duels st)) ->
                     k <> Duel.id fresh).
  { intros k Hk. apply keys_below_next in Hk. simpl. lia. }
  split; [exact Hfresh|].
  assert (Hnone : existing_duel (duels st) caller = None)
    by (apply find_none_filter; exact Hopen).
  set (st1 := with_duels st (duels st ++ [fresh])).
  assert (Hfind1 : find_duel (Duel.id fresh) (duels st1) = Some fresh)
    by (apply find_duel_fresh; reflexivity).
  assert (Hpeer1 : find (peer_filter fresh) (duels st1)
                   = find (peer_filter fresh) (duels st)).
  { unfold st1. simpl. rewrite find_snoc.
    destruct (find (peer_filter fresh) (duels st)); [reflexivity|].
    unfold peer_filter. cbn [Duel.status Duel.question_id Duel.challenger_id
      Duel.id Duel.opponent_id fresh status_eqb].
    rewrite !Z.eqb_refl. reflexivity. }
  assert (Hcreate : create_duel server_tz st clock question_id caller
                    = let st2 :=
                        snd (_attempt_matchmaking st1 clock (Duel.id fresh)) in
                      match find_duel (Duel.id fresh) (duels st2) with
                      | Some refreshed => Returned refreshed st2
                      | None => Returned fresh st2
                      end).
  { unfold create_duel. rewrite Hq, Hcode, Hnone. reflexivity. }
  rewrite Hcreate. clear Hcreate. cbv zeta.
  destruct (find (peer_filter fresh) (duels st)) as [peer|] eqn:Hpeer.
  - assert (Hkeys1 : keys_unique st1).
    { unfold keys_unique, st1. simpl. rewrite map_app. simpl.
      apply NoDup_app; [exact Hkeys | repeat constructor; simpl; tauto |].
      intros k Hk [<- | []]. now apply (Hfresh _ Hk). }
    destruct (peer_found fresh peer (duels st1) Hpeer1)
      as (Hin1 & _ & _ & Hne & Hother & _).
    rewrite (peer_match_run st1 clock (Duel.id fresh) fresh peer Hfind1
               eq_refl Hpeer1).
    cbn [snd duels with_duels].
    assert (Hnew : find_duel (Duel.id fresh)
                     (db_delete (Duel.id peer)
                        (db_update (Duel.id fresh)
                           (assign_opponent (Duel.challenger_id peer))
                           (duels st1)))
                   = Some (assign_opponent (Duel.challenger_id peer) fresh)).
    { rewrite find_duel_db_delete_other by lia.
      apply find_duel_db_update; [exact Hfind1 | reflexivity]. }
    rewrite Hnew. do 2 eexists. split; [reflexivity|].
    do 6 (split; [reflexivity|]).
    cbn [duels with_duels].
    split; [exact Hnew|].
    split; [now apply peer_row_deleted|]. split; [exact Hne|].
    split.
    { assert (H1 : List.length (duels st1) = S (List.length (duels st))).
      { unfold st1. cbn [duels with_duels]. rewrite length_app. simpl. lia. }
      pose proof (length_db_delete (Duel.id peer)
                    (db_update (Duel.id fresh)
                       (assign_opponent (Duel.challenger_id peer))
                       (duels st1)) peer) as Hlen.
      rewrite length_db_update, H1 in Hlen.
      assert (S (List.length
                   (db_delete (Duel.id peer)
                      (db_update (Duel.id fresh)
                         (assign_opponent (Duel.challenger_id peer))
                         (duels st1))))
              = S (List.length (duels st))).
      { apply Hlen.
        rewrite find_duel_db_update_other; [|exact Hother | reflexivity].
        now apply find_duel_of_row. }
      lia. }
    intros k Hk Hk'. rewrite find_duel_db_delete_other by lia.
    rewrite find_duel_db_update_other; [|lia | reflexivity].
    unfold st1. simpl.
    unfold find_duel. rewrite find_snoc.
    destruct (find (fun d => Duel.id d =? k) (duels st)); [reflexivity|].
    simpl in Hk. simpl. destruct (Z.eqb_spec (next_duel_id (duels st)) k);
      [lia | reflexivity].
  - assert (Hrun : _attempt_matchmaking st1 clock (Duel.id fresh)
                   = (false, st1)).
    { unfold _attempt_matchmaking. rewrite Hfind1. cbn [Duel.status fresh].
      cbn [status_eqb negb]. rewrite Hpeer1.
      cbn [Duel.created_at fresh]. rewrite no_age_at_creation.
      reflexivity. }
    rewrite Hrun. cbn [snd]. rewrite Hfind1. reflexivity.
Qed.

Lemma create_duel_waits_or_pairs_witness :
  let fresh :=
    Duel.mk (next_duel_id (duels Tour.created)) Sample.bob None 1 WAITING None
      (server_now None (seconds 5)) None in
  (forall k, In k (map Duel.id (duels Tour.created)) -> k <> Duel.id fresh)
  /\ match find (peer_filter fresh) (duels Tour.created) with
     | None =>
         create_duel None Tour.created (seconds 5) 1 Sample.bob
         = Returned fresh (with_duels Tour.created (duels Tour.created ++ [fresh]))
     | Some peer =>
         exists paired st',
           create_duel None Tour.created (seconds 5) 1 Sample.bob
           = Returned paired st'
           /\ Duel.id paired = Duel.id fresh
           /\ Duel.challenger_id paired = Sample.bob
           /\ Duel.question_id paired = 1
           /\ Duel.status paired = ACTIVE
           /\ Duel.opponent_id paired = Some (Duel.challenger_id peer)
           /\ Duel.winner_id paired = None
           /\ find_duel (Duel.id fresh) (duels st') = Some paired
           /\ find_duel (Duel.id peer) (duels st') = None
           /\ Duel.challenger_id peer <> Sample.bob
           /\ List.length (duels st') = List.length (duels Tour.created)
           /\ (forall k, k <> Duel.id fresh -> k <> Duel.id peer ->
                 find_duel k (duels st') = find_duel k (duels Tour.created))
     end.
Proof.
  apply (create_duel_waits_or_pairs None Tour.created (seconds 5) 1 Sample.bob
           Sample.loops).
  - unfold keys_unique. simpl. repeat constructor; simpl; tauto.
  - reflexivity.
  - reflexivity.
  - reflexivity.
Defined.

Example bob_is_paired_with_alice :
  duels Tour.paired
  = [Duel.mk 2 Sample.bob (Some Sample.alice) 1 ACTIVE None
       {| wall := seconds 5; tzinfo := None |} None].
Proof. reflexivity. Qed.

(** ** Bot duels with one side correct *)



(** ** Bot profiles *)

Lemma tier_tables_agree (difficulty : Z) :
  match response_times difficulty with
  | Some t => t
  | None => 10000
  end = 1000 * base_times difficulty
  /\ 3 <= base_times difficulty <= 15.
Proof.
  unfold response_times, base_times.
  destruct difficulty as [|p|p]; [split; [reflexivity | lia] | |
                                  split; [reflexivity | lia]].
  do 3 (destruct p as [p|p|]; try (split; [reflexivity | lia])).
Qed.

(** X12. The profile [_get_bot_info] shows and the simulation agree: for
    every bot id the advertised [response_time_ms] is 1000 times the base
    time [_simulate_bot_solution] starts from, the tier is the absolute value
    of the id, and the simulated time lies within 2 seconds below and 3
    seconds above that base time, floored at 1 and never above 18. *)
Theorem bot_profile_matches_simulation (g : Rng) (bot_id : Z) (judge : verdict) :
  let info := _get_bot_info bot_id in
  let t := bot_time_taken (_simulate_bot_solution g bot_id judge) in
  BotOpponentResponse.id info = bot_id
  /\ BotOpponentResponse.difficulty_level info = Z.abs bot_id
  /\ BotOpponentResponse.response_time_ms info
     = 1000 * base_times (Z.abs bot_id)
  /\ Z.max 1 (base_times (Z.abs bot_id) - 2) <= t
  /\ t <= base_times (Z.abs bot_id) + 3
  /\ 1 <= t <= 18
  /\ 1000 * t <= BotOpponentResponse.response_time_ms info + 3000.
Proof.
  intros info t.
  destruct (tier_tables_agree (Z.abs bot_id)) as [Hms Hbase].
  pose proof (randint_range g (-2) 3 ltac:(lia)) as Hj.
  assert (Ht : t = Z.max 1 (base_times (Z.abs bot_id) + randint g (-2) 3))
    by reflexivity.
  assert (Hinfo : BotOpponentResponse.response_time_ms info
                  = 1000 * base_times (Z.abs bot_id)).
  { unfold info, _get_bot_info. cbn [BotOpponentResponse.response_time_ms].
    exact Hms. }
  split; [reflexivity|]. split; [reflexivity|]. split; [exact Hinfo|].
  rewrite Hinfo. lia.
Qed.

(** ** Cleaning twice *)

Lemma expired_later (c1 c2 : Z) (d : Duel.t) :
  c1 <= c2 -> expired c1 d = true -> expired c2 d = true.
Proof.
  unfold expired, age. intros Hle H.
  apply andb_true_iff in H. destruct H as [Hs H]. rewrite Hs. simpl.
  apply Z.ltb_lt in H. apply Z.ltb_lt. lia.
Qed.

Lemma cleanup_count (st : Store) (clock : Z) :
  fst (cleanup_old_duels st clock)
  = Z.of_nat (List.length (filter (expired clock) (duels st))).
Proof.
  unfold cleanup_old_duels. cbn [fst]. now rewrite old_duels_expired.
Qed.

(** X13. Cleanups compose: running [cleanup_old_duels] at one clock reading
    and again at a later one leaves the duel table a single run at the later
    reading would leave, and the two counts add up to that run's count. *)
Theorem cleanups_compose (st : Store) (c1 c2 : Z) :
  keys_unique st ->
  c1 <= c2 ->
  let first := cleanup_old_duels st c1 in
  let second := cleanup_old_duels (snd first) c2 in
  snd second = snd (cleanup_old_duels st c2)
  /\ fst first + fst second = fst (cleanup_old_duels st c2).
Proof.
  intros Hkeys Hle first second.
  assert (Hkeys1 : keys_unique (snd first)).
  { unfold keys_unique, first. rewrite cleanup_old_duels_duels by exact Hkeys.
    now apply keys_unique_filter. }
  assert (Hd : duels (snd second) = duels (snd (cleanup_old_duels st c2))).
  { unfold second. rewrite cleanup_old_duels_duels by exact Hkeys1.
    unfold first. rewrite !cleanup_old_duels_duels by exact Hkeys.
    rewrite filter_twice. apply filter_ext. intros d.
    destruct (expired c1 d) eqn:E1; simpl; [|reflexivity].
    now rewrite (expired_later c1 c2 d Hle E1). }
  split.
  - assert (Hshape : forall s c,
               snd (cleanup_old_duels s c)
               = with_duels s (duels (snd (cleanup_old_duels s c))))
      by reflexivity.
    unfold second in *.
    rewrite (Hshape (snd first) c2), (Hshape st c2), Hd. reflexivity.
  - unfold second, first. rewrite !cleanup_count.
    rewrite cleanup_old_duels_duels by exact Hkeys.
    rewrite filter_twice, <- Nat2Z.inj_add. f_equal.
    induction (duels st) as [|d rest IH]; [reflexivity|].
    cbn [filter]. destruct (expired c1 d) eqn:E1.
    + rewrite (expired_later c1 c2 d Hle E1). simpl. now rewrite IH.
    + cbn [negb andb]. destruct (expired c2 d); simpl; rewrite <- IH; lia.
Qed.

Lemma cleanups_compose_witness :
  let first := cleanup_old_duels Sample.lobby (minutes 10) in
  let second := cleanup_old_duels (snd first) (minutes 14) in
  snd second = snd (cleanup_old_duels Sample.lobby (minutes 14))
  /\ fst first + fst second = fst (cleanup_old_duels Sample.lobby (minutes 14)).
Proof.
  apply (cleanups_compose Sample.lobby (minutes 10) (minutes 14)).
  - unfold keys_unique. simpl. repeat constructor; simpl; intuition discriminate.
  - vm_compute. discriminate.
Defined.

(** ** Crediting XP *)

Lemma update_user_twice (k : Z) (f1 f2 : User.t -> User.t)
  (us : list User.t) :
  (forall u, User.id (f1 u) = User.id u) ->
  update_user k f2 (update_user k f1 us)
  = update_user k (fun u => f2 (f1 u)) us.
Proof.
  intros Hid. induction us as [|x rest IH]; simpl; [reflexivity|].
  destruct (User.id x =? k) eqn:E; simpl.
  - now rewrite Hid, E.
  - now rewrite E, IH.
Qed.

Lemma update_user_ext (k : Z) (f1 f2 : User.t -> User.t)
  (us : list User.t) :
  (forall u, f1 u = f2 u) -> update_user k f1 us = update_user k f2 us.
Proof.
  intros Hf. induction us as [|x rest IH]; simpl; [reflexivity|].
  destruct (User.id x =? k); [now rewrite Hf | now rewrite IH].
Qed.

Lemma total_xp_update_user (k : Z) (f : User.t -> User.t)
  (us : list User.t) (u : User.t) :
  find_user k us = Some u ->
  total_xp (update_user k f us)
  = total_xp us - xp_or_zero u + xp_or_zero (f u).
Proof.
  unfold find_user. induction us as [|x rest IH]; simpl; [discriminate|].
  destruct (User.id x =? k); intros H.
  - injection H as ->. simpl. lia.
  - simpl. rewrite (IH H). lia.
Qed.

Lemma store_ext (s1 s2 : Store) :
  duels s1 = duels s2 -> attempts s1 = attempts s2 -> users s1 = users s2 ->
  questions s1 = questions s2 -> s1 = s2.
Proof. destruct s1, s2. simpl. intros -> -> -> ->. reflexivity. Qed.

(** One credit on a session with nothing pending. *)
Lemma award_xp_outcome (db : Dialect) (st : Store) (user_id a : Z) :
  let r := award_xp db (idle st) user_id a in
  (fst r = true
   /\ exists u old,
        find_user user_id (users st) = Some u
        /\ User.xp u = Some old
        /\ storable db (old + a) = true
        /\ snd r
           = idle
               (with_users st
                  (update_user user_id
                     (fun u0 => User.mk (User.id u0) (Some (old + a)))
                     (users st))))
  \/ (fst r = false
      /\ snd r = idle st
      /\ (find_user user_id (users st) = None
          \/ credit_fails db st user_id a = true)).
Proof.
  unfold award_xp, credit_fails, ledger_raises, commit_raises.
  cbn [idle working].
  destruct (find_user user_id (users st)) as [u|] eqn:Hu.
  - destruct (User.xp u) as [old|] eqn:Hxp.
    + destruct (storable db (old + a)) eqn:Hfits.
      * left. split; [reflexivity|]. exists u, old. auto.
      * right. cbn. auto.
    + right. cbn. auto.
  - right. cbn. auto.
Qed.

(** X14. Credits add up.  On a session with nothing pending, [award_xp]
    changes what it reports and nothing else: when it returns [True] the
    table's total XP has grown by the amount, when it returns [False]
    (no such user, a NULL [xp], or a total the column does not hold) nothing
    has changed; duels, attempts and questions are never touched.  Two
    credits in a row, [a] then [b], add to the total what each reports; and
    when both succeed they commit the store a single credit of [a + b]
    commits, which succeeds as well. *)
Theorem award_xp_adds_up (db : Dialect) (st : Store) (user_id a b : Z) :
  let once := award_xp db (idle st) user_id (a + b) in
  let first := award_xp db (idle st) user_id a in
  let second := award_xp db (snd first) user_id b in
  total_xp (users (committed (snd first)))
  = total_xp (users st) + (if fst first then a else 0)
  /\ (fst first = false -> committed (snd first) = st)
  /\ total_xp (users (committed (snd second)))
     = total_xp (users st) + (if fst first then a else 0)
       + (if fst second then b else 0)
  /\ (fst first = true -> fst second = true ->
      fst once = true /\ committed (snd second) = committed (snd once))
  /\ (fst first = true
      <-> exists u old,
            find_user user_id (users st) = Some u
            /\ User.xp u = Some old
            /\ storable db (old + a) = true)
  /\ duels (committed (snd second)) = duels st
  /\ attempts (committed (snd second)) = attempts st
  /\ questions (committed (snd second)) = questions st.
Proof.
  intros once first second.
  assert (Htotal : forall s x u old,
             find_user user_id (users s) = Some u ->
             User.xp u = Some old ->
             total_xp
               (update_user user_id
                  (fun u0 => User.mk (User.id u0) (Some (old + x))) (users s))
             = total_xp (users s) + x).
  { intros s x u old Hu Hxp.
    rewrite (total_xp_update_user user_id _ (users s) u Hu).
    unfold xp_or_zero. rewrite Hxp. simpl. lia. }
  assert (Hiff : fst first = true
                 <-> exists u old,
                       find_user user_id (users st) = Some u
                       /\ User.xp u = Some old
                       /\ storable db (old + a) = true).
  { destruct (award_xp_outcome db st user_id a)
      as [(Hok & u & old & Hu & Hxp & Hf & _) | (Hok & _ & Hwhy)];
      fold first in Hok.
    - split; [eauto 6 | auto].
    - split; [congruence|]. intros (u & old & Hu & Hxp & Hf).
      destruct Hwhy as [Hn | Hfail]; [congruence|].
      unfold credit_fails, ledger_raises, commit_raises in Hfail.
      rewrite Hu, Hxp, Hf in Hfail. discriminate. }
  destruct (award_xp_outcome db st user_id a)
    as [(Hok1 & u & old & Hu & Hxp & Hfits1 & Hs1) | (Hok1 & Hs1 & _)];
    fold first in Hok1, Hs1.
  - set (st1 := with_users st
                  (update_user user_id
                     (fun u0 => User.mk (User.id u0) (Some (old + a)))
                     (users st))) in *.
    assert (Hu1 : find_user user_id (users st1)
                  = Some (User.mk (User.id u) (Some (old + a)))).
    { apply (find_user_update_user user_id
               (fun u0 => User.mk (User.id u0) (Some (old + a))) (users st) u
               Hu eq_refl). }
    assert (Hfirst : total_xp (users st1) = total_xp (users st) + a)
      by (apply (Htotal st a u old Hu Hxp)).
    subst second. rewrite Hs1. rewrite Hok1 in *.
    destruct (award_xp_outcome db st1 user_id b)
      as [(Hok2 & u' & old' & Hu' & Hxp' & Hfits2 & Hs2)
         | (Hok2 & Hs2 & _)]; rewrite Hok2, Hs2.
    + rewrite Hu1 in Hu'. injection Hu' as <-. injection Hxp' as <-.
      cbn [idle committed with_users users duels attempts questions].
      split; [exact Hfirst|]. split; [discriminate|]. split.
      { rewrite (Htotal st1 b _ (old + a) Hu1 eq_refl). lia. }
      split; [|split; [exact Hiff | repeat split]].
      intros _ _.
      destruct (award_xp_outcome db st user_id (a + b))
        as [(Hok & u' & old' & Hu' & Hxp' & _ & Hs)
           | (Hok & _ & [Hnone | Hfail])]; fold once in Hok.
      * fold once in Hs. rewrite Hu in Hu'. injection Hu' as <-.
        rewrite Hxp in Hxp'. injection Hxp' as <-.
        split; [exact Hok|]. rewrite Hs. cbn [idle committed].
        apply store_ext; try reflexivity.
        cbn [with_users users st1].
        rewrite update_user_twice by reflexivity.
        apply update_user_ext. intros u0. simpl. f_equal. f_equal. lia.
      * congruence.
      * exfalso. unfold credit_fails, ledger_raises, commit_raises in Hfail.
        rewrite Hu, Hxp in Hfail. cbn [orb] in Hfail.
        replace (old + (a + b)) with (old + a + b) in Hfail by lia.
        rewrite Hfits2 in Hfail. discriminate.
    + cbn [idle committed].
      split; [exact Hfirst|]. split; [discriminate|].
      split; [lia|]. split; [discriminate|].
      split; [exact Hiff | repeat split].
  - subst second. rewrite Hs1. rewrite Hok1 in *.
    destruct (award_xp_outcome db st user_id b)
      as [(Hok2 & u' & old' & Hu' & Hxp' & Hfits2 & Hs2)
         | (Hok2 & Hs2 & _)]; rewrite Hok2, Hs2;
      cbn [idle committed with_users users duels attempts questions].
    + split; [lia|]. split; [reflexivity|]. split.
      { rewrite (Htotal st b u' old' Hu' Hxp'). lia. }
      split; [discriminate|]. split; [exact Hiff | repeat split].
    + split; [lia|]. split; [reflexivity|]. split; [lia|].
      split; [discriminate|]. split; [exact Hiff | repeat split].
Qed.

Example credit_at_the_column_bound :
  fst (award_xp SQLite (idle Sample.erin_vs_bob) Sample.erin 39) = true
  /\ fst (award_xp SQLite (idle Sample.erin_vs_bob) Sample.erin 40) = false
  /\ fst (award_xp PostgreSQL (idle Sample.empty) Sample.alice (2 ^ 31)) = false
  /\ fst (award_xp SQLite (idle Sample.empty) Sample.alice (2 ^ 31)) = true
  /\ fst (award_xp SQLite (idle Sample.empty) Sample.carol 1) = false
  /\ fst (award_xp SQLite (idle Sample.empty) Sample.dave 1) = false.
Proof. repeat split. Qed.

(** ** What a submission does to users and attempts *)

(** X15. A submission changes the users table in one way only: it adds the
    question's base reward plus bonus to the caller's XP, and it does so only
    together with storing the duel COMPLETED with the caller as
    [winner_id].  The table's total XP grows by that reward or not at all. *)
Theorem submission_credits_only_the_winner
  (autoflush : bool) (server_tz : option Z) (db : Dialect) (st : Store)
  (clock : Z) (g : Rng) (run : execution) (duel_id user_id time_taken : Z) :
  let st' :=
    store_after
      (submit_solution autoflush server_tz db st clock g run duel_id user_id
         time_taken) in
  users st' = users st
  \/ exists duel question u old stored,
       find_duel duel_id (duels st) = Some duel
       /\ find_question (Duel.question_id duel) (questions st) = Some question
       /\ find_user user_id (users st) = Some u
       /\ User.xp u = Some old
       /\ 0 < user_id
       /\ let reward :=
            Question.xp_reward question
            + bonus_xp (Question.xp_reward question) in
          users st'
          = update_user user_id
              (fun u0 => User.mk (User.id u0) (Some (old + reward)))
              (users st)
          /\ total_xp (users st') = total_xp (users st) + reward
          /\ find_duel duel_id (duels st') = Some stored
          /\ Duel.status stored = COMPLETED
          /\ Duel.winner_id stored = Some user_id.
Proof.
  unfold submit_solution.
  destruct (find_duel duel_id (duels st)) as [duel|] eqn:Hfind; [|now left].
  pose proof (find_duel_id _ _ _ Hfind) as Hid.
  destruct (negb (status_eqb (Duel.status duel) ACTIVE)); [now left|].
  destruct (negb (Duel.challenger_id duel =? user_id)
            && negb (opt_eqb (Duel.opponent_id duel) user_id)); [now left|].
  destruct (status_eqb (Duel.status duel) COMPLETED); [now left|].
  destruct (find_question (Duel.question_id duel) (questions st))
    as [question|] eqn:Hq; [|now left].
  destruct run as [judge| |e]; [|now left|now left].
  cbv zeta.
  pose proof (winner_is_submitter_or_bot autoflush server_tz st clock g judge
                user_id time_taken duel question) as Hwho.
  set (winner := determine_winner autoflush server_tz st clock g judge user_id
                   time_taken duel question) in *.
  destruct (completes winner _ _ _) as [e | finished]; [now left|].
  destruct finished; [|now left].
  unfold complete_and_reward.
  destruct winner as [w|]; [|now left].
  destruct (negb (w =? 0) && (0 <? w)) eqn:Hpos; [|now left].
  apply andb_true_iff in Hpos. destruct Hpos as [_ Hpos].
  apply Z.ltb_lt in Hpos.
  destruct (Hwho w eq_refl) as [-> | [Hneg _]]; [|lia].
  unfold award_xp. cbn [working pending with_duels with_attempts users].
  destruct (find_user user_id (users st)) as [u|] eqn:Hu; [|now left].
  destruct (User.xp u) as [old|] eqn:Hxp; [|now left].
  cbv zeta. destruct (storable db _); [|now left].
  right.
  exists duel, question, u, old,
    (complete (Some user_id) (now_utc clock) duel).
  do 4 (split; [first [reflexivity | assumption]|]). split; [exact Hpos|].
  cbv zeta. cbn [store_after fst snd commit committed working with_users
                   with_duels with_attempts users duels].
  split; [reflexivity|]. split; [|split; [|split; reflexivity]].
  - rewrite (total_xp_update_user user_id _ (users st) u Hu).
    unfold xp_or_zero. rewrite Hxp. simpl. lia.
  - rewrite Hid. apply find_duel_db_update; [exact Hfind | reflexivity].
Qed.

(** X16. A submission is recorded or nothing is.  When [submit_solution]
    returns, either the attempt (caller, question, verdict, time taken,
    stamped by the server) has been appended to the attempts and no other
    attempt was touched, or the store is exactly as before the call; the
    latter only when the call named a human winner who has a user row, the
    one case in which the ledger's handler can roll the session back. *)
Theorem submission_is_recorded
  (autoflush : bool) (server_tz : option Z) (db : Dialect) (st : Store)
  (clock : Z) (g : Rng) (run : execution) (duel_id user_id time_taken : Z)
  (resp : DuelResultResponse.t) (st' : Store) :
  submit_solution autoflush server_tz db st clock g run duel_id user_id
    time_taken = Returned resp st' ->
  exists duel question judge,
    find_duel duel_id (duels st) = Some duel
    /\ find_question (Duel.question_id duel) (questions st) = Some question
    /\ run = Response judge
    /\ (attempts st'
        = attempts st
          ++ [QuestionAttempt.mk user_id (Duel.question_id duel) (holds judge)
                time_taken (server_now server_tz clock)]
        \/ (st' = st
            /\ exists w u,
                 DuelResultResponse.winner_id resp = Some w
                 /\ 0 < w
                 /\ find_user w (users st) = Some u)).
Proof.
  intros Hsub.
  destruct (find_duel duel_id (duels st)) as [duel|] eqn:Hfind.
  2:{ unfold submit_solution in Hsub. rewrite Hfind in Hsub. discriminate. }
  destruct (returned_by_participant autoflush server_tz db st clock g run
              duel_id user_id time_taken duel resp st' Hfind Hsub)
    as (Hs & Hpart & (question & Hq) & judge & ->).
  exists duel, question, judge.
  split; [reflexivity|]. split; [exact Hq|]. split; [reflexivity|].
  rewrite (submit_solution_guards_passed autoflush server_tz db st clock g
             judge duel_id user_id time_taken duel question Hfind Hs Hpart Hq)
    in Hsub.
  cbv zeta in Hsub.
  assert (Hqid : Question.id question = Duel.question_id duel).
  { unfold find_question in Hq. apply find_some in Hq.
    destruct Hq as [_ Hq]. now apply Z.eqb_eq. }
  set (attempt := new_attempt server_tz question judge user_id time_taken
                    clock) in *.
  assert (Hattempt : attempt
                     = QuestionAttempt.mk user_id (Duel.question_id duel)
                         (holds judge) time_taken (server_now server_tz clock)).
  { unfold attempt, new_attempt. now rewrite Hqid. }
  rewrite <- Hattempt.
  set (winner := determine_winner autoflush server_tz st clock g judge user_id
                   time_taken duel question) in *.
  destruct (completes winner _ _ _) as [e | finished]; [discriminate Hsub|].
  destruct finished.
  2:{ injection Hsub as _ <-. now left. }
  injection Hsub as Hresp Hst'.
  unfold complete_and_reward in Hresp, Hst'.
  destruct winner as [w|] eqn:Hw.
  2:{ subst st'. now left. }
  destruct (negb (w =? 0) && (0 <? w)) eqn:Hpos.
  2:{ subst st'. now left. }
  apply andb_true_iff in Hpos. destruct Hpos as [_ Hpos].
  apply Z.ltb_lt in Hpos.
  unfold award_xp in Hresp, Hst'.
  cbn [working pending with_duels with_attempts users] in Hresp, Hst'.
  destruct (find_user w (users st)) as [u|] eqn:Hu.
  - assert (Hnamed : exists w0 u0,
               DuelResultResponse.winner_id resp = Some w0
               /\ 0 < w0
               /\ find_user w0 (users st) = Some u0).
    { exists w, u. rewrite <- Hresp, respond_winner_id. auto. }
    destruct (User.xp u) as [old|] eqn:Hxp.
    + cbv zeta in Hst'. destruct (storable db _).
      * subst st'. now left.
      * right. cbn in Hst'. subst st'. split; [reflexivity | exact Hnamed].
    + right. cbn in Hst'. subst st'. split; [reflexivity | exact Hnamed].
  - subst st'. now left.
Qed.

Lemma submission_is_recorded_witness :
  exists duel question judge,
    find_duel 1 (duels Sample.versus_bot) = Some duel
    /\ find_question (Duel.question_id duel) (questions Sample.versus_bot)
       = Some question
    /\ Response (Some true) = Response judge
    /\ (attempts (store_after Sample.alice_wins)
        = attempts Sample.versus_bot
          ++ [QuestionAttempt.mk Sample.alice (Duel.question_id duel)
                (holds judge) 5 (server_now None (seconds 40))]
        \/ (store_after Sample.alice_wins = Sample.versus_bot
            /\ exists w u,
                 DuelResultResponse.winner_id Sample.alice_wins_reply = Some w
                 /\ 0 < w
                 /\ find_user w (users Sample.versus_bot) = Some u)).
Proof.
  apply (submission_is_recorded true None SQLite Sample.versus_bot
           (seconds 40) Sample.bot_misses (Response (Some true)) 1
           Sample.alice 5 Sample.alice_wins_reply
           (store_after Sample.alice_wins)).
  reflexivity.
Defined.

(** ** Streaks *)

(** X17. [_calculate_streak] counts whole 24-hour periods since the last
    activity, not calendar days: less than 24 hours keeps the streak, from 24
    to less than 48 hours adds one, and anything else -- 48 hours or more, or
    a last activity in the future -- resets it to 1 and reports it broken.
    The two flags are always opposite, and a streak of at least 1 stays at
    least 1 and grows by at most 1.  (The two datetimes are both aware or
    both naive, as Python's subtraction requires.) *)
Theorem streak_counts_whole_days (last now : datetime) (streak : Z) :
  (tzinfo last = None <-> tzinfo now = None) ->
  let elapsed := dt_sub now last in
  let info := _calculate_streak (Some last) now streak in
  (0 <= elapsed < day ->
   new_streak info = streak
   /\ streak_maintained info = true /\ streak_broken info = false)
  /\ (day <= elapsed < 2 * day ->
      new_streak info = streak + 1
      /\ streak_maintained info = true /\ streak_broken info = false)
  /\ (elapsed < 0 \/ 2 * day <= elapsed ->
      new_streak info = 1
      /\ streak_maintained info = false /\ streak_broken info = true)
  /\ streak_maintained info = negb (streak_broken info)
  /\ (1 <= streak -> 1 <= new_streak info <= streak + 1).
Proof.
  intros _ elapsed info. subst info. unfold _calculate_streak. fold elapsed.
  cbv zeta. unfold days_of.
  assert (Hday : 0 < day) by (unfold day, seconds; lia).
  pose proof (Z.div_mod elapsed day ltac:(lia)) as Hdiv.
  pose proof (Z.mod_pos_bound elapsed day Hday) as Hmod.
  set (q := elapsed / day) in *. set (r := elapsed mod day) in *.
  assert (H0 : q = 0 <-> 0 <= elapsed < day) by nia.
  assert (H1 : q = 1 <-> day <= elapsed < 2 * day) by nia.
  destruct (Z.eqb_spec q 0) as [E0 | E0];
    [|destruct (Z.eqb_spec q 1) as [E1 | E1]];
    cbn [new_streak streak_maintained streak_broken negb].
  - apply H0 in E0. repeat split; intros; lia.
  - apply H1 in E1. repeat split; intros; lia.
  - assert (~ (0 <= elapsed < day)) by tauto.
    assert (~ (day <= elapsed < 2 * day)) by tauto.
    repeat split; intros; lia.
Qed.

Lemma streak_counts_whole_days_witness :
  let elapsed := dt_sub Tour.after_midnight Tour.late_evening in
  let info :=
    _calculate_streak (Some Tour.late_evening) Tour.after_midnight 4 in
  (0 <= elapsed < day ->
   new_streak info = 4
   /\ streak_maintained info = true /\ streak_broken info = false)
  /\ (day <= elapsed < 2 * day ->
      new_streak info = 4 + 1
      /\ streak_maintained info = true /\ streak_broken info = false)
  /\ (elapsed < 0 \/ 2 * day <= elapsed ->
      new_streak info = 1
      /\ streak_maintained info = false /\ streak_broken info = true)
  /\ streak_maintained info = negb (streak_broken info)
  /\ (1 <= 4 -> 1 <= new_streak info <= 4 + 1).
Proof.
  apply (streak_counts_whole_days Tour.late_evening Tour.after_midnight 4).
  split; discriminate.
Defined.

Example midnight_does_not_count :
  (* active at 23:00, again at 01:00 the next day: same streak *)
  _calculate_streak (Some Tour.late_evening) Tour.after_midnight 4
  = {| new_streak := 4; streak_maintained := true; streak_broken := false |}.
Proof. reflexivity. Qed.

(** ** Listings *)

Lemma insert_newest_In (d x : Duel.t) (l : list Duel.t) :
  In x (insert_newest d l) <-> x = d \/ In x l.
Proof.
  induction l as [|y rest IH]; simpl; [intuition|].
  destruct (sort_key y <=? sort_key d); simpl; [intuition|].
  rewrite IH. intuition.
Qed.

Lemma newest_first_In (x : Duel.t) (l : list Duel.t) :
  In x (newest_first l) <-> In x l.
Proof.
  induction l as [|y rest IH]; simpl; [tauto|].
  rewrite insert_newest_In, IH. intuition.
Qed.

Lemma newest_first_length (l : list Duel.t) :
  List.length (newest_first l) = List.length l.
Proof.
  induction l as [|y rest IH]; simpl; [reflexivity|].
  rewrite <- IH. generalize (newest_first rest). clear.
  induction l as [|x l IH]; simpl; [reflexivity|].
  destruct (sort_key x <=? sort_key y); simpl; [reflexivity | now rewrite IH].
Qed.

Lemma insert_newest_sorted (d : Duel.t) (l : list Duel.t) :
  Sorted not_older l -> Sorted not_older (insert_newest d l).
Proof.
  induction l as [|x rest IH]; simpl; intros Hs.
  - repeat constructor.
  - destruct (Z.leb_spec (sort_key x) (sort_key d)) as [Hle | Hlt].
    + constructor; [exact Hs|]. constructor. exact Hle.
    + inversion Hs as [|? ? Hrest Hhd]; subst.
      constructor; [now apply IH|].
      destruct rest as [|y rest']; simpl.
      * constructor. unfold not_older. lia.
      * destruct (sort_key y <=? sort_key d).
        -- constructor. unfold not_older. lia.
        -- constructor. inversion Hhd; subst. assumption.
Qed.

Lemma newest_first_sorted (l : list Duel.t) : Sorted not_older (newest_first l).
Proof.
  induction l as [|x rest IH]; simpl; [constructor|].
  now apply insert_newest_sorted.
Qed.

Lemma firstn_sorted {A : Type} (R : A -> A -> Prop) (n : nat) (l : list A) :
  Sorted R l -> Sorted R (firstn n l).
Proof.
  revert l. induction n as [|n IH]; intros l Hs; simpl; [constructor|].
  destruct l as [|x rest]; [constructor|].
  inversion Hs as [|? ? Hrest Hhd]; subst.
  constructor; [now apply IH|].
  destruct n; simpl; [constructor|].
  destruct rest as [|y rest']; [constructor|].
  constructor. now inversion Hhd.
Qed.

Lemma In_firstn {A : Type} (n : nat) (l : list A) (x : A) :
  In x (firstn n l) -> In x l.
Proof.
  revert l. induction n as [|n IH]; intros l; simpl; [tauto|].
  destruct l as [|y rest]; simpl; [tauto|].
  intros [-> | H]; [now left | right; now apply IH].
Qed.

Lemma map_sorted {A B : Type} (R : A -> A -> Prop) (R' : B -> B -> Prop)
  (f : A -> B) (l : list A) :
  (forall a b, R a b -> R' (f a) (f b)) ->
  Sorted R l -> Sorted R' (map f l).
Proof.
  intros Hf. induction l as [|x rest IH]; simpl; intros Hs; [constructor|].
  inversion Hs as [|? ? Hrest Hhd]; subst.
  constructor; [now apply IH|].
  destruct rest as [|y rest']; simpl; [constructor|].
  constructor. apply Hf. now inversion Hhd.
Qed.

(** What [LIMIT] keeps: a prefix of the rows; the first [n] of them for a
    count [n >= 0]; all of them for a negative count, which only SQLite
    takes. *)
Lemma sql_limit_kept {A : Type} (db : Dialect) (n : Z) (rows kept : list A) :
  sql_limit db n rows = Some kept ->
  (exists k, kept = firstn k rows)
  /\ (0 <= n -> kept = firstn (Z.to_nat n) rows)
  /\ (n < 0 -> db = SQLite /\ kept = rows).
Proof.
  unfold sql_limit. destruct (Z.ltb_spec n 0) as [Hneg | Hpos].
  - destruct db; [|discriminate].
    destruct (- 2 ^ 63 <=? n); [|discriminate].
    intros H. injection H as <-. split; [|split; [lia | auto]].
    exists (List.length rows). now rewrite firstn_all.
  - destruct (n <? 2 ^ 63); [|discriminate].
    intros H. injection H as <-. split; [eauto|]. split; [auto | lia].
Qed.

Lemma sql_limit_answers {A : Type} (db : Dialect) (n : Z) (rows : list A) :
  0 <= n < 2 ^ 63 -> sql_limit db n rows = Some (firstn (Z.to_nat n) rows).
Proof.
  intros [H0 H1]. unfold sql_limit.
  destruct (Z.ltb_spec n 0); [lia|].
  destruct (Z.ltb_spec n (2 ^ 63)); [reflexivity | lia].
Qed.

(** The rows a listing query returns: newest first, all of them passing the
    filter; at most [limit] of them for a count [limit >= 0]; all that pass
    when the count does not cut or is negative. *)
Lemma listed_rows (db : Dialect) (p : Duel.t -> bool) (ds rows : list Duel.t)
  (limit : Z) :
  sql_limit db limit (newest_first (filter p ds)) = Some rows ->
  Sorted not_older rows
  /\ (forall d, In d rows -> In d ds /\ p d = true)
  /\ (0 <= limit -> Z.of_nat (List.length rows) <= limit)
  /\ (limit < 0 \/ Z.of_nat (List.length (filter p ds)) <= limit ->
      forall d, In d ds -> p d = true -> In d rows).
Proof.
  intros H. destruct (sql_limit_kept db limit _ rows H)
    as ((k & Hk) & Hpos & Hneg).
  split; [|split; [|split]].
  - rewrite Hk. apply firstn_sorted, newest_first_sorted.
  - intros d Hd. rewrite Hk in Hd. apply In_firstn in Hd.
    apply -> newest_first_In in Hd. now apply filter_In in Hd.
  - intros H0. rewrite (Hpos H0), length_firstn. lia.
  - intros Hall d Hin Hp.
    assert (Hrows : rows = newest_first (filter p ds)).
    { destruct (Z.ltb_spec limit 0) as [Hlt | Hge].
      - now destruct (Hneg Hlt).
      - rewrite (Hpos Hge). apply firstn_all2.
        rewrite newest_first_length. lia. }
    rewrite Hrows. apply newest_first_In. apply filter_In. now split.
Qed.

(** X18. [get_available_duels] answers for every [limit] from 0 up to what
    the database's integers hold.  When it answers, the entries come newest
    first; each is a duel of the store that is WAITING, has no opponent and
    was not created by the caller, shown with status "waiting" and no bot
    flag; there are at most [limit] of them for a [limit >= 0]; and every such
    duel is listed when the limit does not cut the list or is negative (which
    SQLite takes as no limit and PostgreSQL refuses). *)
Theorem available_duels_are_joinable_candidates
  (db : Dialect) (username question_text : Z -> string) (st : Store)
  (user_id limit : Z) :
  (0 <= limit < 2 ^ 63 ->
   get_available_duels db username question_text st user_id limit <> None)
  /\ (limit < 0 -> db = PostgreSQL ->
      get_available_duels db username question_text st user_id limit = None)
  /\ forall listing,
       get_available_duels db username question_text st user_id limit
       = Some listing ->
       Sorted listed_not_older listing
       /\ (0 <= limit -> Z.of_nat (List.length listing) <= limit)
       /\ (forall e, In e listing ->
             exists d,
               In d (duels st)
               /\ Duel.status d = WAITING
               /\ Duel.opponent_id d = None
               /\ Duel.challenger_id d <> user_id
               /\ DuelListResponse.id e = Duel.id d
               /\ DuelListResponse.challenger_id e = Duel.challenger_id d
               /\ DuelListResponse.question_id e = Duel.question_id d
               /\ DuelListResponse.status e = "waiting"
               /\ DuelListResponse.opponent_id e = None
               /\ DuelListResponse.is_bot_opponent e = false)
       /\ (limit < 0
           \/ Z.of_nat
                (List.length (filter (available_to user_id) (duels st)))
              <= limit ->
           forall d,
             In d (duels st) ->
             Duel.status d = WAITING ->
             Duel.opponent_id d = None ->
             Duel.challenger_id d <> user_id ->
             exists e, In e listing /\ DuelListResponse.id e = Duel.id d).
Proof.
  assert (Hav : forall d, available_to user_id d = true <->
                  Duel.status d = WAITING /\ Duel.opponent_id d = None
                  /\ Duel.challenger_id d <> user_id).
  { intros d. unfold available_to. rewrite !andb_true_iff, status_eqb_eq.
    rewrite negb_true_iff, Z.eqb_neq.
    destruct (Duel.opponent_id d); intuition congruence. }
  unfold get_available_duels. split; [|split].
  - intros Hl. rewrite sql_limit_answers by exact Hl. discriminate.
  - intros Hl ->. unfold sql_limit.
    destruct (Z.ltb_spec limit 0); [reflexivity | lia].
  - intros listing H.
    destruct (sql_limit db limit _) as [rows|] eqn:Hrows; [|discriminate].
    injection H as <-.
    destruct (listed_rows db _ _ rows limit Hrows)
      as (Hsorted & Hrow & Hlen & Hall).
    split; [|split; [|split]].
    + apply (map_sorted not_older); [|exact Hsorted].
      intros a b H. exact H.
    + rewrite length_map. exact Hlen.
    + intros e He. apply in_map_iff in He. destruct He as (d & <- & Hd).
      destruct (Hrow d Hd) as [Hin Ha]. apply Hav in Ha.
      destruct Ha as (Hs & Ho & Hc).
      exists d. simpl. rewrite Hs. repeat split; auto.
    + intros Hfit d Hin Hs Ho Hc.
      exists (available_entry username question_text st d).
      split; [|reflexivity].
      apply in_map. apply (Hall Hfit d Hin). apply Hav. auto.
Qed.

(** X19. What is listed can be joined: with unique keys, a caller without
    open duel who joins an entry of [get_available_duels] gets that duel back
    ACTIVE with themself as opponent. *)
Theorem listed_duel_can_be_joined
  (db : Dialect) (username question_text : Z -> string) (st : Store)
  (user_id limit : Z) (listing : list DuelListResponse.t)
  (e : DuelListResponse.t) :
  keys_unique st ->
  open_duels_of user_id st = [] ->
  get_available_duels db username question_text st user_id limit
  = Some listing ->
  In e listing ->
  exists joined st',
    join_duel st (DuelListResponse.id e) user_id = Returned joined st'
    /\ Duel.id joined = DuelListResponse.id e
    /\ Duel.challenger_id joined = DuelListResponse.challenger_id e
    /\ Duel.opponent_id joined = Some user_id
    /\ Duel.status joined = ACTIVE
    /\ find_duel (DuelListResponse.id e) (duels st') = Some joined.
Proof.
  intros Hkeys Hopen Hlist He. unfold get_available_duels in Hlist.
  destruct (sql_limit db limit _) as [rows|] eqn:Hrows; [|discriminate].
  injection Hlist as <-.
  apply in_map_iff in He. destruct He as (d & <- & Hd).
  destruct (listed_rows db _ _ rows limit Hrows) as (_ & Hrow & _).
  destruct (Hrow d Hd) as [Hin Ha].
  unfold available_to in Ha. rewrite !andb_true_iff in Ha.
  destruct Ha as [[Hs Hc] Ho]. apply status_eqb_eq in Hs.
  assert (Hnone : Duel.opponent_id d = None)
    by (destruct (Duel.opponent_id d); [discriminate | reflexivity]).
  pose proof (find_duel_of_row (duels st) d Hkeys Hin) as Hfind.
  cbn [available_entry DuelListResponse.id DuelListResponse.challenger_id].
  unfold join_duel. rewrite Hfind, Hs. cbn [status_eqb negb].
  apply negb_true_iff in Hc. rewrite Hc, Hnone.
  assert (Hex : existing_duel (duels st) user_id = None)
    by (apply find_none_filter; exact Hopen).
  rewrite Hex. do 2 eexists. split; [reflexivity|].
  split; [reflexivity|]. split; [reflexivity|]. split; [reflexivity|].
  split; [reflexivity|].
  cbn [duels with_duels]. apply find_duel_db_update; [exact Hfind|].
  reflexivity.
Qed.

(** X20. [get_user_duels] answers for every [limit] from 0 up to what the
    database's integers hold.  When it answers, the entries come newest
    first, at most [limit] of them for a [limit >= 0]; each is a duel of the
    store, of any status, in which the caller is challenger or opponent.  An
    entry is flagged as a bot duel exactly when its opponent id is negative,
    and then carries the bot's profile name; an entry without opponent
    carries no opponent name. *)
Theorem user_duels_show_own_duels
  (db : Dialect) (username question_text : Z -> string) (st : Store)
  (user_id limit : Z) :
  (0 <= limit < 2 ^ 63 ->
   get_user_duels db username question_text st user_id limit <> None)
  /\ (limit < 0 -> db = PostgreSQL ->
      get_user_duels db username question_text st user_id limit = None)
  /\ forall listing,
       get_user_duels db username question_text st user_id limit
       = Some listing ->
       Sorted listed_not_older listing
       /\ (0 <= limit -> Z.of_nat (List.length listing) <= limit)
       /\ (limit < 0 ->
           List.length listing
           = List.length (filter (involves user_id) (duels st)))
       /\ (forall e, In e listing ->
             (exists d,
                In d (duels st)
                /\ DuelListResponse.id e = Duel.id d
                /\ DuelListResponse.status e = status_value (Duel.status d)
                /\ DuelListResponse.challenger_id e = Duel.challenger_id d
                /\ DuelListResponse.opponent_id e = Duel.opponent_id d)
             /\ (DuelListResponse.challenger_id e = user_id
                 \/ DuelListResponse.opponent_id e = Some user_id)
             /\ (DuelListResponse.is_bot_opponent e = true
                 <-> exists o,
                       DuelListResponse.opponent_id e = Some o /\ o < 0)
             /\ (forall o,
                   DuelListResponse.opponent_id e = Some o -> o < 0 ->
                   DuelListResponse.opponent_username e
                   = Some (BotOpponentResponse.username (_get_bot_info o)))
             /\ (DuelListResponse.opponent_id e = None ->
                 DuelListResponse.opponent_username e = None)).
Proof.
  unfold get_user_duels. split; [|split].
  - intros Hl. rewrite sql_limit_answers by exact Hl. discriminate.
  - intros Hl ->. unfold sql_limit.
    destruct (Z.ltb_spec limit 0); [reflexivity | lia].
  - intros listing H.
    destruct (sql_limit db limit _) as [rows|] eqn:Hrows; [|discriminate].
    injection H as <-.
    destruct (listed_rows db _ _ rows limit Hrows)
      as (Hsorted & Hrow & Hlen & Hall).
    split; [|split; [|split]].
    + apply (map_sorted not_older); [|exact Hsorted].
      intros a b H. exact H.
    + rewrite length_map. exact Hlen.
    + intros Hneg. rewrite length_map.
      destruct (sql_limit_kept db limit _ rows Hrows) as (_ & _ & Hall').
      destruct (Hall' Hneg) as [_ ->]. apply newest_first_length.
    + intros e He. apply in_map_iff in He. destruct He as (d & <- & Hd).
      destruct (Hrow d Hd) as [Hin Hinv].
      unfold history_entry.
      cbn [DuelListResponse.id DuelListResponse.status
             DuelListResponse.challenger_id DuelListResponse.opponent_id
             DuelListResponse.is_bot_opponent
             DuelListResponse.opponent_username].
      split; [exists d; auto|]. split.
      { unfold involves in Hinv. apply orb_true_iff in Hinv.
        destruct Hinv as [H | H]; [left; now apply Z.eqb_eq|].
        right. destruct (Duel.opponent_id d) as [o|]; [|discriminate].
        simpl in H. apply Z.eqb_eq in H. now subst. }
      unfold opponent_info.
      destruct (Duel.opponent_id d) as [o|].
      * destruct (Z.eqb_spec o 0) as [-> | Hne]; cbn [negb fst snd].
        -- split; [split; [discriminate|]|split].
           ++ intros (o & E & Ho). injection E as <-. lia.
           ++ intros o E Ho. injection E as <-. lia.
           ++ discriminate.
        -- destruct (Z.ltb_spec o 0) as [Hneg | Hpos]; cbn [fst snd].
           ++ split; [split; [eauto | reflexivity]|split].
              ** intros o' E _. now injection E as <-.
              ** discriminate.
           ++ split; [split; [discriminate|]|split].
              ** intros (o' & E & Ho). injection E as <-. lia.
              ** intros o' E Ho. injection E as <-. lia.
              ** discriminate.
      * cbn [fst snd]. split; [split; [discriminate|]|split].
        -- intros (o & E & _). discriminate.
        -- discriminate.
        -- reflexivity.
Qed.

(** X21. Names agree across the service: the opponent name a history entry
    shows for a non-zero opponent id is the name [_get_username] gives that
    id, "Unknown" standing in when there is no such user; and the five tiers
    carry their profile names from -1 to -5. *)
Theorem names_agree (username : Z -> string) (st : Store) (o : Z) :
  o <> 0 ->
  fst (opponent_info username st (Some o))
  = Some match _get_username username st o with
         | Some name => name
         | None => "Unknown"
         end
  /\ (o < 0 -> _get_username username st o
               = Some (BotOpponentResponse.username (_get_bot_info o)))
  /\ map (fun bot_id => _get_username username st bot_id) [-1; -2; -3; -4; -5]
     = [Some "CodeBot Novice"; Some "CodeBot Junior"; Some "CodeBot Expert";
        Some "CodeBot Master"; Some "CodeBot Grandmaster"].
Proof.
  intros Hne. unfold opponent_info, _get_username, username_or_unknown.
  destruct (Z.eqb_spec o 0); [contradiction|]. cbn [negb].
  destruct (Z.ltb_spec o 0); cbn [fst].
  - repeat split.
  - split.
    + destruct (find_user o (users st)); reflexivity.
    + split; [lia | reflexivity].
Qed.

Lemma listed_duel_can_be_joined_witness :
  exists joined st',
    join_duel Tour.created (DuelListResponse.id Tour.alice_listed) Sample.bob
    = Returned joined st'
    /\ Duel.id joined = DuelListResponse.id Tour.alice_listed
    /\ Duel.challenger_id joined
       = DuelListResponse.challenger_id Tour.alice_listed
    /\ Duel.opponent_id joined = Some Sample.bob
    /\ Duel.status joined = ACTIVE
    /\ find_duel (DuelListResponse.id Tour.alice_listed) (duels st')
       = Some joined.
Proof.
  apply (listed_duel_can_be_joined SQLite Tour.names Tour.texts Tour.created
           Sample.bob 10 [Tour.alice_listed] Tour.alice_listed).
  - unfold keys_unique. simpl. repeat constructor; simpl; tauto.
  - reflexivity.
  - reflexivity.
  - left. reflexivity.
Defined.

Lemma names_agree_witness :
  fst (opponent_info Tour.names Sample.empty (Some Sample.bob))
  = Some match _get_username Tour.names Sample.empty Sample.bob with
         | Some name => name
         | None => "Unknown"
         end
  /\ (Sample.bob < 0 ->
      _get_username Tour.names Sample.empty Sample.bob
      = Some (BotOpponentResponse.username (_get_bot_info Sample.bob)))
  /\ map (fun bot_id => _get_username Tour.names Sample.empty bot_id)
       [-1; -2; -3; -4; -5]
     = [Some "CodeBot Novice"; Some "CodeBot Junior"; Some "CodeBot Expert";
        Some "CodeBot Master"; Some "CodeBot Grandmaster"].
Proof.
  apply (names_agree Tour.names Sample.empty Sample.bob).
  discriminate.
Defined.

Example bob_sees_alice_waiting :
  get_available_duels SQLite Tour.names Tour.texts Tour.created Sample.bob 10
  = Some [Tour.alice_listed]
  /\ get_available_duels SQLite Tour.names Tour.texts Tour.created
       Sample.alice 10
     = Some []
  /\ get_available_duels SQLite Tour.names Tour.texts Tour.created Sample.bob
       (-1)
     = Some [Tour.alice_listed]
  /\ get_available_duels PostgreSQL Tour.names Tour.texts Tour.created
       Sample.bob (-1)
     = None
  /\ get_available_duels SQLite Tour.names Tour.texts Tour.created Sample.bob
       0
     = Some []
  /\ BotOpponentResponse.username (_get_bot_info (-7)) = "CodeBot Level 7".
Proof. repeat split. Qed.
